(** * k8s-acl-operator: selector matching, template engine, RBAC manager
      and the two reconcilers, embedded from the Go sources.

    Go values are modelled as follows: a [map[string]string] that may be
    [nil] is an [option (gmap string string)]; a pointer that may be [nil]
    is an [option]; a slice is a [list]; a Go [error] result is an
    [option error] ([None] is [nil]); a function returning [(T, error)]
    returns a pair or a sum.  Calls to the cluster API, the metrics and
    health collaborators and the logger are recorded in an event log. *)

From Stdlib Require Import Ascii String.
From stdpp Require Import gmap strings list fin_maps.

Open Scope string_scope.
Open Scope list_scope.
Set Warnings "-register-all".

(** ** Errors (k8s.io/apimachinery/pkg/api/errors, fmt.Errorf) *)

Inductive StatusReason :=
  | StatusReasonUnknown
  | StatusReasonNotFound
  | StatusReasonConflict
  | StatusReasonAlreadyExists
  | StatusReasonForbidden
  | StatusReasonTimeout.

#[global] Instance StatusReason_eq_dec : EqDecision StatusReason.
Proof. solve_decision. Defined.

(** [APIStatus] is an error returned by the API server; [ErrorNew] is any
    other plain error value (regexp, template, scheme, or [fmt.Errorf]
    without a [%w] verb); [Errorf prefix e] is [fmt.Errorf] with a format
    ending in [%w]: [prefix] is the formatted text before the wrapped
    error [e]. *)
Inductive error :=
  | APIStatus (reason : StatusReason) (msg : string)
  | ErrorNew (msg : string)
  | Errorf (prefix : string) (wrapped : error).

(** The [Error()] method. *)
Fixpoint Error (e : error) : string :=
  match e with
  | APIStatus _ msg => msg
  | ErrorNew msg => msg
  | Errorf prefix e' => prefix +:+ Error e'
  end.

(** [errors.As] unwraps [%w] chains down to the API status. *)
Fixpoint ReasonForError (e : error) : StatusReason :=
  match e with
  | APIStatus r _ => r
  | ErrorNew _ => StatusReasonUnknown
  | Errorf _ e' => ReasonForError e'
  end.

Definition IsNotFound (err : option error) : bool :=
  match err with
  | Some e => bool_decide (ReasonForError e = StatusReasonNotFound)
  | None => false
  end.

Definition IsConflict (err : option error) : bool :=
  match err with
  | Some e => bool_decide (ReasonForError e = StatusReasonConflict)
  | None => false
  end.

(** ** API types (k8s.io/api/rbac/v1, meta/v1, pkg/apis/rbac/v1) *)

Abbreviation strmap := (gmap string string).

Record PolicyRule := {
  Verbs : list string;
  APIGroups : list string;
  Resources : list string;
  ResourceNames : list string;
  NonResourceURLs : list string;
}.

Record Subject := {
  sKind : string;
  sAPIGroup : string;
  sName : string;
  sNamespace : string;
}.

Record RoleRef := {
  rrAPIGroup : string;
  rrKind : string;
  rrName : string;
}.

Record OwnerReference := {
  orKind : string;
  orName : string;
  orController : bool;
}.

Record ObjectMeta := {
  Name : string;
  Namespace_ : string;
  Labels : option strmap;
  Annotations : option strmap;
  ResourceVersion : string;
  Generation : Z;
  Finalizers : list string;
  DeletionTimestamp : option nat;
  OwnerReferences : list OwnerReference;
}.

Definition emptyMeta : ObjectMeta :=
  {| Name := ""; Namespace_ := ""; Labels := None; Annotations := None;
     ResourceVersion := ""; Generation := 0; Finalizers := [];
     DeletionTimestamp := None; OwnerReferences := [] |}.

Definition withResourceVersion (m : ObjectMeta) (rv : string) : ObjectMeta :=
  {| Name := Name m; Namespace_ := Namespace_ m; Labels := Labels m;
     Annotations := Annotations m; ResourceVersion := rv;
     Generation := Generation m; Finalizers := Finalizers m;
     DeletionTimestamp := DeletionTimestamp m;
     OwnerReferences := OwnerReferences m |}.

Definition withOwnerReferences (m : ObjectMeta) (refs : list OwnerReference) : ObjectMeta :=
  {| Name := Name m; Namespace_ := Namespace_ m; Labels := Labels m;
     Annotations := Annotations m; ResourceVersion := ResourceVersion m;
     Generation := Generation m; Finalizers := Finalizers m;
     DeletionTimestamp := DeletionTimestamp m;
     OwnerReferences := refs |}.

Definition withFinalizers (m : ObjectMeta) (fs : list string) : ObjectMeta :=
  {| Name := Name m; Namespace_ := Namespace_ m; Labels := Labels m;
     Annotations := Annotations m; ResourceVersion := ResourceVersion m;
     Generation := Generation m; Finalizers := fs;
     DeletionTimestamp := DeletionTimestamp m;
     OwnerReferences := OwnerReferences m |}.

Record Namespace := { nsMeta : ObjectMeta }.

Record Role := { roleMeta : ObjectMeta; roleRules : list PolicyRule }.
Record ClusterRole := { crMeta : ObjectMeta; crRules : list PolicyRule }.
Record RoleBinding := {
  rbMeta : ObjectMeta; rbRoleRef : RoleRef; rbSubjects : list Subject }.
Record ClusterRoleBinding := {
  crbMeta : ObjectMeta; crbRoleRef : RoleRef; crbSubjects : list Subject }.

Record NamespaceSelector := {
  NameRegex : option string;
  selAnnotations : option strmap;
  selLabels : option strmap;
  IncludeNamespaces : list string;
  ExcludeNamespaces : list string;
}.

Record RoleTemplate := {
  rtName : string;
  rtRules : list PolicyRule;
  rtLabels : option strmap;
  rtAnnotations : option strmap;
}.

Record ClusterRoleTemplate := {
  crtName : string;
  crtRules : list PolicyRule;
  crtLabels : option strmap;
  crtAnnotations : option strmap;
}.

Record RoleBindingTemplate := {
  rbtName : string;
  rbtRoleRef : RoleRef;
  rbtSubjects : list Subject;
  rbtLabels : option strmap;
  rbtAnnotations : option strmap;
}.

Record ClusterRoleBindingTemplate := {
  crbtName : string;
  crbtRoleRef : RoleRef;
  crbtSubjects : list Subject;
  crbtLabels : option strmap;
  crbtAnnotations : option strmap;
}.

Record RBACTemplates := {
  Roles : list RoleTemplate;
  ClusterRoles : list ClusterRoleTemplate;
  RoleBindings : list RoleBindingTemplate;
  ClusterRoleBindings : list ClusterRoleBindingTemplate;
}.

Record NamingConfig := { Prefix : string; Suffix : string; Separator : string }.

Record CleanupConfig := {
  DeleteOrphanedClusterResources : option bool;
  GracePeriodSeconds : option Z;
}.

(** [type MergeStrategy string]: any string can be stored in the field. *)
Definition MergeStrategy := string.
Definition MergeStrategyMerge : MergeStrategy := "merge".
Definition MergeStrategyReplace : MergeStrategy := "replace".
Definition MergeStrategyIgnore : MergeStrategy := "ignore".

Record NamespaceRBACConfigConfig := {
  Naming : option NamingConfig;
  cfgMergeStrategy : option MergeStrategy;
  TemplateVariables : option strmap;
  Cleanup : option CleanupConfig;
}.

Record NamespaceRBACConfigSpec := {
  specSelector : NamespaceSelector;
  specTemplates : RBACTemplates;
  specConfig : option NamespaceRBACConfigConfig;
}.

Inductive ConditionStatus := ConditionTrue | ConditionFalse | ConditionUnknown.

#[global] Instance ConditionStatus_eq_dec : EqDecision ConditionStatus.
Proof. solve_decision. Defined.

Record Condition := {
  condType : string;
  condStatus : ConditionStatus;
  LastTransitionTime : nat;
  condReason : string;
  condMessage : string;
}.

Record NamespaceRBACConfigStatus := {
  Conditions : list Condition;
  AppliedNamespaces : list string;
  ObservedGeneration : Z;
}.

Record NamespaceRBACConfig := {
  cfgMeta : ObjectMeta;
  Spec : NamespaceRBACConfigSpec;
  Status : NamespaceRBACConfigStatus;
}.

(** ** Package regexp, as far as the operator uses it *)

Class RegexpLib := {
  Regexp : Type;
  Compile : string -> error + Regexp;
  reMatchString : Regexp -> string -> bool;
}.

(** [regexp.MatchString]: compile, then match. *)
Definition MatchString `{RegexpLib} (pattern s : string) : bool * option error :=
  match Compile pattern with
  | inl err => (false, Some err)
  | inr re => (reMatchString re s, None)
  end.

(** ** Package utils *)

Module utils.

(** The [for key, value := range required] loop with its early
    [return false]: every required entry is present with the same value. *)
Definition hasAll (target required : strmap) : bool :=
  forallb (fun kv => bool_decide (target !! kv.1 = Some kv.2)) (map_to_list required).

Definition NamespaceMatches `{RegexpLib} (ns : Namespace) (selector : NamespaceSelector)
    : bool * option error :=
  let name := Name (nsMeta ns) in
  (* Check explicit exclusions first *)
  if existsb (fun excluded => bool_decide (name = excluded)) (ExcludeNamespaces selector)
  then (false, None)
  (* If include list is specified, namespace must be in it *)
  else if (0 <? length (IncludeNamespaces selector))%nat
          && negb (existsb (fun included => bool_decide (name = included))
                           (IncludeNamespaces selector))
  then (false, None)
  else
    (* Check name regex *)
    let regexStep : option (bool * option error) :=
      match NameRegex selector with
      | Some re =>
          if bool_decide (re <> "") then
            match MatchString re name with
            | (_, Some err) => Some (false, Some err)
            | (false, None) => Some (false, None)
            | (true, None) => None
            end
          else None
      | None => None
      end in
    match regexStep with
    | Some r => r
    | None =>
        (* Check required annotations *)
        let annotationStep : bool :=
          match selAnnotations selector with
          | Some required =>
              match Annotations (nsMeta ns) with
              | None => false
              | Some have => hasAll have required
              end
          | None => true
          end in
        if negb annotationStep then (false, None)
        else
          (* Check required labels *)
          let labelStep : bool :=
            match selLabels selector with
            | Some required =>
                match Labels (nsMeta ns) with
                | None => false
                | Some have => hasAll have required
                end
            | None => true
            end in
          if negb labelStep then (false, None) else (true, None)
    end.

(** A [for k, v := range source] loop storing every entry into [result];
    ranging over a nil map does nothing. *)
Definition copyInto (source : option strmap) (result : strmap) : strmap :=
  match source with
  | Some m => map_fold (fun k v acc => <[k := v]> acc) result m
  | None => result
  end.

(** MergeMaps merges two string maps, with values from the second map
    taking precedence. *)
Definition MergeMaps (map1 map2 : option strmap) : strmap :=
  let result : strmap := ∅ in
  (* Copy from first map *)
  let result := copyInto map1 result in
  (* Override with second map *)
  copyInto map2 result.

(** CopyMap creates a deep copy of a string map.  Returns nil if the
    original map is nil. *)
Definition CopyMap (original : option strmap) : option strmap :=
  match original with
  | None => None
  | Some _ => Some (copyInto original ∅)
  end.

(** MapContainsAll checks if the target map contains all key-value pairs
    from the required map. *)
Definition MapContainsAll (target required : option strmap) : bool :=
  match required with
  | None => true
  | Some required =>
      match target with
      | None => (size required =? 0)%nat
      | Some target => hasAll target required
      end
  end.

(** SliceContains checks if a string slice contains the given string. *)
Fixpoint SliceContains (slice : list string) (item : string) : bool :=
  match slice with
  | [] => false
  | s :: rest => if bool_decide (s = item) then true else SliceContains rest item
  end.

(** The loop of RemoveFromSlice, [result] being the slice built so far. *)
Fixpoint removeLoop (slice : list string) (item : string) (result : list string)
    : list string :=
  match slice with
  | [] => result
  | s :: rest =>
      removeLoop rest item (if bool_decide (s <> item) then result ++ [s] else result)
  end.

(** RemoveFromSlice removes all occurrences of an item from a string slice. *)
Definition RemoveFromSlice (slice : list string) (item : string) : list string :=
  removeLoop slice item [].

(** The loop of UniqueSlice; [seen[item]] on a [map[string]bool] is false
    for a key that is not there. *)
Fixpoint uniqueLoop (slice : list string) (seen : gmap string bool)
    (result : list string) : list string :=
  match slice with
  | [] => result
  | item :: rest =>
      if negb (default false (seen !! item))
      then uniqueLoop rest (<[item := true]> seen) (result ++ [item])
      else uniqueLoop rest seen result
  end.

(** UniqueSlice returns a new slice with duplicate strings removed. *)
Definition UniqueSlice (slice : list string) : list string :=
  uniqueLoop slice ∅ [].

End utils.

(** ** Package text/template, restricted to the fragment the operator's
    templates use: literal text, actions [{{ cmd }}] and
    [{{if cmd}} .. {{else}} .. {{end}}] blocks, where a command is a field
    chain [.A.B.C], a string or boolean constant, or a call of a registered
    function on such arguments.  Lexing and parsing stay with the library
    ([Parse]); the parse tree and its execution are written out, following
    exec.go: [evalField] on structs and maps, the [missingkey] option,
    truth of a value, printing of a value. *)

Module texttemplate.

Inductive Arg :=
  | AField (chain : list string)
  | AString (s : string)
  | ABool (b : bool).

Inductive Cmd :=
  | CArg (a : Arg)
  | CCall (fn : string) (args : list Arg).

Inductive Template :=
  | TEnd
  | TText (s : string) (rest : Template)
  | TAction (c : Cmd) (rest : Template)
  | TIf (c : Cmd) (thenT elseT : Template) (rest : Template).

(** Values seen by the executor (reflect.Value of the context). *)
Inductive Value :=
  | VString (s : string)
  | VBool (b : bool)
  | VMap (m : option strmap)
  | VStruct (ty : string) (fields : list (string * Value))
  | VNoValue.

(** [Option("missingkey=...")] *)
Inductive MissingKey := mapInvalid | mapZeroValue | mapError.

Class Lib := {
  (** [template.New(name).Funcs(funcs).Parse(text)]; [funcs] are the names
      of the registered functions. *)
  Parse : list string -> string -> error + Template;
  (** fmt's rendering of a map or struct value. *)
  SprintComposite : Value -> string;
}.

Fixpoint assoc (name : string) (fields : list (string * Value)) : option Value :=
  match fields with
  | [] => None
  | (n, v) :: rest => if bool_decide (n = name) then Some v else assoc name rest
  end.

Definition mapGet (m : option strmap) (key : string) : option string :=
  match m with
  | Some m => m !! key
  | None => None
  end.

Definition evalField (opt : MissingKey) (receiver : Value) (fieldName : string)
    : error + Value :=
  match receiver with
  | VStruct ty fields =>
      match assoc fieldName fields with
      | Some v => inr v
      | None => inl (ErrorNew ("can't evaluate field " +:+ fieldName +:+ " in type " +:+ ty))
      end
  | VMap m =>
      match mapGet m fieldName with
      | Some s => inr (VString s)
      | None =>
          match opt with
          | mapInvalid => inr VNoValue
          | mapZeroValue => inr (VString "")
          | mapError => inl (ErrorNew ("map has no entry for key " +:+ fieldName))
          end
      end
  | VString _ => inl (ErrorNew ("can't evaluate field " +:+ fieldName +:+ " in type string"))
  | VBool _ => inl (ErrorNew ("can't evaluate field " +:+ fieldName +:+ " in type bool"))
  | VNoValue =>
      match opt with
      | mapError => inl (ErrorNew ("nil data; no entry for key " +:+ fieldName))
      | _ => inr VNoValue
      end
  end.

Fixpoint evalChain (opt : MissingKey) (receiver : Value) (chain : list string)
    : error + Value :=
  match chain with
  | [] => inr receiver
  | f :: rest =>
      match evalField opt receiver f with
      | inl e => inl e
      | inr v => evalChain opt v rest
      end
  end.

Definition evalArg (opt : MissingKey) (dot : Value) (a : Arg) : error + Value :=
  match a with
  | AField chain => evalChain opt dot chain
  | AString s => inr (VString s)
  | ABool b => inr (VBool b)
  end.

Fixpoint evalArgs (opt : MissingKey) (dot : Value) (args : list Arg)
    : error + list Value :=
  match args with
  | [] => inr []
  | a :: rest =>
      match evalArg opt dot a with
      | inl e => inl e
      | inr v =>
          match evalArgs opt dot rest with
          | inl e => inl e
          | inr vs => inr (v :: vs)
          end
      end
  end.

(** A registered function applied to evaluated arguments; an unknown name,
    a wrong number of arguments or a wrong argument type is an execution
    error. *)
Definition FuncMap := string -> option (list Value -> error + Value).

Definition evalCmd (funcs : FuncMap) (opt : MissingKey) (dot : Value) (c : Cmd)
    : error + Value :=
  match c with
  | CArg a => evalArg opt dot a
  | CCall fn args =>
      match funcs fn with
      | None => inl (ErrorNew (fn +:+ " is not a defined function"))
      | Some f =>
          match evalArgs opt dot args with
          | inl e => inl e
          | inr vs => f vs
          end
      end
  end.

(** text/template's [IsTrue]. *)
Definition isTrue (v : Value) : bool :=
  match v with
  | VString s => negb (bool_decide (s = ""))
  | VBool b => b
  | VMap (Some m) => negb (bool_decide (m = ∅))
  | VMap None => false
  | VStruct _ _ => true
  | VNoValue => false
  end.

Definition printValue `{Lib} (v : Value) : string :=
  match v with
  | VString s => s
  | VBool true => "true"
  | VBool false => "false"
  | VNoValue => "<no value>"
  | VMap _ | VStruct _ _ => SprintComposite v
  end.

(** [Execute]: the output written so far is dropped by the callers when an
    error is returned, so only the error is kept. *)
Fixpoint Execute `{Lib} (funcs : FuncMap) (opt : MissingKey) (t : Template) (dot : Value)
    : error + string :=
  match t with
  | TEnd => inr ""
  | TText s rest =>
      match Execute funcs opt rest dot with
      | inl e => inl e
      | inr out => inr (s +:+ out)
      end
  | TAction c rest =>
      match evalCmd funcs opt dot c with
      | inl e => inl e
      | inr v =>
          match Execute funcs opt rest dot with
          | inl e => inl e
          | inr out => inr (printValue v +:+ out)
          end
      end
  | TIf c thenT elseT rest =>
      match evalCmd funcs opt dot c with
      | inl e => inl e
      | inr v =>
          match Execute funcs opt (if isTrue v then thenT else elseT) dot with
          | inl e => inl e
          | inr body =>
              match Execute funcs opt rest dot with
              | inl e => inl e
              | inr out => inr (body +:+ out)
              end
          end
      end
  end.

(** *** Which field chains a template mentions, and which it evaluates *)






(** A chain is defined on a value when every step names an existing struct
    field or a present map key. *)
Fixpoint definedIn (v : Value) (chain : list string) : bool :=
  match chain with
  | [] => true
  | f :: rest =>
      match v with
      | VStruct _ fields =>
          match assoc f fields with
          | Some v' => definedIn v' rest
          | None => false
          end
      | VMap m =>
          match mapGet m f with
          | Some s => definedIn (VString s) rest
          | None => false
          end
      | _ => false
      end
  end.

End texttemplate.

(** ** Package template (the operator's engine) *)

Module template.
Import texttemplate.

Record NamespaceContext := {
  ncName : string;
  ncLabels : option strmap;
  ncAnnotations : option strmap;
}.

Record CRDContext := { crdName : string; crdNamespace : string }.

Record NamingContext := { nPrefix : string; nSuffix : string; nSeparator : string }.

Record ConfigContext := { ccNaming : NamingContext }.

Record TemplateContext := {
  tcNamespace : NamespaceContext;
  tcCRD : CRDContext;
  tcConfig : ConfigContext;
  tcCustomVars : option strmap;
}.

(** The context as the executor sees it through reflection. *)
Definition contextValue (ctx : TemplateContext) : Value :=
  VStruct "template.TemplateContext"
    [ ("Namespace", VStruct "template.NamespaceContext"
         [ ("Name", VString (ncName (tcNamespace ctx)));
           ("Labels", VMap (ncLabels (tcNamespace ctx)));
           ("Annotations", VMap (ncAnnotations (tcNamespace ctx))) ]);
      ("CRD", VStruct "template.CRDContext"
         [ ("Name", VString (crdName (tcCRD ctx)));
           ("Namespace", VString (crdNamespace (tcCRD ctx))) ]);
      ("Config", VStruct "template.ConfigContext"
         [ ("Naming", VStruct "template.NamingContext"
              [ ("Prefix", VString (nPrefix (ccNaming (tcConfig ctx))));
                ("Suffix", VString (nSuffix (ccNaming (tcConfig ctx))));
                ("Separator", VString (nSeparator (ccNaming (tcConfig ctx)))) ]) ]);
      ("CustomVars", VMap (tcCustomVars ctx)) ].

(** The three helper functions of [NewEngine]'s funcMap. *)
Definition fnDefault (args : list Value) : error + Value :=
  match args with
  | [defaultVal; val] =>
      match val with
      | VNoValue => inr defaultVal
      | VString "" => inr defaultVal
      | _ => inr val
      end
  | _ => inl (ErrorNew "wrong number of args for default: want 2")
  end.

Definition fnHasKey (args : list Value) : error + Value :=
  match args with
  | [VMap m; VString key] =>
      match m with
      | None => inr (VBool false)
      | Some m => inr (VBool (bool_decide (is_Some (m !! key))))
      end
  | [_; _] => inl (ErrorNew "wrong type for value in call to hasKey")
  | _ => inl (ErrorNew "wrong number of args for hasKey: want 2")
  end.

Definition fnGetOrDefault (args : list Value) : error + Value :=
  match args with
  | [VMap m; VString key; VString defaultVal] =>
      match m with
      | None => inr (VString defaultVal)
      | Some m =>
          match m !! key with
          | Some val => inr (VString val)
          | None => inr (VString defaultVal)
          end
      end
  | [_; _; _] => inl (ErrorNew "wrong type for value in call to getOrDefault")
  | _ => inl (ErrorNew "wrong number of args for getOrDefault: want 3")
  end.

Definition funcMap : FuncMap := fun name =>
  if bool_decide (name = "default") then Some fnDefault
  else if bool_decide (name = "hasKey") then Some fnHasKey
  else if bool_decide (name = "getOrDefault") then Some fnGetOrDefault
  else None.

Definition funcNames : list string := ["default"; "hasKey"; "getOrDefault"].

(** BuildContext creates a template context from a namespace and config *)
Definition BuildContext (ns : Namespace) (config : NamespaceRBACConfig) : TemplateContext :=
  let labels := match Labels (nsMeta ns) with None => Some ∅ | l => l end in
  let annotations := match Annotations (nsMeta ns) with None => Some ∅ | a => a end in
  let naming0 := {| nPrefix := ""; nSuffix := ""; nSeparator := "-" |} in
  let naming :=
    match specConfig (Spec config) with
    | Some c =>
        match Naming c with
        | Some n =>
            {| nPrefix := if bool_decide (Prefix n <> "") then Prefix n else nPrefix naming0;
               nSuffix := if bool_decide (Suffix n <> "") then Suffix n else nSuffix naming0;
               nSeparator := if bool_decide (Separator n <> "") then Separator n
                             else nSeparator naming0 |}
        | None => naming0
        end
    | None => naming0
    end in
  let customVars :=
    match specConfig (Spec config) with
    | Some c =>
        match TemplateVariables c with
        | Some vars => Some vars
        | None => Some ∅
        end
    | None => Some ∅
    end in
  {| tcNamespace := {| ncName := Name (nsMeta ns); ncLabels := labels;
                       ncAnnotations := annotations |};
     tcCRD := {| crdName := Name (cfgMeta config);
                 crdNamespace := Namespace_ (cfgMeta config) |};
     tcConfig := {| ccNaming := naming |};
     tcCustomVars := customVars |}.

(** ProcessTemplate processes a template string with the given context *)
Definition ProcessTemplate `{Lib} (templateStr : string) (ctx : TemplateContext)
    : string * option error :=
  match Parse funcNames templateStr with
  | inl err => ("", Some (Errorf "failed to parse template: " err))
  | inr tmpl =>
      match Execute funcMap mapError tmpl (contextValue ctx) with
      | inl err => ("", Some (Errorf "failed to execute template: " err))
      | inr out => (out, None)
      end
  end.

(** The [for key, value := range templateMap] loop of ProcessMap over the
    entries in the order [map_to_list] gives them (Go leaves the order
    open; it only decides which failing key is reported). *)
Fixpoint processEntries `{Lib} (entries : list (string * string)) (ctx : TemplateContext)
    (result : strmap) : option strmap * option error :=
  match entries with
  | [] => (Some result, None)
  | (key, value) :: rest =>
      match ProcessTemplate value ctx with
      | (_, Some err) =>
          (None, Some (Errorf ("failed to process template for key " +:+ key +:+ ": ") err))
      | (processed, None) => processEntries rest ctx (<[key := processed]> result)
      end
  end.

(** ProcessMap processes a map of template strings *)
Definition ProcessMap `{Lib} (templateMap : option strmap) (ctx : TemplateContext)
    : option strmap * option error :=
  match templateMap with
  | None => (None, None)
  | Some m => processEntries (map_to_list m) ctx ∅
  end.

(** ValidateTemplate validates a template string without executing it *)
Definition ValidateTemplate `{Lib} (templateStr : string) : option error :=
  match Parse funcNames templateStr with
  | inl err => Some err
  | inr _ => None
  end.

End template.

(** ** The cluster API client, the collaborators, and the event log *)

Module cluster.

Inductive Kind :=
  | KRole | KClusterRole | KRoleBinding | KClusterRoleBinding
  | KNamespace | KConfig.

#[global] Instance Kind_eq_dec : EqDecision Kind.
Proof. solve_decision. Defined.

Definition obj (k : Kind) : Type :=
  match k with
  | KRole => Role
  | KClusterRole => ClusterRole
  | KRoleBinding => RoleBinding
  | KClusterRoleBinding => ClusterRoleBinding
  | KNamespace => Namespace
  | KConfig => NamespaceRBACConfig
  end.

Inductive Object :=
  | ORole (r : Role)
  | OClusterRole (r : ClusterRole)
  | ORoleBinding (b : RoleBinding)
  | OClusterRoleBinding (b : ClusterRoleBinding)
  | ONamespace (n : Namespace)
  | OConfig (c : NamespaceRBACConfig).

Definition toObject (k : Kind) : obj k -> Object :=
  match k with
  | KRole => ORole
  | KClusterRole => OClusterRole
  | KRoleBinding => ORoleBinding
  | KClusterRoleBinding => OClusterRoleBinding
  | KNamespace => ONamespace
  | KConfig => OConfig
  end.

Definition kindOf (o : Object) : Kind :=
  match o with
  | ORole _ => KRole
  | OClusterRole _ => KClusterRole
  | ORoleBinding _ => KRoleBinding
  | OClusterRoleBinding _ => KClusterRoleBinding
  | ONamespace _ => KNamespace
  | OConfig _ => KConfig
  end.

Definition metaOf (o : Object) : ObjectMeta :=
  match o with
  | ORole r => roleMeta r
  | OClusterRole r => crMeta r
  | ORoleBinding b => rbMeta b
  | OClusterRoleBinding b => crbMeta b
  | ONamespace n => nsMeta n
  | OConfig c => cfgMeta c
  end.

Record NamespacedName := { nnNamespace : string; nnName : string }.

(** controller-runtime's [client.Client] (with the scheme it carries) and
    the clock.  Every call may change the cluster: other writers are
    active between two calls of the operator. *)
Class Client (W : Type) := {
  clGet : forall k : Kind, NamespacedName -> W -> (error + obj k) * W;
  clCreate : forall k : Kind, obj k -> W -> option error * W;
  clUpdate : forall k : Kind, obj k -> W -> option error * W;
  clStatusUpdate : NamespaceRBACConfig -> W -> option error * W;
  clList : forall k : Kind, W -> (error + list (obj k)) * W;
  clNow : W -> nat * W;
  (** [apiutil.GVKForObject(ns, scheme)]: fails when the scheme does not
      know the Namespace type. *)
  clGVKForNamespace : option error;
}.

Inductive Metric :=
  | RecordTemplateProcessing (config templateKind : string) (err : option error)
  | RecordResourceOperation (config resourceKind op : string) (err : option error)
  | UpdateManagedResources (config resourceKind ns : string) (count : Z)
  | RecordConflictResolution (config strategy resourceKind : string)
  | RecordCleanup (resourceKind : string) (err : option error)
  | SetOperatorHealth (component : string) (healthy : bool)
  | RecordReconciliation (name kind : string) (err : option error)
  | UpdateManagedNamespaces (config : string) (count : nat)
  | ActiveConfigsSet (count : nat).

Inductive HealthCall :=
  | SetReady (ready : bool)
  | SetHealthy (healthy : bool)
  | RecordReconcile.

Inductive Event :=
  | EvGet (k : Kind) (key : NamespacedName) (err : option error)
  | EvCreate (o : Object) (err : option error)
  | EvUpdate (o : Object) (err : option error)
  | EvStatusUpdate (c : NamespaceRBACConfig) (err : option error)
  | EvList (k : Kind) (err : option error)
  | EvNow
  | EvMetric (m : Metric)
  | EvHealth (h : HealthCall)
  | EvLogInfo (msg : string) (arg : string)
  | EvLogError (msg : string) (arg : string) (err : error).

Definition isWrite (e : Event) : bool :=
  match e with
  | EvCreate _ _ | EvUpdate _ _ | EvStatusUpdate _ _ => true
  | _ => false
  end.

Definition isGet (k : Kind) (e : Event) : bool :=
  match e with
  | EvGet k' _ _ => bool_decide (k' = k)
  | _ => false
  end.

Definition isUpdate (e : Event) : bool :=
  match e with
  | EvUpdate _ _ => true
  | _ => false
  end.

Definition isCreate (e : Event) : bool :=
  match e with
  | EvCreate _ _ => true
  | _ => false
  end.

Definition isListOf (k : Kind) (e : Event) : bool :=
  match e with
  | EvList k' _ => bool_decide (k' = k)
  | _ => false
  end.

(** The object a write sends to the API server. *)
Definition written (e : Event) : option Object :=
  match e with
  | EvCreate o _ | EvUpdate o _ => Some o
  | _ => None
  end.

(** *** State and log passing *)

Definition M (W A : Type) : Type := W -> A * W * list Event.

Definition ret {W A} (a : A) : M W A := fun w => (a, w, []).

Definition bind {W A B} (m : M W A) (f : A -> M W B) : M W B :=
  fun w =>
    let '(a, w1, l1) := m w in
    let '(b, w2, l2) := f a w1 in
    (b, w2, l1 ++ l2).

Definition emit {W} (e : Event) : M W unit := fun w => (tt, w, [e]).

Definition result {W A} (r : A * W * list Event) : A := r.1.1.
Definition world {W A} (r : A * W * list Event) : W := r.1.2.
Definition log {W A} (r : A * W * list Event) : list Event := r.2.

Definition errOf {A} (r : error + A) : option error :=
  match r with
  | inl e => Some e
  | inr _ => None
  end.

Section Calls.
Context {W : Type} `{Client W}.

Definition Get (k : Kind) (key : NamespacedName) : M W (error + obj k) :=
  fun w => let '(r, w') := clGet k key w in (r, w', [EvGet k key (errOf r)]).

Definition Create (k : Kind) (o : obj k) : M W (option error) :=
  fun w => let '(err, w') := clCreate k o w in (err, w', [EvCreate (toObject k o) err]).

Definition Update (k : Kind) (o : obj k) : M W (option error) :=
  fun w => let '(err, w') := clUpdate k o w in (err, w', [EvUpdate (toObject k o) err]).

Definition StatusUpdate (c : NamespaceRBACConfig) : M W (option error) :=
  fun w => let '(err, w') := clStatusUpdate c w in (err, w', [EvStatusUpdate c err]).

Definition List (k : Kind) : M W (error + list (obj k)) :=
  fun w => let '(r, w') := clList k w in (r, w', [EvList k (errOf r)]).

Definition Now : M W nat :=
  fun w => let '(t, w') := clNow w in (t, w', [EvNow]).
End Calls.

Definition metric {W} (m : Metric) : M W unit := emit (EvMetric m).
Definition health {W} (h : HealthCall) : M W unit := emit (EvHealth h).
Definition logInfo {W} (msg arg : string) : M W unit := emit (EvLogInfo msg arg).
Definition logError {W} (err : error) (msg arg : string) : M W unit :=
  emit (EvLogError msg arg err).

End cluster.

Import cluster.

Declare Scope m_scope.
Delimit Scope m_scope with M.
Notation "x <- c1 ;; c2" := (bind c1 (fun x => c2))
  (at level 100, c1 at next level, right associativity) : m_scope.
Notation "e1 ;; e2" := (bind e1 (fun _ => e2))
  (at level 100, right associativity) : m_scope.
Open Scope m_scope.

(** ** Package time, as far as the health checker uses it *)

Module gotime.
Local Open Scope Z_scope.

(** A wall-clock instant, in nanoseconds since the Unix epoch. *)
Definition Time : Type := Z.

(** [time.Duration]: a signed 64-bit count of nanoseconds. *)
Definition Duration : Type := Z.

Definition Second : Duration := 1000000000.
Definition Minute : Duration := 60 * Second.
Definition minDuration : Duration := - 2 ^ 63.
Definition maxDuration : Duration := 2 ^ 63 - 1.

(** [t.Unix()]: the whole seconds since the epoch. *)
Definition Unix (t : Time) : Z := t `div` Second.

(** [time.Unix(sec, 0)] *)
Definition FromUnix (sec : Z) : Time := sec * Second.

(** [t.Sub(u)]: the difference, saturated to the range of Duration.
    [time.Since(u)] is [time.Now().Sub(u)]. *)
Definition Sub (t u : Time) : Duration :=
  let d := t - u in
  if d <? minDuration then minDuration
  else if maxDuration <? d then maxDuration
  else d.

End gotime.

(** ** Package health (the checker behind the liveness and readiness
    probes).  The three fields are written and read with sync/atomic; the
    methods are given for one caller at a time.  A method that calls
    [time.Now()] takes the instant it reads as [now]. *)

Module health.
Import gotime.
Local Open Scope Z_scope.

(** Checker tracks operator health state *)
Record Checker := {
  ready : Z;
  healthy : Z;
  lastReconcile : Z;
}.

(** NewChecker creates a health checker *)
Definition NewChecker (now : Time) : Checker :=
  {| healthy := 1;  (* Start healthy *)
     ready := 0;    (* Not ready until initialized *)
     lastReconcile := Unix now |}.

Definition StoreReady (v : Z) : M Checker unit :=
  fun c => (tt, {| ready := v; healthy := healthy c;
                   lastReconcile := lastReconcile c |}, []).

Definition StoreHealthy (v : Z) : M Checker unit :=
  fun c => (tt, {| ready := ready c; healthy := v;
                   lastReconcile := lastReconcile c |}, []).

Definition StoreLastReconcile (v : Z) : M Checker unit :=
  fun c => (tt, {| ready := ready c; healthy := healthy c;
                   lastReconcile := v |}, []).

Definition LoadReady : M Checker Z := fun c => (ready c, c, []).
Definition LoadHealthy : M Checker Z := fun c => (healthy c, c, []).
Definition LoadLastReconcile : M Checker Z := fun c => (lastReconcile c, c, []).

(** SetReady marks operator as ready/not ready *)
Definition SetReady (ready : bool) : M Checker unit :=
  if ready then
    StoreReady 1 ;;
    logInfo "Operator marked as ready" ""
  else
    StoreReady 0 ;;
    logInfo "Operator marked as not ready" "".

(** SetHealthy marks operator as healthy/unhealthy *)
Definition SetHealthy (now : Time) (healthy : bool) : M Checker unit :=
  (if healthy then
     StoreHealthy 1 ;;
     StoreLastReconcile (Unix now)
   else
     StoreHealthy 0 ;;
     logInfo "Operator marked as unhealthy" "") ;;
  metric (SetOperatorHealth "health_checker" healthy).

(** RecordReconcile updates last successful reconcile time *)
Definition RecordReconcile (now : Time) : M Checker unit :=
  StoreLastReconcile (Unix now) ;;
  StoreHealthy 1 ;;
  metric (SetOperatorHealth "health_checker" true).

(** IsReady returns readiness state *)
Definition IsReady : M Checker bool :=
  v <- LoadReady ;;
  ret (bool_decide (v = 1)).

(** IsHealthy returns health state *)
Definition IsHealthy (now : Time) : M Checker bool :=
  h <- LoadHealthy ;;
  if bool_decide (h = 0) then ret false
  else
    (* Consider unhealthy if no reconcile activity for 5 minutes *)
    lastReconcile <- LoadLastReconcile ;;
    if 5 * Minute <? Sub now (FromUnix lastReconcile) then
      logInfo "No reconcile activity detected, marking unhealthy" "" ;;
      ret false
    else ret true.

(** LivenessCheck implements healthz check *)
Definition LivenessCheck (now : Time) : M Checker (option error) :=
  isHealthy <- IsHealthy now ;;
  if negb isHealthy then ret (Some (ErrorNew "operator unhealthy"))
  else ret None.

(** ReadinessCheck implements readyz check; [||] evaluates IsHealthy only
    when IsReady holds. *)
Definition ReadinessCheck (now : Time) : M Checker (option error) :=
  isReady <- IsReady ;;
  failed <- (if negb isReady then ret true
             else isHealthy <- IsHealthy now ;; ret (negb isHealthy)) ;;
  if failed then ret (Some (ErrorNew "operator not ready"))
  else ret None.

End health.

(** ** Package rbac (the manager) *)

Module rbac.
Import template.

(** OwnerLabel marks resources as owned by the operator *)
Definition OwnerLabel : string := "rbac.operator.io/owned-by".
(** ConfigLabel references the creating NamespaceRBACConfig *)
Definition ConfigLabel : string := "rbac.operator.io/config".
(** NamespaceLabel references the target namespace for cluster-scoped resources *)
Definition NamespaceLabel : string := "rbac.operator.io/namespace".

(** mergeLabels merges template labels with operator-managed labels *)
Definition mergeLabels (templateLabels : option strmap) (config : NamespaceRBACConfig)
    (targetNamespace : string) : strmap :=
  let labels : strmap := ∅ in
  (* Add template labels *)
  let labels := match templateLabels with
                | Some tl => map_fold (fun k v acc => <[k := v]> acc) labels tl
                | None => labels
                end in
  (* Add operator-managed labels *)
  let labels := <[OwnerLabel := "namespace-rbac-operator"]> labels in
  let labels := <[ConfigLabel := Name (cfgMeta config)]> labels in
  if bool_decide (targetNamespace <> "")
  then <[NamespaceLabel := targetNamespace]> labels
  else labels.

(** mergeRules merges RBAC policy rules: the existing rules, then the new. *)
Definition mergeRules (existing new : list PolicyRule) : list PolicyRule :=
  let result := existing in
  result ++ new.

(** [fmt.Sprintf("%s/%s/%s/%s", Kind, APIGroup, Name, Namespace)] *)
Definition subjectKey (subject : Subject) : string :=
  sKind subject +:+ "/" +:+ sAPIGroup subject +:+ "/" +:+ sName subject +:+ "/"
  +:+ sNamespace subject.

(** One [for _, subject := range ...] loop filling [subjectMap]. *)
Definition addSubjects (subjectMap : gmap string Subject) (subjects : list Subject)
    : gmap string Subject :=
  foldl (fun m subject => <[subjectKey subject := subject]> m) subjectMap subjects.

Definition mergeSubjectsMap (existing new : list Subject) : gmap string Subject :=
  addSubjects (addSubjects ∅ existing) new.

(** mergeSubjects merges RBAC subjects.  The result slice is filled by
    ranging over [subjectMap], whose iteration order Go leaves open; the
    function enumerates the map in [map_to_list] order, and
    [mergeSubjectsResult] admits every order. *)
Definition mergeSubjects (existing new : list Subject) : list Subject :=
  (map_to_list (mergeSubjectsMap existing new)).*2.

Definition mergeSubjectsResult (existing new result : list Subject) : Prop :=
  result ≡ₚ mergeSubjects existing new.

(** The merge strategy in force: the config override, else [merge]. *)
Definition effectiveMergeStrategy (config : NamespaceRBACConfig) : MergeStrategy :=
  match specConfig (Spec config) with
  | Some c =>
      match cfgMergeStrategy c with
      | Some s => s
      | None => MergeStrategyMerge
      end
  | None => MergeStrategyMerge
  end.

Definition setRoleRV (role : Role) (rv : string) : Role :=
  {| roleMeta := withResourceVersion (roleMeta role) rv; roleRules := roleRules role |}.
Definition setRoleRules (role : Role) (rules : list PolicyRule) : Role :=
  {| roleMeta := roleMeta role; roleRules := rules |}.
Definition setClusterRoleRV (r : ClusterRole) (rv : string) : ClusterRole :=
  {| crMeta := withResourceVersion (crMeta r) rv; crRules := crRules r |}.
Definition setClusterRoleRules (r : ClusterRole) (rules : list PolicyRule) : ClusterRole :=
  {| crMeta := crMeta r; crRules := rules |}.
Definition setRoleBindingRV (b : RoleBinding) (rv : string) : RoleBinding :=
  {| rbMeta := withResourceVersion (rbMeta b) rv; rbRoleRef := rbRoleRef b;
     rbSubjects := rbSubjects b |}.
Definition setRoleBindingSubjects (b : RoleBinding) (s : list Subject) : RoleBinding :=
  {| rbMeta := rbMeta b; rbRoleRef := rbRoleRef b; rbSubjects := s |}.
Definition setClusterRoleBindingRV (b : ClusterRoleBinding) (rv : string)
    : ClusterRoleBinding :=
  {| crbMeta := withResourceVersion (crbMeta b) rv; crbRoleRef := crbRoleRef b;
     crbSubjects := crbSubjects b |}.
Definition setClusterRoleBindingSubjects (b : ClusterRoleBinding) (s : list Subject)
    : ClusterRoleBinding :=
  {| crbMeta := crbMeta b; crbRoleRef := crbRoleRef b; crbSubjects := s |}.

Definition keyOf (meta : ObjectMeta) : NamespacedName :=
  {| nnNamespace := Namespace_ meta; nnName := Name meta |}.
Definition clusterKeyOf (meta : ObjectMeta) : NamespacedName :=
  {| nnNamespace := ""; nnName := Name meta |}.

Section Manager.
Context {W : Type} `{Client W} `{texttemplate.Lib}.

(** createOrUpdateRole creates or updates a Role based on merge strategy.
    [attempts] counts the iterations left of [for i := 0; i < retry; i++];
    [role] is the caller's object, which the merge branch overwrites. *)
Fixpoint createOrUpdateRoleLoop (attempts : nat) (role : Role)
    (config : NamespaceRBACConfig) : M W (option error) :=
  match attempts with
  | O => ret (Some (ErrorNew "failed to update role after 3 retries due to conflicts"))
  | S attempts' =>
      r <- Get KRole (keyOf (roleMeta role)) ;;
      match r with
      | inl err =>
          if IsNotFound (Some err) then Create KRole role
          else ret (Some err)
      | inr existing =>
          (* Handle merge strategy *)
          let mergeStrategy := effectiveMergeStrategy config in
          if bool_decide (mergeStrategy = MergeStrategyIgnore) then
            metric (RecordConflictResolution (Name (cfgMeta config)) "ignore" "role") ;;
            ret None
          else if bool_decide (mergeStrategy = MergeStrategyReplace) then
            metric (RecordConflictResolution (Name (cfgMeta config)) "replace" "role") ;;
            let role := setRoleRV role (ResourceVersion (roleMeta existing)) in
            err <- Update KRole role ;;
            if negb (IsConflict err) then ret err
            else createOrUpdateRoleLoop attempts' role config
          else if bool_decide (mergeStrategy = MergeStrategyMerge) then
            metric (RecordConflictResolution (Name (cfgMeta config)) "merge" "role") ;;
            let role := setRoleRules role (mergeRules (roleRules existing) (roleRules role)) in
            let role := setRoleRV role (ResourceVersion (roleMeta existing)) in
            err <- Update KRole role ;;
            if negb (IsConflict err) then ret err
            else createOrUpdateRoleLoop attempts' role config
          else ret (Some (ErrorNew ("unknown merge strategy: " +:+ mergeStrategy)))
      end
  end.

Definition createOrUpdateRole (role : Role) (config : NamespaceRBACConfig)
    : M W (option error) :=
  let retry := 3%nat in
  createOrUpdateRoleLoop retry role config.

(** createOrUpdateClusterRole creates or updates a ClusterRole *)
Definition createOrUpdateClusterRole (clusterRole : ClusterRole)
    (config : NamespaceRBACConfig) : M W (option error) :=
  r <- Get KClusterRole (clusterKeyOf (crMeta clusterRole)) ;;
  match r with
  | inl err =>
      if IsNotFound (Some err) then Create KClusterRole clusterRole
      else ret (Some err)
  | inr existing =>
      let mergeStrategy := effectiveMergeStrategy config in
      if bool_decide (mergeStrategy = MergeStrategyIgnore) then
        metric (RecordConflictResolution (Name (cfgMeta config)) "ignore" "clusterrole") ;;
        ret None
      else if bool_decide (mergeStrategy = MergeStrategyReplace) then
        metric (RecordConflictResolution (Name (cfgMeta config)) "replace" "clusterrole") ;;
        let clusterRole :=
          setClusterRoleRV clusterRole (ResourceVersion (crMeta existing)) in
        Update KClusterRole clusterRole
      else if bool_decide (mergeStrategy = MergeStrategyMerge) then
        metric (RecordConflictResolution (Name (cfgMeta config)) "merge" "clusterrole") ;;
        let clusterRole :=
          setClusterRoleRules clusterRole
            (mergeRules (crRules existing) (crRules clusterRole)) in
        let clusterRole :=
          setClusterRoleRV clusterRole (ResourceVersion (crMeta existing)) in
        Update KClusterRole clusterRole
      else ret (Some (ErrorNew ("unknown merge strategy: " +:+ mergeStrategy)))
  end.

(** createOrUpdateRoleBinding creates or updates a RoleBinding *)
Fixpoint createOrUpdateRoleBindingLoop (attempts : nat) (roleBinding : RoleBinding)
    (config : NamespaceRBACConfig) : M W (option error) :=
  match attempts with
  | O => ret (Some (ErrorNew
                "failed to update rolebinding after 3 retries due to conflicts"))
  | S attempts' =>
      r <- Get KRoleBinding (keyOf (rbMeta roleBinding)) ;;
      match r with
      | inl err =>
          if IsNotFound (Some err) then Create KRoleBinding roleBinding
          else ret (Some err)
      | inr existing =>
          let mergeStrategy := effectiveMergeStrategy config in
          if bool_decide (mergeStrategy = MergeStrategyIgnore) then
            metric (RecordConflictResolution (Name (cfgMeta config)) "ignore" "rolebinding") ;;
            ret None
          else if bool_decide (mergeStrategy = MergeStrategyReplace) then
            metric (RecordConflictResolution (Name (cfgMeta config)) "replace" "rolebinding") ;;
            let roleBinding :=
              setRoleBindingRV roleBinding (ResourceVersion (rbMeta existing)) in
            err <- Update KRoleBinding roleBinding ;;
            if negb (IsConflict err) then ret err
            else createOrUpdateRoleBindingLoop attempts' roleBinding config
          else if bool_decide (mergeStrategy = MergeStrategyMerge) then
            metric (RecordConflictResolution (Name (cfgMeta config)) "merge" "rolebinding") ;;
            let roleBinding :=
              setRoleBindingSubjects roleBinding
                (mergeSubjects (rbSubjects existing) (rbSubjects roleBinding)) in
            let roleBinding :=
              setRoleBindingRV roleBinding (ResourceVersion (rbMeta existing)) in
            err <- Update KRoleBinding roleBinding ;;
            if negb (IsConflict err) then ret err
            else createOrUpdateRoleBindingLoop attempts' roleBinding config
          else ret (Some (ErrorNew ("unknown merge strategy: " +:+ mergeStrategy)))
      end
  end.

Definition createOrUpdateRoleBinding (roleBinding : RoleBinding)
    (config : NamespaceRBACConfig) : M W (option error) :=
  let retry := 3%nat in
  createOrUpdateRoleBindingLoop retry roleBinding config.

(** createOrUpdateClusterRoleBinding creates or updates a ClusterRoleBinding *)
Definition createOrUpdateClusterRoleBinding (clusterRoleBinding : ClusterRoleBinding)
    (config : NamespaceRBACConfig) : M W (option error) :=
  r <- Get KClusterRoleBinding (clusterKeyOf (crbMeta clusterRoleBinding)) ;;
  match r with
  | inl err =>
      if IsNotFound (Some err) then Create KClusterRoleBinding clusterRoleBinding
      else ret (Some err)
  | inr existing =>
      let mergeStrategy := effectiveMergeStrategy config in
      if bool_decide (mergeStrategy = MergeStrategyIgnore) then
        metric (RecordConflictResolution (Name (cfgMeta config)) "ignore"
                  "clusterrolebinding") ;;
        ret None
      else if bool_decide (mergeStrategy = MergeStrategyReplace) then
        metric (RecordConflictResolution (Name (cfgMeta config)) "replace"
                  "clusterrolebinding") ;;
        let clusterRoleBinding :=
          setClusterRoleBindingRV clusterRoleBinding
            (ResourceVersion (crbMeta existing)) in
        Update KClusterRoleBinding clusterRoleBinding
      else if bool_decide (mergeStrategy = MergeStrategyMerge) then
        metric (RecordConflictResolution (Name (cfgMeta config)) "merge"
                  "clusterrolebinding") ;;
        let clusterRoleBinding :=
          setClusterRoleBindingSubjects clusterRoleBinding
            (mergeSubjects (crbSubjects existing) (crbSubjects clusterRoleBinding)) in
        let clusterRoleBinding :=
          setClusterRoleBindingRV clusterRoleBinding
            (ResourceVersion (crbMeta existing)) in
        Update KClusterRoleBinding clusterRoleBinding
      else ret (Some (ErrorNew ("unknown merge strategy: " +:+ mergeStrategy)))
  end.

(** controllerutil.SetControllerReference with a Namespace as owner: the
    owner is cluster-scoped, so the scope check passes; the scheme must
    know the owner's type; an object already controlled by another owner
    is refused; otherwise the reference is upserted. *)
Definition SetControllerReference (owner : Namespace) (controlled : ObjectMeta)
    : error + ObjectMeta :=
  match clGVKForNamespace with
  | Some err => inl err
  | None =>
      let ref := {| orKind := "Namespace"; orName := Name (nsMeta owner);
                    orController := true |} in
      let same (r : OwnerReference) :=
        bool_decide (orKind r = orKind ref) && bool_decide (orName r = orName ref) in
      match find orController (OwnerReferences controlled) with
      | Some existing =>
          if same existing
          then inr (withOwnerReferences controlled
                      (map (fun r => if same r then ref else r)
                           (OwnerReferences controlled)))
          else inl (ErrorNew "Object is already owned by another controller")
      | None =>
          if existsb same (OwnerReferences controlled)
          then inr (withOwnerReferences controlled
                      (map (fun r => if same r then ref else r)
                           (OwnerReferences controlled)))
          else inr (withOwnerReferences controlled (OwnerReferences controlled ++ [ref]))
      end
  end.

Definition newMeta (name namespace : string) (labels : strmap)
    (annotations : option strmap) : ObjectMeta :=
  {| Name := name; Namespace_ := namespace; Labels := Some labels;
     Annotations := annotations; ResourceVersion := ""; Generation := 0;
     Finalizers := []; DeletionTimestamp := None; OwnerReferences := [] |}.

(** applyRole creates or updates a Role *)
Definition applyRole (ns : Namespace) (config : NamespaceRBACConfig)
    (template : RoleTemplate) (templateCtx : TemplateContext) : M W (option error) :=
  let cfgName := Name (cfgMeta config) in
  let nsName := Name (nsMeta ns) in
  let '(name, err) := ProcessTemplate (rtName template) templateCtx in
  metric (RecordTemplateProcessing cfgName "role_name" err) ;;
  match err with
  | Some e => ret (Some (Errorf "failed to process role name template: " e))
  | None =>
  let '(labels, err) := ProcessMap (rtLabels template) templateCtx in
  metric (RecordTemplateProcessing cfgName "role_labels" err) ;;
  match err with
  | Some e => ret (Some (Errorf "failed to process role labels: " e))
  | None =>
  let '(annotations, err) := ProcessMap (rtAnnotations template) templateCtx in
  metric (RecordTemplateProcessing cfgName "role_annotations" err) ;;
  match err with
  | Some e => ret (Some (Errorf "failed to process role annotations: " e))
  | None =>
  let role :=
    {| roleMeta := newMeta name nsName (mergeLabels labels config nsName) annotations;
       roleRules := rtRules template |} in
  (* Set owner reference to the namespace *)
  match SetControllerReference ns (roleMeta role) with
  | inl e => ret (Some (Errorf "failed to set owner reference: " e))
  | inr meta =>
  let role := {| roleMeta := meta; roleRules := roleRules role |} in
  err <- createOrUpdateRole role config ;;
  (* Record resource operation *)
  operation <-
    match err with
    | None =>
        r <- Get KRole (keyOf (roleMeta role)) ;;
        ret (match r with inr _ => "update" | inl _ => "create" end)
    | Some _ => ret "create"
    end ;;
  metric (RecordResourceOperation cfgName "role" operation err) ;;
  (* Update managed resources count *)
  match err with
  | None => metric (UpdateManagedResources cfgName "role" nsName 1)
  | Some _ => ret tt
  end ;;
  ret err
  end end end end.

(** applyClusterRole creates or updates a ClusterRole *)
Definition applyClusterRole (ns : Namespace) (config : NamespaceRBACConfig)
    (template : ClusterRoleTemplate) (templateCtx : TemplateContext)
    : M W (option error) :=
  let cfgName := Name (cfgMeta config) in
  let nsName := Name (nsMeta ns) in
  let '(name, err) := ProcessTemplate (crtName template) templateCtx in
  metric (RecordTemplateProcessing cfgName "clusterrole_name" err) ;;
  match err with
  | Some e => ret (Some (Errorf "failed to process cluster role name template: " e))
  | None =>
  match ProcessMap (crtLabels template) templateCtx with
  | (_, Some e) => ret (Some (Errorf "failed to process cluster role labels: " e))
  | (labels, None) =>
  match ProcessMap (crtAnnotations template) templateCtx with
  | (_, Some e) =>
      ret (Some (Errorf "failed to process cluster role annotations: " e))
  | (annotations, None) =>
  let clusterRole :=
    {| crMeta := newMeta name "" (mergeLabels labels config nsName) annotations;
       crRules := crtRules template |} in
  err <- createOrUpdateClusterRole clusterRole config ;;
  metric (RecordResourceOperation cfgName "clusterrole" "create" err) ;;
  match err with
  | None => metric (UpdateManagedResources cfgName "clusterrole" "" 1)
  | Some _ => ret tt
  end ;;
  ret err
  end end end.

(** processSubjects processes template variables in subjects *)
Fixpoint processSubjects (subjects : list Subject) (templateCtx : TemplateContext)
    : list Subject * option error :=
  match subjects with
  | [] => ([], None)
  | subject :: rest =>
      match ProcessTemplate (sName subject) templateCtx with
      | (_, Some e) => ([], Some (Errorf "failed to process subject name: " e))
      | (processedName, None) =>
          let processedNamespace : string * option error :=
            (* Process namespace for ServiceAccount subjects *)
            if bool_decide (sNamespace subject <> "")
            then ProcessTemplate (sNamespace subject) templateCtx
            else ("", None) in
          match processedNamespace with
          | (_, Some e) =>
              ([], Some (Errorf "failed to process subject namespace: " e))
          | (namespace, None) =>
              let processed :=
                {| sKind := sKind subject; sAPIGroup := sAPIGroup subject;
                   sName := processedName; sNamespace := namespace |} in
              match processSubjects rest templateCtx with
              | (_, Some e) => ([], Some e)
              | (result, None) => (processed :: result, None)
              end
          end
      end
  end.

(** applyRoleBinding creates or updates a RoleBinding *)
Definition applyRoleBinding (ns : Namespace) (config : NamespaceRBACConfig)
    (template : RoleBindingTemplate) (templateCtx : TemplateContext)
    : M W (option error) :=
  let cfgName := Name (cfgMeta config) in
  let nsName := Name (nsMeta ns) in
  let '(name, err) := ProcessTemplate (rbtName template) templateCtx in
  metric (RecordTemplateProcessing cfgName "rolebinding_name" err) ;;
  match err with
  | Some e => ret (Some (Errorf "failed to process role binding name template: " e))
  | None =>
  match ProcessMap (rbtLabels template) templateCtx with
  | (_, Some e) => ret (Some (Errorf "failed to process role binding labels: " e))
  | (labels, None) =>
  match ProcessMap (rbtAnnotations template) templateCtx with
  | (_, Some e) =>
      ret (Some (Errorf "failed to process role binding annotations: " e))
  | (annotations, None) =>
  (* Process role reference name *)
  match ProcessTemplate (rrName (rbtRoleRef template)) templateCtx with
  | (_, Some e) => ret (Some (Errorf "failed to process role ref name template: " e))
  | (roleRefName, None) =>
  (* Process subjects *)
  match processSubjects (rbtSubjects template) templateCtx with
  | (_, Some e) => ret (Some (Errorf "failed to process subjects: " e))
  | (subjects, None) =>
  let roleBinding :=
    {| rbMeta := newMeta name nsName (mergeLabels labels config nsName) annotations;
       rbRoleRef := {| rrAPIGroup := rrAPIGroup (rbtRoleRef template);
                       rrKind := rrKind (rbtRoleRef template);
                       rrName := roleRefName |};
       rbSubjects := subjects |} in
  (* Set owner reference to the namespace *)
  match SetControllerReference ns (rbMeta roleBinding) with
  | inl e => ret (Some (Errorf "failed to set owner reference: " e))
  | inr meta =>
  let roleBinding :=
    {| rbMeta := meta; rbRoleRef := rbRoleRef roleBinding;
       rbSubjects := rbSubjects roleBinding |} in
  err <- createOrUpdateRoleBinding roleBinding config ;;
  metric (RecordResourceOperation cfgName "rolebinding" "create" err) ;;
  match err with
  | None => metric (UpdateManagedResources cfgName "rolebinding" nsName 1)
  | Some _ => ret tt
  end ;;
  ret err
  end end end end end end.

(** applyClusterRoleBinding creates or updates a ClusterRoleBinding *)
Definition applyClusterRoleBinding (ns : Namespace) (config : NamespaceRBACConfig)
    (template : ClusterRoleBindingTemplate) (templateCtx : TemplateContext)
    : M W (option error) :=
  let cfgName := Name (cfgMeta config) in
  let nsName := Name (nsMeta ns) in
  let '(name, err) := ProcessTemplate (crbtName template) templateCtx in
  metric (RecordTemplateProcessing cfgName "clusterrolebinding_name" err) ;;
  match err with
  | Some e =>
      ret (Some (Errorf "failed to process cluster role binding name template: " e))
  | None =>
  match ProcessMap (crbtLabels template) templateCtx with
  | (_, Some e) =>
      ret (Some (Errorf "failed to process cluster role binding labels: " e))
  | (labels, None) =>
  match ProcessMap (crbtAnnotations template) templateCtx with
  | (_, Some e) =>
      ret (Some (Errorf "failed to process cluster role binding annotations: " e))
  | (annotations, None) =>
  (* Process role reference name *)
  match ProcessTemplate (rrName (crbtRoleRef template)) templateCtx with
  | (_, Some e) => ret (Some (Errorf "failed to process role ref name template: " e))
  | (roleRefName, None) =>
  (* Process subjects *)
  match processSubjects (crbtSubjects template) templateCtx with
  | (_, Some e) => ret (Some (Errorf "failed to process subjects: " e))
  | (subjects, None) =>
  let clusterRoleBinding :=
    {| crbMeta := newMeta name "" (mergeLabels labels config nsName) annotations;
       crbRoleRef := {| rrAPIGroup := rrAPIGroup (crbtRoleRef template);
                        rrKind := rrKind (crbtRoleRef template);
                        rrName := roleRefName |};
       crbSubjects := subjects |} in
  err <- createOrUpdateClusterRoleBinding clusterRoleBinding config ;;
  metric (RecordResourceOperation cfgName "clusterrolebinding" "create" err) ;;
  match err with
  | None => metric (UpdateManagedResources cfgName "clusterrolebinding" "" 1)
  | Some _ => ret tt
  end ;;
  ret err
  end end end end end.

(** A [for _, t := range templates] loop that returns the wrapped error
    of the first template that fails. *)
Fixpoint applyEach {A : Type} (apply : A -> M W (option error))
    (wrap : A -> error -> error) (templates : list A) : M W (option error) :=
  match templates with
  | [] => ret None
  | t :: rest =>
      err <- apply t ;;
      match err with
      | Some e => ret (Some (wrap t e))
      | None => applyEach apply wrap rest
      end
  end.

(** ApplyRBACForNamespace applies all RBAC templates from a config to a
    specific namespace: roles, cluster roles, role bindings and cluster
    role bindings in sequence. *)
Definition ApplyRBACForNamespace (ns : Namespace) (config : NamespaceRBACConfig)
    : M W (option error) :=
  let templateCtx := BuildContext ns config in
  let templates := specTemplates (Spec config) in
  (* Apply Roles *)
  err <- applyEach (fun t => applyRole ns config t templateCtx)
           (fun t e => Errorf ("failed to apply role " +:+ rtName t +:+ ": ") e)
           (Roles templates) ;;
  match err with
  | Some e => ret (Some e)
  | None =>
  (* Apply ClusterRoles *)
  err <- applyEach (fun t => applyClusterRole ns config t templateCtx)
           (fun t e => Errorf ("failed to apply cluster role " +:+ crtName t +:+ ": ") e)
           (ClusterRoles templates) ;;
  match err with
  | Some e => ret (Some e)
  | None =>
  (* Apply RoleBindings *)
  err <- applyEach (fun t => applyRoleBinding ns config t templateCtx)
           (fun t e => Errorf ("failed to apply role binding " +:+ rbtName t +:+ ": ") e)
           (RoleBindings templates) ;;
  match err with
  | Some e => ret (Some e)
  | None =>
  (* Apply ClusterRoleBindings *)
  err <- applyEach (fun t => applyClusterRoleBinding ns config t templateCtx)
           (fun t e =>
              Errorf ("failed to apply cluster role binding " +:+ crbtName t +:+ ": ") e)
           (ClusterRoleBindings templates) ;;
  match err with
  | Some e => ret (Some e)
  | None => ret None
  end end end end.

Definition cleanupDisabled (config : NamespaceRBACConfig) : bool :=
  match specConfig (Spec config) with
  | None => true
  | Some c =>
      match Cleanup c with
      | None => true
      | Some cl =>
          match DeleteOrphanedClusterResources cl with
          | None => true
          | Some b => negb b
          end
      end
  end.

(** cleanupClusterRoleIfOrphaned removes a ClusterRole if no namespaces
    reference it; the reference counting is a TODO in the source, both
    paths return nil. *)
Definition cleanupClusterRoleIfOrphaned (nameTemplate namespaceName : string)
    (config : NamespaceRBACConfig) : M W (option error) :=
  if cleanupDisabled config then ret None (* Cleanup disabled *)
  else ret None.

Definition cleanupClusterRoleBindingIfOrphaned (nameTemplate namespaceName : string)
    (config : NamespaceRBACConfig) : M W (option error) :=
  if cleanupDisabled config then ret None
  else ret None.

Fixpoint cleanupEach (cleanup : string -> M W (option error)) (resourceKind : string)
    (wrapPrefix : string) (names : list string) : M W (option error) :=
  match names with
  | [] => ret None
  | name :: rest =>
      err <- cleanup name ;;
      metric (RecordCleanup resourceKind err) ;;
      match err with
      | Some e => ret (Some (Errorf wrapPrefix e))
      | None => cleanupEach cleanup resourceKind wrapPrefix rest
      end
  end.

(** CleanupRBACForNamespace removes RBAC resources for a deleted namespace *)
Definition CleanupRBACForNamespace (namespaceName : string)
    (config : NamespaceRBACConfig) : M W (option error) :=
  let templates := specTemplates (Spec config) in
  (* Cleanup ClusterRoles if no other namespaces reference them *)
  err <- cleanupEach
           (fun name => cleanupClusterRoleIfOrphaned name namespaceName config)
           "clusterrole" "failed to cleanup cluster role: "
           (map crtName (ClusterRoles templates)) ;;
  match err with
  | Some e => ret (Some e)
  | None =>
  (* Cleanup ClusterRoleBindings if no other namespaces reference them *)
  err <- cleanupEach
           (fun name => cleanupClusterRoleBindingIfOrphaned name namespaceName config)
           "clusterrolebinding" "failed to cleanup cluster role binding: "
           (map crbtName (ClusterRoleBindings templates)) ;;
  match err with
  | Some e => ret (Some e)
  | None => ret None
  end end.

End Manager.

End rbac.

(** ** controller-runtime's reconcile result *)

Record Result := { Requeue : bool; RequeueAfter : nat }.

Definition emptyResult : Result := {| Requeue := false; RequeueAfter := 0 |}.

(** ** Package namespacerbacconfig (the declaration reconciler) *)

Module namespacerbacconfig.

Definition ConditionTypeReady : string := "Ready".
Definition ConditionTypeProgressing : string := "Progressing".
Definition ConditionTypeDegraded : string := "Degraded".

Definition ReasonReconcileSuccess : string := "ReconcileSuccess".
Definition ReasonReconcileError : string := "ReconcileError".
Definition ReasonValidationError : string := "ValidationError".

Definition FinalizerName : string := "namespacerbacconfig.rbac.operator.io/finalizer".

(** [time.Minute], in seconds. *)
Definition Minute : nat := 60.

Definition ContainsFinalizer (config : NamespaceRBACConfig) (finalizer : string) : bool :=
  existsb (fun f => bool_decide (f = finalizer)) (Finalizers (cfgMeta config)).

Definition withMeta (config : NamespaceRBACConfig) (meta : ObjectMeta)
    : NamespaceRBACConfig :=
  {| cfgMeta := meta; Spec := Spec config; Status := Status config |}.

Definition withStatus (config : NamespaceRBACConfig) (status : NamespaceRBACConfigStatus)
    : NamespaceRBACConfig :=
  {| cfgMeta := cfgMeta config; Spec := Spec config; Status := status |}.

Definition withConditions (config : NamespaceRBACConfig) (conds : list Condition)
    : NamespaceRBACConfig :=
  withStatus config
    {| Conditions := conds;
       AppliedNamespaces := AppliedNamespaces (Status config);
       ObservedGeneration := ObservedGeneration (Status config) |}.

Definition AddFinalizer (config : NamespaceRBACConfig) (finalizer : string)
    : NamespaceRBACConfig :=
  if ContainsFinalizer config finalizer then config
  else withMeta config
         (withFinalizers (cfgMeta config) (Finalizers (cfgMeta config) ++ [finalizer])).

Definition RemoveFinalizer (config : NamespaceRBACConfig) (finalizer : string)
    : NamespaceRBACConfig :=
  withMeta config
    (withFinalizers (cfgMeta config)
       (filter (fun f => f <> finalizer) (Finalizers (cfgMeta config)))).

(** The first condition of the given type, with its index. *)
Fixpoint findCondition (conds : list Condition) (conditionType : string)
    : option (nat * Condition) :=
  match conds with
  | [] => None
  | c :: rest =>
      if bool_decide (condType c = conditionType) then Some (0%nat, c)
      else match findCondition rest conditionType with
           | Some (i, c') => Some (S i, c')
           | None => None
           end
  end.


Section Reconciler.
Context {W : Type} `{Client W} `{texttemplate.Lib} `{RegexpLib}.

(** setCondition sets a condition on the NamespaceRBACConfig status *)
Definition setCondition (config : NamespaceRBACConfig) (conditionType : string)
    (status : ConditionStatus) (reason message : string) : M W NamespaceRBACConfig :=
  now <- Now ;;
  let condition (t : nat) :=
    {| condType := conditionType; condStatus := status; LastTransitionTime := t;
       condReason := reason; condMessage := message |} in
  (* Find existing condition *)
  match findCondition (Conditions (Status config)) conditionType with
  | Some (i, existing) =>
      (* Update existing condition *)
      t <- (if bool_decide (condStatus existing <> status) then Now
            else ret (LastTransitionTime existing)) ;;
      ret (withConditions config (<[i := condition t]> (Conditions (Status config))))
  | None =>
      (* Add new condition *)
      ret (withConditions config (Conditions (Status config) ++ [condition now]))
  end.

(** validateConfig validates the NamespaceRBACConfig *)
Definition validateConfig (config : NamespaceRBACConfig) : option error :=
  let templates := specTemplates (Spec config) in
  let regexErr : option error :=
    match NameRegex (specSelector (Spec config)) with
    | Some re =>
        match Compile re with
        | inl err => Some (Errorf "invalid nameRegex: " err)
        | inr _ => None
        end
    | None => None
    end in
  match regexErr with
  | Some e => Some e
  | None =>
      if (length (Roles templates) =? 0)%nat
         && (length (ClusterRoles templates) =? 0)%nat
         && (length (RoleBindings templates) =? 0)%nat
         && (length (ClusterRoleBindings templates) =? 0)%nat
      then Some (ErrorNew "at least one RBAC template must be specified")
      else None
  end.

(** The [for _, ns := range namespaceList.Items] loop of reconcileRBAC. *)
Fixpoint reconcileNamespaces (config : NamespaceRBACConfig) (items : list Namespace)
    (appliedNamespaces : list string) : M W (list string * option error) :=
  match items with
  | [] => ret (appliedNamespaces, None)
  | ns :: rest =>
      match utils.NamespaceMatches ns (specSelector (Spec config)) with
      | (_, Some err) =>
          logError err "Failed to check namespace match" (Name (nsMeta ns)) ;;
          reconcileNamespaces config rest appliedNamespaces
      | (true, None) =>
          logInfo "Applying RBAC to namespace" (Name (nsMeta ns)) ;;
          err <- rbac.ApplyRBACForNamespace ns config ;;
          match err with
          | Some e =>
              ret ([], Some (Errorf ("failed to apply RBAC for namespace "
                                     +:+ Name (nsMeta ns) +:+ ": ") e))
          | None =>
              reconcileNamespaces config rest (appliedNamespaces ++ [Name (nsMeta ns)])
          end
      | (false, None) => reconcileNamespaces config rest appliedNamespaces
      end
  end.

(** reconcileRBAC reconciles RBAC for all matching namespaces *)
Definition reconcileRBAC (config : NamespaceRBACConfig)
    : M W (list string * option error) :=
  r <- List KNamespace ;;
  match r with
  | inl err => ret ([], Some (Errorf "failed to list namespaces: " err))
  | inr items =>
      res <- reconcileNamespaces config items [] ;;
      match res with
      | (_, Some e) => ret ([], Some e)
      | (appliedNamespaces, None) =>
          logInfo "Successfully reconciled RBAC" "" ;;
          ret (appliedNamespaces, None)
      end
  end.

(** cleanupRBAC cleans up RBAC resources created by this config *)
Fixpoint cleanupNamespaces (config : NamespaceRBACConfig) (names : list string)
    : M W unit :=
  match names with
  | [] => ret tt
  | namespaceName :: rest =>
      logInfo "Cleaning up RBAC for namespace" namespaceName ;;
      err <- rbac.CleanupRBACForNamespace namespaceName config ;;
      match err with
      | Some e => logError e "Failed to cleanup RBAC for namespace" namespaceName
      | None => ret tt
      end ;;
      cleanupNamespaces config rest
  end.

Definition cleanupRBAC (config : NamespaceRBACConfig) : M W (option error) :=
  cleanupNamespaces config (AppliedNamespaces (Status config)) ;;
  ret None.

(** handleDeletion handles the deletion of a NamespaceRBACConfig *)
Definition handleDeletion (config : NamespaceRBACConfig) : M W (Result * option error) :=
  if ContainsFinalizer config FinalizerName then
    logInfo "Cleaning up RBAC resources for deleted NamespaceRBACConfig" "" ;;
    err <- cleanupRBAC config ;;
    match err with
    | Some e =>
        logError e "Failed to cleanup RBAC resources" "" ;;
        ret ({| Requeue := false; RequeueAfter := Minute |}, Some e)
    | None =>
        (* Remove finalizer *)
        let config := RemoveFinalizer config FinalizerName in
        err <- Update KConfig config ;;
        match err with
        | Some e =>
            logError e "Failed to remove finalizer" "" ;;
            ret (emptyResult, Some e)
        | None => ret (emptyResult, None)
        end
    end
  else ret (emptyResult, None).

(** updateStatus updates the status of the NamespaceRBACConfig *)
Definition updateStatus (config : NamespaceRBACConfig) : M W (Result * option error) :=
  err <- StatusUpdate config ;;
  match err with
  | Some e =>
      if IsNotFound (Some e) then
        logInfo "NamespaceRBACConfig was deleted during reconciliation, skipping status update" "" ;;
        ret (emptyResult, None)
      else
        logError e "Failed to update NamespaceRBACConfig status" "" ;;
        ret (emptyResult, Some e)
  | None => ret (emptyResult, None)
  end.

(** The part of Reconcile after the fetch.  The third component is the
    value of the function-level [err] variable when the function returns,
    which the deferred metrics call reads. *)
Definition reconcileFetched (config : NamespaceRBACConfig)
    : M W (Result * option error * option error) :=
  (* Handle deletion *)
  if bool_decide (DeletionTimestamp (cfgMeta config) <> None) then
    r <- handleDeletion config ;;
    ret (r, None)
  (* Add finalizer if not present *)
  else if negb (ContainsFinalizer config FinalizerName) then
    let config := AddFinalizer config FinalizerName in
    err <- Update KConfig config ;;
    match err with
    | Some e =>
        logError e "Failed to add finalizer" "" ;;
        ret (emptyResult, Some e, None)
    | None => ret ({| Requeue := true; RequeueAfter := 0 |}, None, None)
    end
  else
    (* Set progressing condition *)
    config <- setCondition config ConditionTypeProgressing ConditionTrue
                "Reconciling" "Reconciling NamespaceRBACConfig" ;;
    (* Validate the configuration *)
    match validateConfig config with
    | Some e =>
        logError e "Invalid configuration" "" ;;
        health (SetHealthy false) ;;
        metric (SetOperatorHealth "reconciler" false) ;;
        config <- setCondition config ConditionTypeDegraded ConditionTrue
                    ReasonValidationError (Error e) ;;
        config <- setCondition config ConditionTypeReady ConditionFalse
                    ReasonValidationError "Configuration validation failed" ;;
        config <- setCondition config ConditionTypeProgressing ConditionFalse
                    ReasonValidationError "Validation failed" ;;
        r <- updateStatus config ;;
        ret (r, None)
    | None =>
        (* Reconcile RBAC for all matching namespaces *)
        res <- reconcileRBAC config ;;
        match res with
        | (_, Some e) =>
            logError e "Failed to reconcile RBAC" "" ;;
            health (SetHealthy false) ;;
            metric (SetOperatorHealth "reconciler" false) ;;
            config <- setCondition config ConditionTypeDegraded ConditionTrue
                        ReasonReconcileError (Error e) ;;
            config <- setCondition config ConditionTypeReady ConditionFalse
                        ReasonReconcileError "RBAC reconciliation failed" ;;
            config <- setCondition config ConditionTypeProgressing ConditionFalse
                        ReasonReconcileError "Reconciliation failed" ;;
            r <- updateStatus config ;;
            ret (r, Some e)
        | (appliedNamespaces, None) =>
            (* Update status *)
            let config :=
              withStatus config
                {| Conditions := Conditions (Status config);
                   AppliedNamespaces := appliedNamespaces;
                   ObservedGeneration := Generation (cfgMeta config) |} in
            (* Update managed namespaces metric *)
            metric (UpdateManagedNamespaces (Name (cfgMeta config))
                      (length appliedNamespaces)) ;;
            (* Set success conditions *)
            health RecordReconcile ;;
            metric (SetOperatorHealth "reconciler" true) ;;
            config <- setCondition config ConditionTypeReady ConditionTrue
                        ReasonReconcileSuccess "Successfully reconciled RBAC" ;;
            config <- setCondition config ConditionTypeProgressing ConditionFalse
                        ReasonReconcileSuccess "Reconciliation completed" ;;
            config <- setCondition config ConditionTypeDegraded ConditionFalse
                        ReasonReconcileSuccess "No issues detected" ;;
            r <- updateStatus config ;;
            ret (r, None)
        end
    end.

(** The deferred function of Reconcile: active configs count and the
    reconciliation metric. *)
Definition reconcileDeferred (config : NamespaceRBACConfig) (err : option error)
    : M W unit :=
  r <- List KConfig ;;
  match r with
  | inr items => metric (ActiveConfigsSet (length items))
  | inl _ => ret tt
  end ;;
  metric (RecordReconciliation (Name (cfgMeta config)) "NamespaceRBACConfig" err).

(** Reconcile is part of the main kubernetes reconciliation loop *)
Definition Reconcile (req : NamespacedName) : M W (Result * option error) :=
  (* Fetch the NamespaceRBACConfig instance *)
  r <- Get KConfig req ;;
  match r with
  | inl err =>
      if IsNotFound (Some err) then
        logInfo "NamespaceRBACConfig resource not found. Ignoring since object must be deleted" "" ;;
        ret (emptyResult, None)
      else
        logError err "Failed to get NamespaceRBACConfig" "" ;;
        health (SetHealthy false) ;;
        metric (SetOperatorHealth "reconciler" false) ;;
        metric (RecordReconciliation (nnName req) "NamespaceRBACConfig" (Some err)) ;;
        ret (emptyResult, Some err)
  | inr config =>
      res <- reconcileFetched config ;;
      reconcileDeferred config res.2 ;;
      ret res.1
  end.

(** The [for _, config := range configList.Items] loop of
    mapNamespaceToConfigs. *)
Fixpoint mapConfigs (namespace : Namespace) (items : list NamespaceRBACConfig)
    (requests : list NamespacedName) : M W (list NamespacedName) :=
  match items with
  | [] => ret requests
  | config :: rest =>
      match utils.NamespaceMatches namespace (specSelector (Spec config)) with
      | (_, Some err) =>
          logError err "Failed to check namespace match" (Name (cfgMeta config)) ;;
          mapConfigs namespace rest requests
      | (true, None) =>
          mapConfigs namespace rest
            (requests ++ [{| nnNamespace := Namespace_ (cfgMeta config);
                             nnName := Name (cfgMeta config) |}])
      | (false, None) => mapConfigs namespace rest requests
      end
  end.

(** mapNamespaceToConfigs maps namespace events to NamespaceRBACConfig
    reconcile requests; [obj] is the object of the event, of any kind. *)
Definition mapNamespaceToConfigs (obj : Object) : M W (list NamespacedName) :=
  match obj with
  | ONamespace namespace =>
      (* List all NamespaceRBACConfigs *)
      r <- List KConfig ;;
      match r with
      | inl err =>
          logError err "Failed to list NamespaceRBACConfigs" "" ;;
          ret []
      | inr items =>
          (* Check which configs should be reconciled for this namespace *)
          mapConfigs namespace items []
      end
  | _ => ret []
  end.

End Reconciler.

End namespacerbacconfig.

(** ** Package namespace (the namespace reconciler) *)

Module namespace.

Section Reconciler.
Context {W : Type} `{Client W} `{texttemplate.Lib} `{RegexpLib}.

(** The body of the [for _, config := range configList.Items] loop of
    handleNamespaceCreateOrUpdate: match, then apply or clean up; an error
    is logged and the loop goes on. *)
Definition applyConfig (namespace : Namespace) (config : NamespaceRBACConfig)
    : M W unit :=
  match utils.NamespaceMatches namespace (specSelector (Spec config)) with
  | (_, Some err) =>
      logError err "Failed to check namespace match" (Name (cfgMeta config))
  | (true, None) =>
      logInfo "Applying RBAC for namespace" (Name (cfgMeta config)) ;;
      err <- rbac.ApplyRBACForNamespace namespace config ;;
      match err with
      | Some e => logError e "Failed to apply RBAC" (Name (cfgMeta config))
        (* Continue with other configs even if one fails *)
      | None => ret tt
      end
  | (false, None) =>
      (* If namespace no longer matches, clean up any previously created resources *)
      logInfo "Namespace no longer matches config, cleaning up" (Name (cfgMeta config)) ;;
      err <- rbac.CleanupRBACForNamespace (Name (nsMeta namespace)) config ;;
      match err with
      | Some e => logError e "Failed to cleanup RBAC" (Name (cfgMeta config))
        (* Continue with other configs even if one fails *)
      | None => ret tt
      end
  end.

Fixpoint applyConfigs (namespace : Namespace) (items : list NamespaceRBACConfig)
    : M W unit :=
  match items with
  | [] => ret tt
  | config :: rest =>
      applyConfig namespace config ;;
      applyConfigs namespace rest
  end.

(** handleNamespaceCreateOrUpdate handles namespace creation or update events *)
Definition handleNamespaceCreateOrUpdate (namespace : Namespace)
    : M W (Result * option error) :=
  logInfo "Processing namespace create/update event" "" ;;
  (* Get all NamespaceRBACConfigs *)
  r <- List KConfig ;;
  match r with
  | inl err =>
      logError err "Failed to list NamespaceRBACConfigs" "" ;;
      health (SetHealthy false) ;;
      ret (emptyResult, Some err)
  | inr items =>
      (* Apply RBAC for all matching configs *)
      applyConfigs namespace items ;;
      health RecordReconcile ;;
      ret (emptyResult, None)
  end.

(** The [for _, config := range configList.Items] loop of
    handleNamespaceDeletion. *)
Fixpoint cleanupConfigs (namespaceName : string) (items : list NamespaceRBACConfig)
    : M W unit :=
  match items with
  | [] => ret tt
  | config :: rest =>
      logInfo "Cleaning up RBAC for deleted namespace" (Name (cfgMeta config)) ;;
      err <- rbac.CleanupRBACForNamespace namespaceName config ;;
      match err with
      | Some e => logError e "Failed to cleanup RBAC" (Name (cfgMeta config))
      | None => ret tt
      end ;;
      cleanupConfigs namespaceName rest
  end.

(** handleNamespaceDeletion handles namespace deletion events *)
Definition handleNamespaceDeletion (namespaceName : string)
    : M W (Result * option error) :=
  logInfo "Processing namespace deletion event" "" ;;
  r <- List KConfig ;;
  match r with
  | inl err =>
      logError err "Failed to list NamespaceRBACConfigs" "" ;;
      health (SetHealthy false) ;;
      ret (emptyResult, Some err)
  | inr items =>
      cleanupConfigs namespaceName items ;;
      health RecordReconcile ;;
      ret (emptyResult, None)
  end.

(** Reconcile handles namespace events and applies/removes RBAC as needed *)
Definition Reconcile (req : NamespacedName) : M W (Result * option error) :=
  (* Fetch the namespace *)
  r <- Get KNamespace req ;;
  match r with
  | inl err =>
      if IsNotFound (Some err) then
        (* Namespace was deleted, handle cleanup *)
        logInfo "Namespace deleted, cleaning up RBAC resources" "" ;;
        handleNamespaceDeletion (nnName req)
      else
        logError err "Failed to get namespace" "" ;;
        health (SetHealthy false) ;;
        ret (emptyResult, Some err)
  | inr namespace =>
      (* Handle namespace creation/update *)
      handleNamespaceCreateOrUpdate namespace
  end.

End Reconciler.

End namespace.

(** ** Stand-ins for the libraries and the cluster, to run the operator
    on concrete inputs (the role of [fake.NewClientBuilder] in the
    repository's tests) *)

Module testing.
Import texttemplate.

(** *** regexp: the empty pattern and patterns of the form [^literal.*],
    as in the unit tests; every other pattern is refused with a compile
    error (as the library refuses ["["]). *)

Definition literalChar (c : ascii) : bool :=
  let n := nat_of_ascii c in
  ((97 <=? n) && (n <=? 122) || (48 <=? n) && (n <=? 57) || (n =? 45))%nat.

Fixpoint literalPrefix (s : string) : option string :=
  match s with
  | ".*" => Some ""
  | String.String c rest =>
      if literalChar c then
        match literalPrefix rest with
        | Some p => Some (String.String c p)
        | None => None
        end
      else None
  | EmptyString => None
  end.

#[export] Instance testRegexp : RegexpLib := {|
  Regexp := string;
  Compile pattern :=
    match pattern with
    | String.String c rest =>
        if bool_decide (c = "^"%char) then
          match literalPrefix rest with
          | Some p => inr p
          | None => inl (ErrorNew ("error parsing regexp: " +:+ pattern))
          end
        else inl (ErrorNew ("error parsing regexp: " +:+ pattern))
    | EmptyString => inr ""
    end;
  reMatchString re s := String.prefix re s;
|}.

(** *** text/template: a lexer and parser for the fragment *)

(** Splits at the first occurrence of the two-character delimiter. *)
Fixpoint splitDelim (d : ascii) (s : string) : option (string * string) :=
  match s with
  | EmptyString => None
  | String.String a rest =>
      match rest with
      | String.String b rest' =>
          if bool_decide (a = d) && bool_decide (b = d) then Some ("", rest')
          else match splitDelim d rest with
               | Some (before, after) => Some (String.String a before, after)
               | None => None
               end
      | EmptyString => None
      end
  end.

Inductive Item := IText (s : string) | IAction (body : string).

Fixpoint lex (fuel : nat) (s : string) : error + list Item :=
  match fuel with
  | O => inr []
  | S fuel' =>
      match splitDelim "{"%char s with
      | None => inr (if bool_decide (s = "") then [] else [IText s])
      | Some (before, after) =>
          match splitDelim "}"%char after with
          | None => inl (ErrorNew "template: unclosed action")
          | Some (body, rest) =>
              match lex fuel' rest with
              | inl e => inl e
              | inr items =>
                  inr ((if bool_decide (before = "") then [] else [IText before])
                       ++ IAction body :: items)
              end
          end
      end
  end.

Definition quoteChar : ascii := ascii_of_nat 34.

(** Words of an action, a quoted string being one word. *)
Fixpoint words (s : string) (cur : string) (inQuote : bool) : list string :=
  let flush (rest : list string) :=
    if bool_decide (cur = "") then rest else cur :: rest in
  match s with
  | EmptyString => flush []
  | String.String c rest =>
      if inQuote then
        words rest (cur +:+ String.String c "") (negb (bool_decide (c = quoteChar)))
      else if bool_decide (c = " "%char) then flush (words rest "" false)
      else words rest (cur +:+ String.String c "") (bool_decide (c = quoteChar))
  end.

Fixpoint splitDots (s : string) (cur : string) : list string :=
  match s with
  | EmptyString => [cur]
  | String.String c rest =>
      if bool_decide (c = "."%char) then cur :: splitDots rest ""
      else splitDots rest (cur +:+ String.String c "")
  end.

Fixpoint dropLast (s : string) : string :=
  match s with
  | EmptyString => ""
  | String.String c EmptyString => ""
  | String.String c rest => String.String c (dropLast rest)
  end.

Definition parseArg (w : string) : error + Arg :=
  match w with
  | String.String c rest =>
      if bool_decide (c = "."%char) then
        if bool_decide (rest = "") then inr (AField [])
        else
          let chain := splitDots rest "" in
          if existsb (fun f => bool_decide (f = "")) chain
          then inl (ErrorNew ("template: bad field " +:+ w))
          else inr (AField chain)
      else if bool_decide (c = quoteChar) then inr (AString (dropLast rest))
      else if bool_decide (w = "true") then inr (ABool true)
      else if bool_decide (w = "false") then inr (ABool false)
      else inl (ErrorNew ("template: unexpected " +:+ w))
  | EmptyString => inl (ErrorNew "template: missing value")
  end.

Fixpoint parseArgs (ws : list string) : error + list Arg :=
  match ws with
  | [] => inr []
  | w :: rest =>
      match parseArg w with
      | inl e => inl e
      | inr a =>
          match parseArgs rest with
          | inl e => inl e
          | inr args => inr (a :: args)
          end
      end
  end.

Definition isLetter (c : ascii) : bool :=
  let n := nat_of_ascii c in
  ((97 <=? n) && (n <=? 122) || (65 <=? n) && (n <=? 90))%nat.

Definition parseCmd (funcs : list string) (ws : list string) : error + Cmd :=
  match ws with
  | [] => inl (ErrorNew "template: missing value for command")
  | w :: rest =>
      let isIdent := match w with
                     | String.String c _ =>
                         isLetter c && negb (bool_decide (w = "true"))
                         && negb (bool_decide (w = "false"))
                     | EmptyString => false
                     end in
      if isIdent then
        if existsb (fun f => bool_decide (f = w)) funcs then
          match parseArgs rest with
          | inl e => inl e
          | inr args => inr (CCall w args)
          end
        else inl (ErrorNew ("template: function " +:+ w +:+ " not defined"))
      else
        match rest with
        | [] =>
            match parseArg w with
            | inl e => inl e
            | inr a => inr (CArg a)
            end
        | _ => inl (ErrorNew "template: unexpected argument")
        end
  end.

Inductive Tok := KText (s : string) | KCmd (c : Cmd) | KIf (c : Cmd) | KElse | KEnd.

Fixpoint tokens (funcs : list string) (items : list Item) : error + list Tok :=
  match items with
  | [] => inr []
  | item :: rest =>
      let tok : error + Tok :=
        match item with
        | IText s => inr (KText s)
        | IAction body =>
            match words body "" false with
            | "if" :: ws =>
                match parseCmd funcs ws with
                | inl e => inl e
                | inr c => inr (KIf c)
                end
            | ["else"] => inr KElse
            | ["end"] => inr KEnd
            | ws =>
                match parseCmd funcs ws with
                | inl e => inl e
                | inr c => inr (KCmd c)
                end
            end
        end in
      match tok with
      | inl e => inl e
      | inr t =>
          match tokens funcs rest with
          | inl e => inl e
          | inr ts => inr (t :: ts)
          end
      end
  end.

(** Builds the tree up to the next [{{else}}], [{{end}}] or the end of
    the input, and returns what is left, starting at that token. *)
Fixpoint build (fuel : nat) (toks : list Tok) : error + (Template * list Tok) :=
  match fuel with
  | O => inl (ErrorNew "template: too deep")
  | S fuel' =>
      match toks with
      | [] => inr (TEnd, [])
      | KText s :: r =>
          match build fuel' r with
          | inl e => inl e
          | inr (t, rem) => inr (TText s t, rem)
          end
      | KCmd c :: r =>
          match build fuel' r with
          | inl e => inl e
          | inr (t, rem) => inr (TAction c t, rem)
          end
      | KIf c :: r =>
          match build fuel' r with
          | inl e => inl e
          | inr (thenT, KElse :: r2) =>
              match build fuel' r2 with
              | inl e => inl e
              | inr (elseT, KEnd :: r3) =>
                  match build fuel' r3 with
                  | inl e => inl e
                  | inr (rest, rem) => inr (TIf c thenT elseT rest, rem)
                  end
              | inr _ => inl (ErrorNew "template: unexpected EOF")
              end
          | inr (thenT, KEnd :: r3) =>
              match build fuel' r3 with
              | inl e => inl e
              | inr (rest, rem) => inr (TIf c thenT TEnd rest, rem)
              end
          | inr _ => inl (ErrorNew "template: unexpected EOF")
          end
      | KElse :: _ | KEnd :: _ => inr (TEnd, toks)
      end
  end.

Definition parseFragment (funcs : list string) (text : string) : error + Template :=
  match lex (S (String.length text)) text with
  | inl e => inl e
  | inr items =>
      match tokens funcs items with
      | inl e => inl e
      | inr toks =>
          match build (S (length toks)) toks with
          | inl e => inl e
          | inr (t, []) => inr t
          | inr (_, _ :: _) => inl (ErrorNew "template: unexpected {{end}} or {{else}}")
          end
      end
  end.

#[export] Instance testTemplates : Lib := {|
  Parse := parseFragment;
  SprintComposite := fun _ => "map[...]";
|}.

(** *** The cluster: objects by kind, namespace and name, a number of
    updates that will lose against a concurrent writer, and a clock. *)

Definition kindName (k : Kind) : string :=
  match k with
  | KRole => "Role"
  | KClusterRole => "ClusterRole"
  | KRoleBinding => "RoleBinding"
  | KClusterRoleBinding => "ClusterRoleBinding"
  | KNamespace => "Namespace"
  | KConfig => "NamespaceRBACConfig"
  end.

Definition fromObject (k : Kind) : Object -> option (obj k) :=
  match k with
  | KRole => fun o => match o with ORole r => Some r | _ => None end
  | KClusterRole => fun o => match o with OClusterRole r => Some r | _ => None end
  | KRoleBinding => fun o => match o with ORoleBinding r => Some r | _ => None end
  | KClusterRoleBinding =>
      fun o => match o with OClusterRoleBinding r => Some r | _ => None end
  | KNamespace => fun o => match o with ONamespace r => Some r | _ => None end
  | KConfig => fun o => match o with OConfig r => Some r | _ => None end
  end.

Definition setObjectRV (o : Object) (rv : string) : Object :=
  match o with
  | ORole r => ORole (rbac.setRoleRV r rv)
  | OClusterRole r => OClusterRole (rbac.setClusterRoleRV r rv)
  | ORoleBinding b => ORoleBinding (rbac.setRoleBindingRV b rv)
  | OClusterRoleBinding b => OClusterRoleBinding (rbac.setClusterRoleBindingRV b rv)
  | ONamespace n => ONamespace {| nsMeta := withResourceVersion (nsMeta n) rv |}
  | OConfig c => OConfig (namespacerbacconfig.withMeta c (withResourceVersion (cfgMeta c) rv))
  end.

Definition StoreKey : Type := string * (string * string).

Definition storeKey (k : Kind) (key : NamespacedName) : StoreKey :=
  (kindName k, (nnNamespace key, nnName key)).

Definition objectKey (o : Object) : StoreKey :=
  (kindName (kindOf o), (Namespace_ (metaOf o), Name (metaOf o))).

Record Store := {
  objects : gmap StoreKey Object;
  conflicts : nat;
  clock : nat;
}.

Definition setObjects (s : Store) (objs : gmap StoreKey Object) : Store :=
  {| objects := objs; conflicts := conflicts s; clock := clock s |}.

Definition storeGet (k : Kind) (key : NamespacedName) (s : Store) : (error + obj k) * Store :=
  match objects s !! storeKey k key with
  | Some o =>
      match fromObject k o with
      | Some x => (inr x, s)
      | None => (inl (APIStatus StatusReasonNotFound "not found"), s)
      end
  | None => (inl (APIStatus StatusReasonNotFound "not found"), s)
  end.

Definition storeCreate (k : Kind) (x : obj k) (s : Store) : option error * Store :=
  let o := toObject k x in
  match objects s !! objectKey o with
  | Some _ => (Some (APIStatus StatusReasonAlreadyExists "already exists"), s)
  | None => (None, setObjects s (<[objectKey o := setObjectRV o "1"]> (objects s)))
  end.

Definition storeUpdate (k : Kind) (x : obj k) (s : Store) : option error * Store :=
  let o := toObject k x in
  match conflicts s with
  | S n =>
      (Some (APIStatus StatusReasonConflict "the object has been modified"),
       {| objects := objects s; conflicts := n; clock := clock s |})
  | O =>
      match objects s !! objectKey o with
      | None => (Some (APIStatus StatusReasonNotFound "not found"), s)
      | Some old =>
          if bool_decide (ResourceVersion (metaOf o) = ResourceVersion (metaOf old))
          then (None,
                setObjects s
                  (<[objectKey o := setObjectRV o (ResourceVersion (metaOf old) +:+ "1")]>
                     (objects s)))
          else (Some (APIStatus StatusReasonConflict "the object has been modified"), s)
      end
  end.

Definition storeList (k : Kind) (s : Store) : (error + list (obj k)) * Store :=
  (inr (omap (fun kv => fromObject k kv.2) (map_to_list (objects s))), s).

#[export] Instance fakeClient : Client Store := {|
  clGet := storeGet;
  clCreate := storeCreate;
  clUpdate := storeUpdate;
  clStatusUpdate := fun c s => storeUpdate KConfig c s;
  clList := storeList;
  clNow := fun s => (clock s, {| objects := objects s; conflicts := conflicts s;
                                 clock := S (clock s) |});
  clGVKForNamespace := None;
|}.

Definition emptyStore : Store := {| objects := ∅; conflicts := 0; clock := 0 |}.

Definition storeOf (objs : list Object) (conflicts : nat) : Store :=
  {| objects := list_to_map (map (fun o => (objectKey o, o)) objs);
     conflicts := conflicts; clock := 0 |}.

(** *** Sample objects, after the repository's tests *)

Definition rule (group resource verb : string) : PolicyRule :=
  {| Verbs := [verb]; APIGroups := [group]; Resources := [resource];
     ResourceNames := []; NonResourceURLs := [] |}.

Definition group (name : string) : Subject :=
  {| sKind := "Group"; sAPIGroup := "rbac.authorization.k8s.io"; sName := name;
     sNamespace := "" |}.

Definition metaNamed (name namespace rv : string) : ObjectMeta :=
  {| Name := name; Namespace_ := namespace; Labels := None; Annotations := None;
     ResourceVersion := rv; Generation := 0; Finalizers := [];
     DeletionTimestamp := None; OwnerReferences := [] |}.

Definition nsNamed (name : string) (labels annotations : option strmap) : Namespace :=
  {| nsMeta := {| Name := name; Namespace_ := ""; Labels := labels;
                  Annotations := annotations; ResourceVersion := "1"; Generation := 0;
                  Finalizers := []; DeletionTimestamp := None; OwnerReferences := [] |} |}.

Definition selectorAll : NamespaceSelector :=
  {| NameRegex := None; selAnnotations := None; selLabels := None;
     IncludeNamespaces := []; ExcludeNamespaces := [] |}.

Definition noTemplates : RBACTemplates :=
  {| Roles := []; ClusterRoles := []; RoleBindings := []; ClusterRoleBindings := [] |}.

Definition configNamed (name : string) (finalizers : list string)
    (selector : NamespaceSelector) (templates : RBACTemplates)
    (strategy : option MergeStrategy) : NamespaceRBACConfig :=
  {| cfgMeta := {| Name := name; Namespace_ := ""; Labels := None; Annotations := None;
                   ResourceVersion := "1"; Generation := 1; Finalizers := finalizers;
                   DeletionTimestamp := None; OwnerReferences := [] |};
     Spec := {| specSelector := selector; specTemplates := templates;
                specConfig :=
                  match strategy with
                  | Some s => Some {| Naming := None; cfgMergeStrategy := Some s;
                                      TemplateVariables := None; Cleanup := None |}
                  | None => None
                  end |};
     Status := {| Conditions := []; AppliedNamespaces := []; ObservedGeneration := 0 |} |}.

End testing.

(** ** Vocabulary for statements about runs *)

Module runs.

(** Every event a computation logs, from any cluster state, satisfies [P]. *)
Definition logAll {W A : Type} (P : Event -> Prop) (m : M W A) : Prop :=
  forall w, Forall P (log (m w)).

(** The object carries the labels [mergeLabels] computes for [config] and
    the namespace name, for some template label map. *)
Definition carriesMergedLabels (config : NamespaceRBACConfig) (nsName : string)
    (o : Object) : Prop :=
  exists templateLabels,
    Labels (metaOf o) = Some (rbac.mergeLabels templateLabels config nsName).

Definition writesMergedLabels (config : NamespaceRBACConfig) (nsName : string)
    (e : Event) : Prop :=
  match written e with
  | Some o => carriesMergedLabels config nsName o
  | None => True
  end.

(** Every entry of a subject map is stored under its own composite key. *)
Definition keyed (m : gmap string Subject) : Prop :=
  forall k v, m !! k = Some v -> rbac.subjectKey v = k.

Definition labelOf (o : Object) (key : string) : option string :=
  match Labels (metaOf o) with
  | Some labels => labels !! key
  | None => None
  end.

(** One pass of the create-or-update protocol: what it logs and what it
    returns.  A fetch error other than not-found is returned; not-found
    leads to a create whose result is returned; an existing object is left
    alone ([ignore]), refused (unknown strategy), or updated, the update
    result being returned. *)
Inductive singleAttempt (k : Kind) : list Event -> option error -> Prop :=
  | attempt_fetch_error key e :
      IsNotFound (Some e) = false ->
      singleAttempt k [EvGet k key (Some e)] (Some e)
  | attempt_create key e o r :
      IsNotFound (Some e) = true -> kindOf o = k ->
      singleAttempt k [EvGet k key (Some e); EvCreate o r] r
  | attempt_ignore key config resource :
      singleAttempt k
        [EvGet k key None; EvMetric (RecordConflictResolution config "ignore" resource)]
        None
  | attempt_unknown key msg :
      singleAttempt k [EvGet k key None] (Some (ErrorNew msg))
  | attempt_update key m o r :
      kindOf o = k ->
      singleAttempt k [EvGet k key None; EvMetric m; EvUpdate o r] r.

(** The protocol with retries: at most [n] passes; a pass is followed by
    another one only when its update failed with a conflict; when no pass
    is left the [exhausted] error is returned. *)
Inductive retryRun (k : Kind) (exhausted : error)
    : nat -> list Event -> option error -> Prop :=
  | run_exhausted : retryRun k exhausted 0 [] (Some exhausted)
  | run_final n l r :
      singleAttempt k l r ->
      (forall o, last l = Some (EvUpdate o r) -> IsConflict r = false) ->
      retryRun k exhausted (S n) l r
  | run_retry n key m o e rest r :
      kindOf o = k ->
      IsConflict (Some e) = true ->
      retryRun k exhausted n rest r ->
      retryRun k exhausted (S n)
        (EvGet k key None :: EvMetric m :: EvUpdate o (Some e) :: rest) r.

Definition isConflictingUpdate (e : Event) : bool :=
  match e with
  | EvUpdate _ err => IsConflict err
  | _ => false
  end.


(** An event that neither writes to the cluster nor lists namespaces. *)
Definition quiet (e : Event) : Prop :=
  isWrite e = false /\ isListOf KNamespace e = false.

(** The log line that opens the processing of one declaration in the
    namespace reconciler's create/update loop. *)
Definition opensConfig (name : string) (e : Event) : Prop :=
  e = EvLogInfo "Applying RBAC for namespace" name
  \/ e = EvLogInfo "Namespace no longer matches config, cleaning up" name
  \/ exists err, e = EvLogError "Failed to check namespace match" name err.

(** The owner reference that marks an object as controlled by the
    namespace. *)
Definition namespaceOwner (nsName : string) : OwnerReference :=
  {| orKind := "Namespace"; orName := nsName; orController := true |}.

(** The object is of one of the four RBAC kinds; a Role or RoleBinding
    lies in the namespace and is controlled by it, a ClusterRole or
    ClusterRoleBinding lies in no namespace and has no owner. *)
Definition builtFor (nsName : string) (o : Object) : Prop :=
  match kindOf o with
  | KRole | KRoleBinding =>
      Namespace_ (metaOf o) = nsName
      /\ OwnerReferences (metaOf o) = [namespaceOwner nsName]
  | KClusterRole | KClusterRoleBinding =>
      Namespace_ (metaOf o) = "" /\ OwnerReferences (metaOf o) = []
  | KNamespace | KConfig => False
  end.

Definition writesBuiltFor (nsName : string) (e : Event) : Prop :=
  match written e with
  | Some o => builtFor nsName o
  | None => True
  end.

End runs.

(** ** Concrete inputs of the examples *)

Module samples.
Import testing template texttemplate.

(** The template context of the engine's unit tests. *)
Definition testContext : TemplateContext :=
  {| tcNamespace := {| ncName := "test-ns";
                       ncLabels := Some {[ "existing" := "value" ]};
                       ncAnnotations := Some {[ "env" := "prod" ]} |};
     tcCRD := {| crdName := "test-config"; crdNamespace := "" |};
     tcConfig := {| ccNaming := {| nPrefix := "prefix-"; nSuffix := "";
                                   nSeparator := "-" |} |};
     tcCustomVars := Some {[ "env" := "production" ]} |}.

Definition q : string := String.String quoteChar "".


Definition getOrDefaultTemplate (key : string) : string :=
  "{{getOrDefault .Namespace.Labels " +:+ q +:+ key +:+ q +:+ " " +:+ q +:+ "default" +:+ q
  +:+ "}}".

Definition hasKeyTemplate (key : string) : string :=
  "{{if hasKey .Namespace.Labels " +:+ q +:+ key +:+ q
  +:+ "}}found{{else}}notfound{{end}}".

Definition defaultTemplate : string :=
  "{{default " +:+ q +:+ "fallback" +:+ q +:+ " .Namespace.Annotations.env}}".

Definition podsGet : PolicyRule := rule "" "pods" "get".
Definition deploymentsCreate : PolicyRule := rule "apps" "deployments" "create".

Definition existingRole : Role :=
  {| roleMeta := metaNamed "test-role" "test-ns" "1"; roleRules := [podsGet] |}.

Definition newRole : Role :=
  {| roleMeta := metaNamed "test-role" "test-ns" ""; roleRules := [deploymentsCreate] |}.

Definition devNamespace : Namespace := nsNamed "dev" None None.

Definition clusterReader : ClusterRoleTemplate :=
  {| crtName := "reader-{{.Namespace.Name}}"; crtRules := [podsGet];
     crtLabels := None; crtAnnotations := None |}.

Definition brokenRole : RoleTemplate :=
  {| rtName := "role-{{.Namespace.Labels.team}}"; rtRules := [podsGet];
     rtLabels := None; rtAnnotations := None |}.

Definition clusterConfig : NamespaceRBACConfig :=
  configNamed "cluster-readers" [] selectorAll
    {| Roles := []; ClusterRoles := [clusterReader]; RoleBindings := [];
       ClusterRoleBindings := [] |} None.

Definition brokenConfig : NamespaceRBACConfig :=
  configNamed "broken" [] selectorAll
    {| Roles := [brokenRole]; ClusterRoles := []; RoleBindings := [];
       ClusterRoleBindings := [] |} None.

Definition ignoreConfig : NamespaceRBACConfig :=
  configNamed "keep" [] selectorAll noTemplates (Some MergeStrategyIgnore).

Definition mergeConfig : NamespaceRBACConfig :=
  configNamed "merge" [] selectorAll noTemplates (Some MergeStrategyMerge).

Definition badRegexSelector : NamespaceSelector :=
  {| NameRegex := Some "["; selAnnotations := None; selLabels := None;
     IncludeNamespaces := []; ExcludeNamespaces := [] |}.


(** Scenario A of the end-to-end tests. *)
Definition scenarioSelector : NamespaceSelector :=
  {| NameRegex := Some "^e2e-.*";
     selAnnotations := Some {[ "team" := "platform" ]};
     selLabels := None;
     IncludeNamespaces := [];
     ExcludeNamespaces := ["e2e-dev-system"] |}.

Definition platformNamespace (name : string) : Namespace :=
  nsNamed name None (Some {[ "team" := "platform" ]}).

Definition emptyRequirement : NamespaceSelector :=
  {| NameRegex := None; selAnnotations := Some ∅; selLabels := None;
     IncludeNamespaces := []; ExcludeNamespaces := [] |}.

Definition storedRules (s : Store) (key : NamespacedName) : list PolicyRule :=
  match objects s !! storeKey KRole key with
  | Some (ORole r) => roleRules r
  | _ => []
  end.

Definition roleStore : Store := storeOf [ORole existingRole] 0.
Definition contendedStore : Store := storeOf [ORole existingRole] 5.
Definition conflictOnceStore : Store := storeOf [ORole existingRole] 1.
Definition badRegexRequest : NamespacedName := {| nnNamespace := ""; nnName := "bad-regex" |}.
Definition brokenStore : Store := storeOf [ONamespace devNamespace; OConfig brokenConfig] 0.
Definition devRequest : NamespacedName := {| nnNamespace := ""; nnName := "dev" |}.

(** The same declaration as a user has just created it: no finalizer yet. *)
Definition freshBadRegexConfig : NamespaceRBACConfig :=
  configNamed "bad-regex" [] badRegexSelector
    {| Roles := [brokenRole]; ClusterRoles := []; RoleBindings := [];
       ClusterRoleBindings := [] |} None.

Definition freshBadRegexStore : Store := storeOf [OConfig freshBadRegexConfig] 0.


Definition isApplyFailure (configName : string) (e : Event) : bool :=
  match e with
  | EvLogError msg arg _ =>
      bool_decide (msg = "Failed to apply RBAC") && bool_decide (arg = configName)
  | _ => false
  end.

Definition writesClusterRoleLabelled (key value : string) (e : Event) : bool :=
  match e with
  | EvCreate (OClusterRole r) _ | EvUpdate (OClusterRole r) _ =>
      bool_decide (Namespace_ (crMeta r) = "")
      && bool_decide (runs.labelOf (OClusterRole r) key = Some value)
  | _ => false
  end.

(** The answers of the API server for an object that is not there and
    for an update that lost against a concurrent writer. *)
Definition notFound : error := APIStatus StatusReasonNotFound "not found".
Definition lostUpdate : error :=
  APIStatus StatusReasonConflict "the object has been modified".

Definition existingClusterRole : ClusterRole :=
  {| crMeta := metaNamed "reader-dev" "" "7"; crRules := [podsGet] |}.

Definition newClusterRole : ClusterRole :=
  {| crMeta := metaNamed "reader-dev" "" ""; crRules := [deploymentsCreate] |}.

Definition replaceConfig : NamespaceRBACConfig :=
  configNamed "replace" [] selectorAll noTemplates (Some MergeStrategyReplace).

Definition clusterRoleStore : Store := storeOf [OClusterRole existingClusterRole] 0.

(** A declaration that has been through its first pass: it carries the
    finalizer, and its selector and templates are valid. *)
Definition readyConfig : NamespaceRBACConfig :=
  configNamed "cluster-readers" [namespacerbacconfig.FinalizerName] scenarioSelector
    {| Roles := []; ClusterRoles := [clusterReader]; RoleBindings := [];
       ClusterRoleBindings := [] |} None.

Definition readyRequest : NamespacedName :=
  {| nnNamespace := ""; nnName := "cluster-readers" |}.

Definition readyStore : Store :=
  storeOf [ONamespace (platformNamespace "e2e-staging-app"); ONamespace devNamespace;
           OConfig readyConfig] 0.

(** The same declaration after a user has asked for its deletion; a
    second finalizer belongs to someone else. *)
Definition deletedConfig : NamespaceRBACConfig :=
  namespacerbacconfig.withMeta readyConfig
    {| Name := "cluster-readers"; Namespace_ := ""; Labels := None; Annotations := None;
       ResourceVersion := "1"; Generation := 1;
       Finalizers := ["example.com/audit"; namespacerbacconfig.FinalizerName];
       DeletionTimestamp := Some 5%nat; OwnerReferences := [] |}.

Definition deletedStore : Store := storeOf [OConfig deletedConfig] 0.

Definition goneRequest : NamespacedName := {| nnNamespace := ""; nnName := "gone" |}.

Definition serviceAccount (name namespace : string) : Subject :=
  {| sKind := "ServiceAccount"; sAPIGroup := ""; sName := name;
     sNamespace := namespace |}.

Definition templatedSubjects : list Subject :=
  [group "{{.Namespace.Name}}-admins";
   serviceAccount "deployer" "{{.Namespace.Name}}"].

(** Half a second before the end of a second, and instants after it. *)
Definition reconciledAt : gotime.Time := 1700000000500000000%Z.
Definition after299s : gotime.Time := 1700000299500000000%Z.
Definition after299s6 : gotime.Time := 1700000300100000000%Z.
Definition after301s : gotime.Time := 1700000301500000000%Z.

End samples.

(** * Properties *)

(** ** Selector matching *)

Section SelectorProofs.
Context `{RegexpLib}.

Lemma existsb_name_elem (name : string) (l : list string) :
  existsb (fun x => bool_decide (name = x)) l = true <-> name ∈ l.
Proof.
  rewrite existsb_exists. split.
  - intros (x & Hin & Heq). apply bool_decide_eq_true in Heq. subst.
    by apply list_elem_of_In.
  - intros Hin. exists name. split; [by apply list_elem_of_In|].
    by apply bool_decide_eq_true.
Qed.

Lemma excluded_never_matches ns selector :
  Name (nsMeta ns) ∈ ExcludeNamespaces selector ->
  utils.NamespaceMatches ns selector = (false, None).
Proof.
  intros Hin. unfold utils.NamespaceMatches.
  apply existsb_name_elem in Hin. by rewrite Hin.
Qed.

Lemma not_included_never_matches ns selector :
  IncludeNamespaces selector <> [] ->
  Name (nsMeta ns) ∉ IncludeNamespaces selector ->
  utils.NamespaceMatches ns selector = (false, None).
Proof.
  intros Hne Hnotin. unfold utils.NamespaceMatches.
  destruct (existsb _ (ExcludeNamespaces selector)); [done|].
  assert (existsb (fun included => bool_decide (Name (nsMeta ns) = included))
            (IncludeNamespaces selector) = false) as ->.
  { apply not_true_is_false. intros Hex. by apply existsb_name_elem in Hex. }
  destruct (IncludeNamespaces selector); [done|]. done.
Qed.

(** C4. A namespace named in ExcludeNamespaces never matches, whatever the
    inclusion list, the name regex (valid or not), the required labels and
    annotations are; and with a non-empty IncludeNamespaces a namespace
    that is not named there never matches.  In both cases the answer is
    [false] with a nil error. *)
Theorem C4_exclusion_and_inclusion ns selector :
  Name (nsMeta ns) ∈ ExcludeNamespaces selector
  \/ (IncludeNamespaces selector <> []
      /\ Name (nsMeta ns) ∉ IncludeNamespaces selector) ->
  utils.NamespaceMatches ns selector = (false, None).
Proof.
  intros [Hex | [Hne Hnotin]].
  - by apply excluded_never_matches.
  - by apply not_included_never_matches.
Qed.

(** C9. A selector with a non-nil Annotations map, even an empty one,
    never matches a namespace whose annotation map is nil, and the same
    holds for a non-nil Labels requirement against a nil label map: the
    boolean returned is [false] on every path (the error is non-nil only
    when the name regex does not compile). *)
Theorem C9_nil_metadata_map_never_matches ns selector :
  (is_Some (selAnnotations selector) /\ Annotations (nsMeta ns) = None)
  \/ (is_Some (selLabels selector) /\ Labels (nsMeta ns) = None) ->
  (utils.NamespaceMatches ns selector).1 = false.
Proof.
  intros Hnil. unfold utils.NamespaceMatches.
  destruct (existsb _ (ExcludeNamespaces selector)); [done|].
  destruct (_ && _); [done|].
  destruct (NameRegex selector) as [re|].
  - destruct (bool_decide (re <> "")).
    + destruct (MatchString re (Name (nsMeta ns))) as [[|] [e|]]; try done.
      destruct Hnil as [[[a Ha] Hn] | [[l Hl] Hn]].
      * rewrite Ha, Hn. done.
      * rewrite Hl, Hn. by destruct (negb _).
    + destruct Hnil as [[[a Ha] Hn] | [[l Hl] Hn]].
      * rewrite Ha, Hn. done.
      * rewrite Hl, Hn. by destruct (negb _).
  - destruct Hnil as [[[a Ha] Hn] | [[l Hl] Hn]].
    + rewrite Ha, Hn. done.
    + rewrite Hl, Hn. by destruct (negb _).
Qed.

End SelectorProofs.

(** ** Template engine *)

Section TemplateProofs.
Import texttemplate template.
Context `{Lib}.



Lemma evalChain_defined chain : forall v,
  definedIn v chain = true -> exists v', evalChain mapError v chain = inr v'.
Proof.
  induction chain as [|f rest IH]; intros v Hdef; [by eexists|].
  simpl in *. destruct v as [s|b|m|ty fields|]; try done; simpl.
  - destruct (mapGet m f) as [s|]; [|done]. by apply IH.
  - destruct (assoc f fields) as [v'|]; [|done]. by apply IH.
Qed.







End TemplateProofs.

(** ** Merging rules, subjects and labels *)

Section MergeProofs.
Import rbac runs.

Lemma mergeRules_app (existing new : list PolicyRule) :
  mergeRules existing new = existing ++ new.
Proof. done. Qed.

Lemma addSubjects_snoc m l s :
  addSubjects m (l ++ [s]) = <[subjectKey s := s]> (addSubjects m l).
Proof. unfold addSubjects. by rewrite foldl_snoc. Qed.

(** A key no subject of the list has keeps its entry. *)
Lemma addSubjects_lookup_other l : forall m k,
  (forall s, s ∈ l -> subjectKey s <> k) ->
  addSubjects m l !! k = m !! k.
Proof.
  induction l as [|s l IH] using rev_ind; intros m k Hno; [done|].
  rewrite addSubjects_snoc, lookup_insert_ne.
  - apply IH. intros s' Hs'. apply Hno, elem_of_app. by left.
  - apply Hno, elem_of_app. right. by apply list_elem_of_singleton.
Qed.

(** A key some subject of the list has is bound to a subject of the list
    with that key, the same one whatever the map held before. *)
Lemma addSubjects_lookup_in l : forall k,
  (exists s, s ∈ l /\ subjectKey s = k) ->
  exists s', s' ∈ l /\ subjectKey s' = k
             /\ forall m, addSubjects m l !! k = Some s'.
Proof.
  induction l as [|s l IH] using rev_ind; intros k (s0 & Hin & Hk).
  { by apply elem_of_nil in Hin. }
  destruct (decide (subjectKey s = k)) as [Heq | Hne].
  - exists s. split; [apply elem_of_app; right; by apply list_elem_of_singleton|].
    split; [done|]. intros m.
    rewrite addSubjects_snoc, <- Heq. apply lookup_insert_eq.
  - apply elem_of_app in Hin as [Hin | Hin].
    + destruct (IH k) as (s' & Hs' & Hk' & Hl); [by eauto|].
      exists s'. split; [apply elem_of_app; by left|]. split; [done|].
      intros m. rewrite addSubjects_snoc, lookup_insert_ne; [apply Hl | done].
    + apply list_elem_of_singleton in Hin. subst. done.
Qed.

Lemma addSubjects_lookup_Some l m k v :
  addSubjects m l !! k = Some v ->
  (v ∈ l /\ subjectKey v = k) \/ m !! k = Some v.
Proof.
  intros Hl.
  destruct (decide (Exists (fun s => subjectKey s = k) l)) as [Hex | Hno].
  - apply Exists_exists in Hex as (s & Hs & Hk).
    destruct (addSubjects_lookup_in l k) as (s' & Hs' & Hk' & Hall); [by eauto|].
    rewrite Hall in Hl. injection Hl as <-. by left.
  - right. rewrite <- Hl. symmetry. apply addSubjects_lookup_other.
    intros s Hs Hk. apply Hno, Exists_exists. by eauto.
Qed.

(** Adding the same subjects a second time changes nothing. *)
Lemma addSubjects_idemp m l :
  addSubjects (addSubjects m l) l = addSubjects m l.
Proof.
  apply map_eq. intros k.
  destruct (decide (Exists (fun s => subjectKey s = k) l)) as [Hex | Hno].
  - apply Exists_exists in Hex as (s & Hs & Hk).
    destruct (addSubjects_lookup_in l k) as (s' & Hs' & Hk' & Hall); [by eauto|].
    by rewrite !Hall.
  - apply addSubjects_lookup_other.
    intros s Hs Hk. apply Hno, Exists_exists. by eauto.
Qed.

Lemma addSubjects_keyed m l : keyed m -> keyed (addSubjects m l).
Proof.
  intros Hm k v Hl. apply addSubjects_lookup_Some in Hl as [[_ Hk] | Hl]; [done|].
  by apply Hm.
Qed.

Lemma mergeSubjectsMap_keyed existing new : keyed (mergeSubjectsMap existing new).
Proof. apply addSubjects_keyed, addSubjects_keyed. intros k v. by rewrite lookup_empty. Qed.

Lemma elem_of_map_values (m : gmap string Subject) v :
  v ∈ (map_to_list m).*2 <-> exists k, m !! k = Some v.
Proof.
  rewrite list_elem_of_fmap. split.
  - intros ([k v'] & -> & Hin). exists k. by apply elem_of_map_to_list.
  - intros (k & Hk). exists (k, v). split; [done|]. by apply elem_of_map_to_list.
Qed.

(** Rebuilding the map from any enumeration of its values gives it back. *)
Lemma addSubjects_values m l :
  keyed m -> l ≡ₚ (map_to_list m).*2 -> addSubjects ∅ l = m.
Proof.
  intros Hkeyed Hperm. apply map_eq. intros k.
  destruct (m !! k) as [v|] eqn:Hmk.
  - assert (v ∈ l) as Hv.
    { rewrite Hperm. apply elem_of_map_values. by eauto. }
    destruct (addSubjects_lookup_in l k) as (s' & Hs' & Hk' & Hall).
    { exists v. split; [done|]. by apply Hkeyed. }
    rewrite Hall. rewrite Hperm in Hs'.
    apply elem_of_map_values in Hs' as (k' & Hk'').
    pose proof (Hkeyed _ _ Hk'') as Heq. rewrite Hk' in Heq. subst k'.
    congruence.
  - rewrite addSubjects_lookup_other; [by rewrite lookup_empty|].
    intros s Hs Hk. rewrite Hperm in Hs.
    apply elem_of_map_values in Hs as (k' & Hk').
    pose proof (Hkeyed _ _ Hk') as Heq. rewrite Hk in Heq. subst k'. congruence.
Qed.

Lemma mergeSubjectsMap_again existing new result :
  mergeSubjectsResult existing new result ->
  mergeSubjectsMap result new = mergeSubjectsMap existing new.
Proof.
  intros Hres. unfold mergeSubjectsMap at 1.
  rewrite (addSubjects_values (mergeSubjectsMap existing new) result).
  - unfold mergeSubjectsMap. apply addSubjects_idemp.
  - apply mergeSubjectsMap_keyed.
  - exact Hres.
Qed.

Lemma mergeSubjects_keys_NoDup existing new :
  NoDup (subjectKey <$> mergeSubjects existing new).
Proof.
  unfold mergeSubjects.
  assert (subjectKey <$> (map_to_list (mergeSubjectsMap existing new)).*2
          = (map_to_list (mergeSubjectsMap existing new)).*1) as ->.
  { rewrite <- list_fmap_compose. apply list_fmap_ext.
    intros i [k v] Hi. simpl.
    apply (mergeSubjectsMap_keyed existing new).
    apply elem_of_map_to_list. by eapply list_elem_of_lookup_2. }
  apply NoDup_fst_map_to_list.
Qed.

(** C1 (amended). Rule merging is concatenation, so merging the same rules
    a second time appends them again: the result holds the same rules as
    after one merge, but it is the same list only when there is nothing
    to merge.  Subject merging is idempotent: whatever order the first
    merge returned its subjects in, merging the same new subjects into
    that result yields the same subjects again (a permutation, one subject
    per composite key kind/apiGroup/name/namespace). *)
Theorem C1_merge_twice :
  (forall E N : list PolicyRule,
     mergeRules (mergeRules E N) N = E ++ N ++ N
     /\ (forall r, r ∈ mergeRules (mergeRules E N) N <-> r ∈ mergeRules E N)
     /\ (mergeRules (mergeRules E N) N = mergeRules E N <-> N = []))
  /\ (forall E N R R' : list Subject,
        mergeSubjectsResult E N R ->
        mergeSubjectsResult R N R' ->
        R' ≡ₚ R /\ NoDup (subjectKey <$> R')).
Proof.
  split.
  - intros E N. rewrite !mergeRules_app. split; [by rewrite <- app_assoc|]. split.
    + intros r. rewrite !elem_of_app. tauto.
    + split.
      * intros Heq. apply (f_equal length) in Heq. rewrite !length_app in Heq.
        destruct N; [done|]. simpl in Heq. lia.
      * intros ->. by rewrite !app_nil_r.
  - intros E N R R' HR HR'. unfold mergeSubjectsResult in *.
    assert (mergeSubjects R N = mergeSubjects E N) as Heq.
    { unfold mergeSubjects. by rewrite (mergeSubjectsMap_again E N R). }
    split.
    + by rewrite HR', Heq, HR.
    + rewrite HR'. apply mergeSubjects_keys_NoDup.
Qed.

(** The loop that copies the template labels yields the template labels. *)
Lemma copy_labels (tl : strmap) :
  map_fold (fun k v acc => <[k := v]> acc) (∅ : strmap) tl = tl.
Proof.
  apply (map_fold_weak_ind (fun r m => r = m)); [done|].
  intros i x m r _ ->. done.
Qed.

Lemma mergeLabels_eq templateLabels config targetNamespace :
  mergeLabels templateLabels config targetNamespace =
  let labels := <[ConfigLabel := Name (cfgMeta config)]>
                  (<[OwnerLabel := "namespace-rbac-operator"]>
                     (default ∅ templateLabels)) in
  if bool_decide (targetNamespace <> "")
  then <[NamespaceLabel := targetNamespace]> labels else labels.
Proof.
  unfold mergeLabels. destruct templateLabels as [tl|]; simpl; [|done].
  by rewrite copy_labels.
Qed.

Lemma mergeLabels_owner templateLabels config targetNamespace :
  mergeLabels templateLabels config targetNamespace !! OwnerLabel
  = Some "namespace-rbac-operator".
Proof.
  rewrite mergeLabels_eq. simpl. case_bool_decide.
  - rewrite lookup_insert_ne; [|done]. rewrite lookup_insert_ne; [|done].
    apply lookup_insert_eq.
  - rewrite lookup_insert_ne; [|done]. apply lookup_insert_eq.
Qed.

Lemma mergeLabels_config templateLabels config targetNamespace :
  mergeLabels templateLabels config targetNamespace !! ConfigLabel
  = Some (Name (cfgMeta config)).
Proof.
  rewrite mergeLabels_eq. simpl. case_bool_decide.
  - rewrite lookup_insert_ne; [|done]. apply lookup_insert_eq.
  - apply lookup_insert_eq.
Qed.

Lemma mergeLabels_namespace templateLabels config targetNamespace :
  targetNamespace <> "" ->
  mergeLabels templateLabels config targetNamespace !! NamespaceLabel
  = Some targetNamespace.
Proof.
  intros Hne. rewrite mergeLabels_eq. simpl.
  rewrite bool_decide_eq_true_2; [|done]. apply lookup_insert_eq.
Qed.

Lemma mergeLabels_no_namespace templateLabels config :
  mergeLabels templateLabels config "" !! NamespaceLabel
  = default ∅ templateLabels !! NamespaceLabel.
Proof.
  rewrite mergeLabels_eq. simpl.
  rewrite lookup_insert_ne; [|done]. by rewrite lookup_insert_ne.
Qed.

End MergeProofs.

(** ** Logs of computations *)

Section LogProofs.
Import runs.
Context {W : Type} `{Client W}.

Lemma run_bind {A B} (m : M W A) (f : A -> M W B) w :
  bind m f w =
  (result (f (result (m w)) (world (m w))),
   world (f (result (m w)) (world (m w))),
   log (m w) ++ log (f (result (m w)) (world (m w)))).
Proof.
  unfold bind, result, world, log.
  destruct (m w) as [[a w1] l1]. simpl. by destruct (f a w1) as [[b w2] l2].
Qed.

Lemma log_bind {A B} (m : M W A) (f : A -> M W B) w :
  log (bind m f w) = log (m w) ++ log (f (result (m w)) (world (m w))).
Proof. by rewrite run_bind. Qed.


Lemma world_bind {A B} (m : M W A) (f : A -> M W B) w :
  world (bind m f w) = world (f (result (m w)) (world (m w))).
Proof. by rewrite run_bind. Qed.

Lemma logAll_ret {A} (P : Event -> Prop) (a : A) : logAll P (ret (W:=W) a).
Proof. intros w. apply Forall_nil_2. Qed.

Lemma logAll_bind {A B} (P : Event -> Prop) (m : M W A) (f : A -> M W B) :
  logAll P m -> (forall a, logAll P (f a)) -> logAll P (bind m f).
Proof.
  intros Hm Hf w. rewrite log_bind. apply Forall_app. split; [apply Hm | apply Hf].
Qed.

Lemma logAll_emit (P : Event -> Prop) e : P e -> logAll P (emit (W:=W) e).
Proof. intros He w. by apply Forall_singleton. Qed.

Lemma logAll_Get (P : Event -> Prop) k key :
  (forall err, P (EvGet k key err)) -> logAll P (Get k key).
Proof.
  intros HP w. unfold Get, log. destruct (clGet k key w) as [r w'].
  by apply Forall_singleton.
Qed.

Lemma logAll_Create (P : Event -> Prop) k o :
  (forall err, P (EvCreate (toObject k o) err)) -> logAll P (Create k o).
Proof.
  intros HP w. unfold Create, log. destruct (clCreate k o w) as [r w'].
  by apply Forall_singleton.
Qed.

Lemma logAll_Update (P : Event -> Prop) k o :
  (forall err, P (EvUpdate (toObject k o) err)) -> logAll P (Update k o).
Proof.
  intros HP w. unfold Update, log. destruct (clUpdate k o w) as [r w'].
  by apply Forall_singleton.
Qed.

Lemma logAll_impl {A} (P Q : Event -> Prop) (m : M W A) :
  (forall e, P e -> Q e) -> logAll P m -> logAll Q m.
Proof. intros HPQ Hm w. eapply Forall_impl; [apply Hm | done]. Qed.

End LogProofs.

(** One step of a proof that every logged event satisfies a predicate
    which holds of all reads, metrics and log lines. *)
Ltac logAll_write H :=
  lazymatch goal with
  | |- runs.logAll _ (Create ?k ?o) => apply (logAll_Create _ k o); intros ?; exact H
  | |- runs.logAll _ (Update ?k ?o) => apply (logAll_Update _ k o); intros ?; exact H
  end.

Ltac logAll_step :=
  lazymatch goal with
  | |- runs.logAll _ (ret _) => apply logAll_ret
  | |- runs.logAll _ (bind _ _) => apply logAll_bind; [|intros ?]
  | |- runs.logAll _ (metric _) => apply logAll_emit; exact I
  | |- runs.logAll _ (logInfo _ _) => apply logAll_emit; exact I
  | |- runs.logAll _ (logError _ _ _) => apply logAll_emit; exact I
  | |- runs.logAll _ (Get ?k ?key) => apply (logAll_Get _ k key); intros ?; exact I
  | |- runs.logAll _ (if ?b then _ else _) => destruct b eqn:?
  | |- runs.logAll _ (match ?x with _ => _ end) => destruct x eqn:?
  end.

(** ** Labels of the objects the manager writes *)

Section LabelProofs.
Import rbac runs template.
Context {W : Type} `{Client W} `{texttemplate.Lib}.

Lemma createOrUpdateRoleLoop_labels config nsName attempts : forall role,
  carriesMergedLabels config nsName (ORole role) ->
  logAll (writesMergedLabels config nsName) (createOrUpdateRoleLoop attempts role config).
Proof.
  induction attempts as [|n IH]; intros role Hrole; simpl.
  - apply logAll_ret.
  - repeat logAll_step;
      try logAll_write Hrole;
      try (apply IH; exact Hrole).
Qed.

Lemma createOrUpdateRoleBindingLoop_labels config nsName attempts : forall roleBinding,
  carriesMergedLabels config nsName (ORoleBinding roleBinding) ->
  logAll (writesMergedLabels config nsName)
    (createOrUpdateRoleBindingLoop attempts roleBinding config).
Proof.
  induction attempts as [|n IH]; intros roleBinding Hrb; simpl.
  - apply logAll_ret.
  - repeat logAll_step;
      try logAll_write Hrb;
      try (apply IH; exact Hrb).
Qed.

Lemma createOrUpdateClusterRole_labels config nsName clusterRole :
  carriesMergedLabels config nsName (OClusterRole clusterRole) ->
  logAll (writesMergedLabels config nsName) (createOrUpdateClusterRole clusterRole config).
Proof.
  intros Hcr. unfold createOrUpdateClusterRole.
  repeat logAll_step;
    try logAll_write Hcr.
Qed.

Lemma createOrUpdateClusterRoleBinding_labels config nsName clusterRoleBinding :
  carriesMergedLabels config nsName (OClusterRoleBinding clusterRoleBinding) ->
  logAll (writesMergedLabels config nsName)
    (createOrUpdateClusterRoleBinding clusterRoleBinding config).
Proof.
  intros Hcrb. unfold createOrUpdateClusterRoleBinding.
  repeat logAll_step;
    try logAll_write Hcrb.
Qed.

Lemma SetControllerReference_labels owner controlled meta :
  SetControllerReference owner controlled = inr meta ->
  Labels meta = Labels controlled.
Proof.
  unfold SetControllerReference. intros Hset.
  repeat match type of Hset with
         | context [match ?x with _ => _ end] => destruct x
         | context [if ?b then _ else _] => destruct b
         end; try discriminate; by injection Hset as <-.
Qed.

Lemma applyRole_labels ns config tmpl ctx :
  logAll (writesMergedLabels config (Name (nsMeta ns))) (applyRole ns config tmpl ctx).
Proof.
  unfold applyRole.
  destruct (ProcessTemplate (rtName tmpl) ctx) as [name err1].
  destruct (ProcessMap (rtLabels tmpl) ctx) as [labels err2].
  destruct (ProcessMap (rtAnnotations tmpl) ctx) as [annotations err3].
  destruct (SetControllerReference ns _) as [e|meta] eqn:Hset.
  - repeat logAll_step.
  - apply SetControllerReference_labels in Hset.
    repeat logAll_step.
    apply createOrUpdateRoleLoop_labels. exists labels. simpl in *. done.
Qed.

Lemma applyClusterRole_labels ns config tmpl ctx :
  logAll (writesMergedLabels config (Name (nsMeta ns)))
    (applyClusterRole ns config tmpl ctx).
Proof.
  unfold applyClusterRole.
  destruct (ProcessTemplate (crtName tmpl) ctx) as [name err1].
  destruct (ProcessMap (crtLabels tmpl) ctx) as [labels err2].
  destruct (ProcessMap (crtAnnotations tmpl) ctx) as [annotations err3].
  repeat logAll_step.
  apply createOrUpdateClusterRole_labels. by exists labels.
Qed.

Lemma applyRoleBinding_labels ns config tmpl ctx :
  logAll (writesMergedLabels config (Name (nsMeta ns)))
    (applyRoleBinding ns config tmpl ctx).
Proof.
  unfold applyRoleBinding.
  destruct (ProcessTemplate (rbtName tmpl) ctx) as [name err1].
  destruct (ProcessMap (rbtLabels tmpl) ctx) as [labels err2].
  destruct (ProcessMap (rbtAnnotations tmpl) ctx) as [annotations err3].
  destruct (ProcessTemplate (rrName (rbtRoleRef tmpl)) ctx) as [roleRefName err4].
  destruct (processSubjects (rbtSubjects tmpl) ctx) as [subjects err5].
  destruct (SetControllerReference ns _) as [e|meta] eqn:Hset.
  - repeat logAll_step.
  - apply SetControllerReference_labels in Hset.
    repeat logAll_step.
    apply createOrUpdateRoleBindingLoop_labels. exists labels. simpl in *. done.
Qed.

Lemma applyClusterRoleBinding_labels ns config tmpl ctx :
  logAll (writesMergedLabels config (Name (nsMeta ns)))
    (applyClusterRoleBinding ns config tmpl ctx).
Proof.
  unfold applyClusterRoleBinding.
  destruct (ProcessTemplate (crbtName tmpl) ctx) as [name err1].
  destruct (ProcessMap (crbtLabels tmpl) ctx) as [labels err2].
  destruct (ProcessMap (crbtAnnotations tmpl) ctx) as [annotations err3].
  destruct (ProcessTemplate (rrName (crbtRoleRef tmpl)) ctx) as [roleRefName err4].
  destruct (processSubjects (crbtSubjects tmpl) ctx) as [subjects err5].
  repeat logAll_step.
  apply createOrUpdateClusterRoleBinding_labels. by exists labels.
Qed.

Lemma applyEach_logAll {A} (P : Event -> Prop) (apply : A -> M W (option error))
    wrap templates :
  (forall t, logAll P (apply t)) -> logAll P (applyEach apply wrap templates).
Proof.
  intros Happly. induction templates as [|t rest IH]; simpl.
  - apply logAll_ret.
  - apply logAll_bind; [apply Happly|]. intros [e|]; [apply logAll_ret | apply IH].
Qed.

(** Every object ApplyRBACForNamespace sends to the API server, of any
    of the four kinds, carries the labels mergeLabels computed for the
    declaration and the namespace's name. *)
Lemma ApplyRBACForNamespace_labels ns config :
  logAll (writesMergedLabels config (Name (nsMeta ns))) (ApplyRBACForNamespace ns config).
Proof.
  unfold ApplyRBACForNamespace.
  apply logAll_bind; [apply applyEach_logAll; intros; apply applyRole_labels|].
  intros [e|]; [apply logAll_ret|].
  apply logAll_bind; [apply applyEach_logAll; intros; apply applyClusterRole_labels|].
  intros [e|]; [apply logAll_ret|].
  apply logAll_bind; [apply applyEach_logAll; intros; apply applyRoleBinding_labels|].
  intros [e|]; [apply logAll_ret|].
  apply logAll_bind;
    [apply applyEach_logAll; intros; apply applyClusterRoleBinding_labels|].
  intros [e|]; apply logAll_ret.
Qed.

(** C2. The label map mergeLabels returns always binds the owner label to
    "namespace-rbac-operator" and the config label to the declaration's
    name, whatever the template labels are (also when they set the same
    keys), and so does the label map of every object ApplyRBACForNamespace
    creates or updates. *)
Theorem C2_operator_labels_always_win :
  (forall templateLabels config targetNamespace,
     mergeLabels templateLabels config targetNamespace !! OwnerLabel
       = Some "namespace-rbac-operator"
     /\ mergeLabels templateLabels config targetNamespace !! ConfigLabel
       = Some (Name (cfgMeta config)))
  /\ (forall ns config (w : W),
        Forall (fun e => match written e with
                         | Some o =>
                             labelOf o OwnerLabel = Some "namespace-rbac-operator"
                             /\ labelOf o ConfigLabel = Some (Name (cfgMeta config))
                         | None => True
                         end)
          (log (ApplyRBACForNamespace ns config w))).
Proof.
  split.
  - intros. split; [apply mergeLabels_owner | apply mergeLabels_config].
  - intros ns config w.
    eapply Forall_impl; [apply ApplyRBACForNamespace_labels|].
    intros e He. unfold writesMergedLabels in He.
    destruct (written e) as [o|]; [|done].
    destruct He as [tl Htl]. unfold labelOf. rewrite Htl.
    split; [apply mergeLabels_owner | apply mergeLabels_config].
Qed.

(** C3 (amended). mergeLabels sets the namespace label whenever the target
    namespace name is non-empty, and every apply path passes the
    namespace's name: the objects ApplyRBACForNamespace creates or
    updates for a namespace with a non-empty name all carry the namespace
    label with that name, ClusterRoles and ClusterRoleBindings included.
    Only for an empty target name does mergeLabels leave the key as the
    template labels have it. *)
Theorem C3_namespace_label_on_all_kinds :
  (forall templateLabels config targetNamespace,
     targetNamespace <> "" ->
     mergeLabels templateLabels config targetNamespace !! NamespaceLabel
       = Some targetNamespace)
  /\ (forall templateLabels config,
        mergeLabels templateLabels config "" !! NamespaceLabel
          = default ∅ templateLabels !! NamespaceLabel)
  /\ (forall ns config (w : W),
        Name (nsMeta ns) <> "" ->
        Forall (fun e => match written e with
                         | Some o => labelOf o NamespaceLabel = Some (Name (nsMeta ns))
                         | None => True
                         end)
          (log (ApplyRBACForNamespace ns config w))).
Proof.
  split; [|split].
  - intros. by apply mergeLabels_namespace.
  - intros. apply mergeLabels_no_namespace.
  - intros ns config w Hne.
    eapply Forall_impl; [apply ApplyRBACForNamespace_labels|].
    intros e He. unfold writesMergedLabels in He.
    destruct (written e) as [o|]; [|done].
    destruct He as [tl Htl]. unfold labelOf. rewrite Htl.
    by apply mergeLabels_namespace.
Qed.

End LabelProofs.

(** ** The create-or-update protocol *)

Section ProtocolProofs.
Import rbac runs.
Context {W : Type} `{Client W}.

(** Unfolds the calls of one pass, splitting on what the client answers. *)
Ltac run_calls :=
  repeat first
    [ progress (unfold bind, Get, Create, Update, metric, emit, ret, log, result; simpl)
    | match goal with
      | |- context [clGet ?k ?key ?w] =>
          let Hget := fresh "Hget" in
          destruct (clGet k key w) as [[?e|?existing] ?w] eqn:Hget
      | |- context [clCreate ?k ?o ?w] => destruct (clCreate k o w) as [?r ?w]
      | |- context [clUpdate ?k ?o ?w] =>
          let Hupd := fresh "Hupd" in
          destruct (clUpdate k o w) as [?err ?w] eqn:Hupd
      end ].

Lemma createOrUpdateRoleLoop_run config attempts : forall role w,
  retryRun KRole (ErrorNew "failed to update role after 3 retries due to conflicts")
    attempts
    (log (createOrUpdateRoleLoop attempts role config w))
    (result (createOrUpdateRoleLoop attempts role config w)).
Proof.
  induction attempts as [|n IH]; intros role w; [apply run_exhausted|].
  simpl. run_calls.
  - destruct (bool_decide (ReasonForError e = StatusReasonNotFound)) eqn:Hnf; run_calls.
    + apply run_final; [by apply attempt_create | intros ??; discriminate].
    + apply run_final; [by apply attempt_fetch_error | intros ??; discriminate].
  - repeat case_bool_decide; run_calls.
    + apply run_final; [apply attempt_ignore | intros ??; discriminate].
    + destruct (IsConflict err) eqn:Hc; run_calls.
      * destruct err as [e|]; [|done].
        match goal with
        | |- context [createOrUpdateRoleLoop n ?r config ?w'] =>
            specialize (IH r w');
            destruct (createOrUpdateRoleLoop n r config w') as [[res w3] l3]
        end.
        by apply run_retry.
      * apply run_final; [by apply attempt_update|].
        intros o Hlast. by injection Hlast as <-.
    + destruct (IsConflict err) eqn:Hc; run_calls.
      * destruct err as [e|]; [|done].
        match goal with
        | |- context [createOrUpdateRoleLoop n ?r config ?w'] =>
            specialize (IH r w');
            destruct (createOrUpdateRoleLoop n r config w') as [[res w3] l3]
        end.
        by apply run_retry.
      * apply run_final; [by apply attempt_update|].
        intros o Hlast. by injection Hlast as <-.
    + apply run_final; [apply attempt_unknown | intros ??; discriminate].
Qed.

Lemma createOrUpdateRoleBindingLoop_run config attempts : forall roleBinding w,
  retryRun KRoleBinding
    (ErrorNew "failed to update rolebinding after 3 retries due to conflicts")
    attempts
    (log (createOrUpdateRoleBindingLoop attempts roleBinding config w))
    (result (createOrUpdateRoleBindingLoop attempts roleBinding config w)).
Proof.
  induction attempts as [|n IH]; intros roleBinding w; [apply run_exhausted|].
  simpl. run_calls.
  - destruct (bool_decide (ReasonForError e = StatusReasonNotFound)) eqn:Hnf; run_calls.
    + apply run_final; [by apply attempt_create | intros ??; discriminate].
    + apply run_final; [by apply attempt_fetch_error | intros ??; discriminate].
  - repeat case_bool_decide; run_calls.
    + apply run_final; [apply attempt_ignore | intros ??; discriminate].
    + destruct (IsConflict err) eqn:Hc; run_calls.
      * destruct err as [e|]; [|done].
        match goal with
        | |- context [createOrUpdateRoleBindingLoop n ?r config ?w'] =>
            specialize (IH r w');
            destruct (createOrUpdateRoleBindingLoop n r config w') as [[res w3] l3]
        end.
        by apply run_retry.
      * apply run_final; [by apply attempt_update|].
        intros o Hlast. by injection Hlast as <-.
    + destruct (IsConflict err) eqn:Hc; run_calls.
      * destruct err as [e|]; [|done].
        match goal with
        | |- context [createOrUpdateRoleBindingLoop n ?r config ?w'] =>
            specialize (IH r w');
            destruct (createOrUpdateRoleBindingLoop n r config w') as [[res w3] l3]
        end.
        by apply run_retry.
      * apply run_final; [by apply attempt_update|].
        intros o Hlast. by injection Hlast as <-.
    + apply run_final; [apply attempt_unknown | intros ??; discriminate].
Qed.

Lemma createOrUpdateClusterRole_run config clusterRole w :
  singleAttempt KClusterRole
    (log (createOrUpdateClusterRole clusterRole config w))
    (result (createOrUpdateClusterRole clusterRole config w)).
Proof.
  unfold createOrUpdateClusterRole. run_calls.
  - destruct (bool_decide (ReasonForError e = StatusReasonNotFound)) eqn:Hnf; run_calls.
    + by apply attempt_create.
    + by apply attempt_fetch_error.
  - repeat case_bool_decide; run_calls.
    + apply attempt_ignore.
    + by apply attempt_update.
    + by apply attempt_update.
    + apply attempt_unknown.
Qed.

Lemma createOrUpdateClusterRoleBinding_run config clusterRoleBinding w :
  singleAttempt KClusterRoleBinding
    (log (createOrUpdateClusterRoleBinding clusterRoleBinding config w))
    (result (createOrUpdateClusterRoleBinding clusterRoleBinding config w)).
Proof.
  unfold createOrUpdateClusterRoleBinding. run_calls.
  - destruct (bool_decide (ReasonForError e = StatusReasonNotFound)) eqn:Hnf; run_calls.
    + by apply attempt_create.
    + by apply attempt_fetch_error.
  - repeat case_bool_decide; run_calls.
    + apply attempt_ignore.
    + by apply attempt_update.
    + by apply attempt_update.
    + apply attempt_unknown.
Qed.

End ProtocolProofs.

Section ProtocolFacts.
Import runs.

Lemma singleAttempt_counts k l r :
  singleAttempt k l r ->
  length (List.filter (isGet k) l) = 1%nat
  /\ (length (List.filter isUpdate l) <= 1)%nat
  /\ (length (List.filter isCreate l) <= 1)%nat
  /\ (length (List.filter isConflictingUpdate l) <= 1)%nat
  /\ (length (List.filter isConflictingUpdate l) = 1%nat ->
      exists o, last l = Some (EvUpdate o r) /\ IsConflict r = true).
Proof.
  intros Hrun. destruct Hrun; simpl; rewrite ?bool_decide_eq_true_2 by done; simpl;
    repeat split; try lia; try discriminate.
  - destruct (IsConflict r); simpl; lia.
  - destruct (IsConflict r) eqn:Hc; simpl; [|discriminate]. by eauto.
Qed.

Lemma retryRun_counts k exhausted n l r :
  retryRun k exhausted n l r ->
  (length (List.filter (isGet k) l) <= n)%nat
  /\ (length (List.filter isUpdate l) <= n)%nat
  /\ (length (List.filter (isGet k) l)
      <= S (length (List.filter isConflictingUpdate l)))%nat
  /\ (length (List.filter isConflictingUpdate l) = n -> r = Some exhausted).
Proof.
  induction 1 as [|n l r Hone Hfinal|n key m o e rest r Hk Hc Hrun IH].
  - simpl. repeat split; try lia; done.
  - destruct (singleAttempt_counts _ _ _ Hone) as (Hg & Hu & _ & Hcu & Hlast).
    repeat split; try lia.
    intros Hn. assert (length (List.filter isConflictingUpdate l) = 1%nat) as H1 by lia.
    destruct (Hlast H1) as (o & Ho & Hconf).
    rewrite (Hfinal o Ho) in Hconf. discriminate.
  - destruct IH as (Hg & Hu & Hgc & Hex).
    simpl. rewrite bool_decide_eq_true_2 by done. simpl in *. rewrite Hc. simpl.
    repeat split; try lia.
    intros Hn. apply Hex. lia.
Qed.

End ProtocolFacts.

Section ProtocolClaims.
Import rbac runs.
Context {W : Type} `{Client W}.

(** C5 (amended). For Role and RoleBinding the protocol makes at most 3
    passes (fetch, then update), starts another pass only after an update
    failed with a conflict, and returns the retries-exhausted error when
    all 3 updates conflicted.  For ClusterRole and ClusterRoleBinding it
    makes one pass and returns the update result, a conflict included.
    In a pass, a fetch error other than not-found is returned at once,
    with no further call; a not-found fetch leads to a create, whose
    result is returned; an update result that is not a conflict is
    returned at once. *)
Theorem C5_bounded_conflict_retry config (w : W) :
  (forall role,
     retryRun KRole (ErrorNew "failed to update role after 3 retries due to conflicts") 3
       (log (createOrUpdateRole role config w))
       (result (createOrUpdateRole role config w)))
  /\ (forall roleBinding,
        retryRun KRoleBinding
          (ErrorNew "failed to update rolebinding after 3 retries due to conflicts") 3
          (log (createOrUpdateRoleBinding roleBinding config w))
          (result (createOrUpdateRoleBinding roleBinding config w)))
  /\ (forall clusterRole,
        singleAttempt KClusterRole
          (log (createOrUpdateClusterRole clusterRole config w))
          (result (createOrUpdateClusterRole clusterRole config w)))
  /\ (forall clusterRoleBinding,
        singleAttempt KClusterRoleBinding
          (log (createOrUpdateClusterRoleBinding clusterRoleBinding config w))
          (result (createOrUpdateClusterRoleBinding clusterRoleBinding config w)))
  /\ (forall k exhausted n l r,
        retryRun k exhausted n l r ->
        (length (List.filter (isGet k) l) <= n)%nat
        /\ (length (List.filter isUpdate l) <= n)%nat
        /\ (length (List.filter (isGet k) l)
            <= S (length (List.filter isConflictingUpdate l)))%nat
        /\ (length (List.filter isConflictingUpdate l) = n -> r = Some exhausted))
  /\ (forall k l r,
        singleAttempt k l r ->
        length (List.filter (isGet k) l) = 1%nat
        /\ (length (List.filter isUpdate l) <= 1)%nat).
Proof.
  split; [|split; [|split; [|split; [|split]]]].
  - intros role. apply createOrUpdateRoleLoop_run.
  - intros roleBinding. apply createOrUpdateRoleBindingLoop_run.
  - intros clusterRole. apply createOrUpdateClusterRole_run.
  - intros clusterRoleBinding. apply createOrUpdateClusterRoleBinding_run.
  - apply retryRun_counts.
  - intros k l r Hone.
    destruct (singleAttempt_counts _ _ _ Hone) as (Hg & Hu & _). by split.
Qed.

(** C8. With the ignore strategy in force and the target object fetched
    successfully, each of the four create-or-update functions returns nil
    after the fetch and the conflict-resolution metric alone: it issues
    no create and no update, and the cluster is in the state the fetch
    left it in. *)
Theorem C8_ignore_leaves_existing_untouched config :
  effectiveMergeStrategy config = MergeStrategyIgnore ->
  (forall role existing (w w1 : W),
     clGet KRole (keyOf (roleMeta role)) w = (inr existing, w1) ->
     createOrUpdateRole role config w
     = (None, w1,
        [EvGet KRole (keyOf (roleMeta role)) None;
         EvMetric (RecordConflictResolution (Name (cfgMeta config)) "ignore" "role")]))
  /\ (forall clusterRole existing (w w1 : W),
        clGet KClusterRole (clusterKeyOf (crMeta clusterRole)) w = (inr existing, w1) ->
        createOrUpdateClusterRole clusterRole config w
        = (None, w1,
           [EvGet KClusterRole (clusterKeyOf (crMeta clusterRole)) None;
            EvMetric (RecordConflictResolution (Name (cfgMeta config)) "ignore"
                        "clusterrole")]))
  /\ (forall roleBinding existing (w w1 : W),
        clGet KRoleBinding (keyOf (rbMeta roleBinding)) w = (inr existing, w1) ->
        createOrUpdateRoleBinding roleBinding config w
        = (None, w1,
           [EvGet KRoleBinding (keyOf (rbMeta roleBinding)) None;
            EvMetric (RecordConflictResolution (Name (cfgMeta config)) "ignore"
                        "rolebinding")]))
  /\ (forall clusterRoleBinding existing (w w1 : W),
        clGet KClusterRoleBinding (clusterKeyOf (crbMeta clusterRoleBinding)) w
        = (inr existing, w1) ->
        createOrUpdateClusterRoleBinding clusterRoleBinding config w
        = (None, w1,
           [EvGet KClusterRoleBinding (clusterKeyOf (crbMeta clusterRoleBinding)) None;
            EvMetric (RecordConflictResolution (Name (cfgMeta config)) "ignore"
                        "clusterrolebinding")])).
Proof.
  intros Hignore. repeat split; intros ???? Hget.
  - unfold createOrUpdateRole. simpl. unfold bind, Get. rewrite Hget, Hignore. done.
  - unfold createOrUpdateClusterRole, bind, Get. rewrite Hget, Hignore. done.
  - unfold createOrUpdateRoleBinding. simpl. unfold bind, Get. rewrite Hget, Hignore.
    done.
  - unfold createOrUpdateClusterRoleBinding, bind, Get. rewrite Hget, Hignore. done.
Qed.

End ProtocolClaims.

(** ** The declaration reconciler *)

Section ConditionProofs.
Import namespacerbacconfig runs.

Lemma findCondition_insert_same conds ty cond : forall i c,
  findCondition conds ty = Some (i, c) ->
  condType cond = ty ->
  findCondition (<[i := cond]> conds) ty = Some (i, cond).
Proof.
  induction conds as [|c0 rest IH]; intros i c Hfind Hty; [done|].
  simpl in Hfind. case_bool_decide as Hc0.
  - injection Hfind as <- <-. simpl. by rewrite bool_decide_eq_true_2.
  - destruct (findCondition rest ty) as [[i' c']|] eqn:Hrest; [|done].
    injection Hfind as <- <-. simpl. rewrite bool_decide_eq_false_2 by done.
    by rewrite (IH i' c').
Qed.


Lemma findCondition_snoc_same conds ty cond :
  findCondition conds ty = None ->
  condType cond = ty ->
  findCondition (conds ++ [cond]) ty = Some (length conds, cond).
Proof.
  intros Hfind Hty. induction conds as [|c0 rest IH]; simpl in *.
  - by rewrite bool_decide_eq_true_2.
  - case_bool_decide; [done|].
    destruct (findCondition rest ty) as [[? ?]|]; [done|]. by rewrite IH.
Qed.



End ConditionProofs.

Section ReconcilerProofs.
Import namespacerbacconfig runs.
Context {W : Type} `{Client W} `{texttemplate.Lib} `{RegexpLib}.





End ReconcilerProofs.

Section DeclarationClaims.
Import namespacerbacconfig runs.
Context {W : Type} `{Client W} `{texttemplate.Lib} `{RegexpLib}.

Lemma bind_run {A B} (m : M W A) (f : A -> M W B) w a w1 l1 :
  m w = (a, w1, l1) ->
  bind m f w = (result (f a w1), world (f a w1), l1 ++ log (f a w1)).
Proof.
  intros Hm. unfold bind, result, world, log. rewrite Hm.
  by destruct (f a w1) as [[b w2] l2].
Qed.

Lemma quiet_filters l :
  Forall quiet l ->
  List.filter isWrite l = [] /\ List.filter (isListOf KNamespace) l = [].
Proof.
  induction 1 as [|e l [Hw Hl] _ [IHw IHl]]; [done|].
  simpl. by rewrite Hw, Hl.
Qed.

Lemma reconcileDeferred_quiet config err (w : W) :
  Forall quiet (log (reconcileDeferred config err w)).
Proof.
  unfold reconcileDeferred, bind, List, metric, emit, ret, log.
  destruct (clList KConfig w) as [[e|items] w1]; simpl; by repeat constructor.
Qed.




End DeclarationClaims.

(** ** The namespace reconciler *)

Section NamespaceClaims.
Import namespace runs.
Context {W : Type} `{Client W} `{texttemplate.Lib} `{RegexpLib}.

(** What processing one declaration logs: the match error; or the apply
    (resp. cleanup) calls followed, when they fail, by the error line. *)
Lemma applyConfig_log namespace config (w : W) :
  log (applyConfig namespace config w) =
  match utils.NamespaceMatches namespace (specSelector (Spec config)) with
  | (_, Some err) =>
      [EvLogError "Failed to check namespace match" (Name (cfgMeta config)) err]
  | (true, None) =>
      EvLogInfo "Applying RBAC for namespace" (Name (cfgMeta config))
      :: log (rbac.ApplyRBACForNamespace namespace config w)
      ++ match result (rbac.ApplyRBACForNamespace namespace config w) with
         | Some e => [EvLogError "Failed to apply RBAC" (Name (cfgMeta config)) e]
         | None => []
         end
  | (false, None) =>
      EvLogInfo "Namespace no longer matches config, cleaning up" (Name (cfgMeta config))
      :: log (rbac.CleanupRBACForNamespace (Name (nsMeta namespace)) config w)
      ++ match result (rbac.CleanupRBACForNamespace (Name (nsMeta namespace)) config w)
         with
         | Some e => [EvLogError "Failed to cleanup RBAC" (Name (cfgMeta config)) e]
         | None => []
         end
  end.
Proof.
  unfold applyConfig.
  destruct (utils.NamespaceMatches _ _) as [[|] [err|]]; try done.
  - unfold logInfo. rewrite (bind_run (emit _) _ w tt w [_] eq_refl).
    unfold log at 1. simpl. f_equal. rewrite log_bind. f_equal.
    by destruct (result (rbac.ApplyRBACForNamespace namespace config w)).
  - unfold logInfo. rewrite (bind_run (emit _) _ w tt w [_] eq_refl).
    unfold log at 1. simpl. f_equal. rewrite log_bind. f_equal.
    by destruct (result (rbac.CleanupRBACForNamespace _ config w)).
Qed.

(** The loop processes every declaration, in order, whatever happened to
    the ones before. *)
Lemma applyConfigs_runs namespace items : forall w : W,
  exists runs,
    log (applyConfigs namespace items w) = concat runs
    /\ Forall2 (fun config l => exists w', l = log (applyConfig namespace config w'))
         items runs.
Proof.
  induction items as [|config rest IH]; intros w.
  - exists []. split; [done | constructor].
  - simpl. rewrite log_bind.
    destruct (IH (world (applyConfig namespace config w))) as (runs & Hlog & Hall).
    exists (log (applyConfig namespace config w) :: runs). split.
    + simpl. f_equal. exact Hlog.
    + constructor; [by eexists | done].
Qed.

(** C10. On a create/update event (the namespace is fetched) with the
    declarations listed, Reconcile returns the empty result and a nil
    error whatever applying or cleaning up returns.  Its log is the
    fetch, the list, one run per listed declaration in order, and the
    health checker's RecordReconcile at the end; a run whose match fails
    is the log line carrying that error, and a run whose apply or cleanup
    fails ends with the log line carrying that error. *)
Theorem C10_namespace_event_always_succeeds req namespace items (w w1 w2 : W) :
  clGet KNamespace req w = (inr namespace, w1) ->
  clList KConfig w1 = (inr items, w2) ->
  result (Reconcile req w) = (emptyResult, None)
  /\ last (log (Reconcile req w)) = Some (EvHealth RecordReconcile)
  /\ (exists runs,
        log (Reconcile req w)
        = [EvGet KNamespace req None;
           EvLogInfo "Processing namespace create/update event" "";
           EvList KConfig None]
          ++ concat runs ++ [EvHealth RecordReconcile]
        /\ Forall2 (fun config l => exists w', l = log (applyConfig namespace config w'))
             items runs)
  /\ (forall config w' e,
        (forall matched,
           utils.NamespaceMatches namespace (specSelector (Spec config))
           = (matched, Some e) ->
           log (applyConfig namespace config w')
           = [EvLogError "Failed to check namespace match" (Name (cfgMeta config)) e])
        /\
        (utils.NamespaceMatches namespace (specSelector (Spec config)) = (true, None) ->
         result (rbac.ApplyRBACForNamespace namespace config w') = Some e ->
         last (log (applyConfig namespace config w'))
         = Some (EvLogError "Failed to apply RBAC" (Name (cfgMeta config)) e))
        /\ (utils.NamespaceMatches namespace (specSelector (Spec config)) = (false, None) ->
            result (rbac.CleanupRBACForNamespace (Name (nsMeta namespace)) config w')
            = Some e ->
            last (log (applyConfig namespace config w'))
            = Some (EvLogError "Failed to cleanup RBAC" (Name (cfgMeta config)) e))).
Proof.
  intros Hget Hlist.
  assert (Get KNamespace req w = (inr namespace, w1, [EvGet KNamespace req None])) as Eget.
  { unfold Get. by rewrite Hget. }
  assert (List KConfig w1 = (inr items, w2, [EvList KConfig None])) as Elist.
  { unfold List. by rewrite Hlist. }
  destruct (applyConfigs_runs namespace items w2) as (runs & Hruns & Hall).
  assert (Reconcile req w
          = (emptyResult, None,
             world (applyConfigs namespace items w2),
             [EvGet KNamespace req None;
              EvLogInfo "Processing namespace create/update event" "";
              EvList KConfig None] ++ concat runs ++ [EvHealth RecordReconcile]))
    as Hrun.
  { unfold Reconcile. rewrite (bind_run _ _ _ _ _ _ Eget).
    unfold handleNamespaceCreateOrUpdate, logInfo.
    rewrite (bind_run (emit _) _ w1 tt w1 [_] eq_refl).
    rewrite (bind_run _ _ _ _ _ _ Elist).
    destruct (applyConfigs namespace items w2) as [[[] w3] l3] eqn:Eapply.
    rewrite (bind_run _ _ _ _ _ _ Eapply).
    unfold health. rewrite (bind_run (emit _) _ w3 tt w3 [_] eq_refl).
    unfold log in Hruns. simpl in Hruns. subst l3.
    unfold result, world, log, ret. simpl. by rewrite ?app_nil_r. }
  split; [by rewrite Hrun|]. split.
  { rewrite Hrun. unfold log. simpl. rewrite !app_comm_cons. apply last_snoc. }
  split; [exists runs; by rewrite Hrun|].
  intros config w' e. rewrite applyConfig_log. split; [|split].
  - intros matched ->. by destruct matched.
  - intros -> Hres. rewrite Hres, app_comm_cons. apply last_snoc.
  - intros -> Hres. rewrite Hres, app_comm_cons. apply last_snoc.
Qed.

End NamespaceClaims.

(** ** The claims on concrete inputs *)

Section Examples.
Import testing samples template texttemplate rbac runs.

(** Rule merging twice is not rule merging once. *)
Lemma C1_counterexample :
  mergeRules (mergeRules [podsGet] [deploymentsCreate]) [deploymentsCreate]
  <> mergeRules [podsGet] [deploymentsCreate].
Proof. discriminate. Qed.

Lemma C1_witness :
  mergeSubjects (mergeSubjects [group "developers"] [group "admins"; group "developers"])
    [group "admins"; group "developers"]
  ≡ₚ mergeSubjects [group "developers"] [group "admins"; group "developers"]
  /\ NoDup (subjectKey <$>
            mergeSubjects
              (mergeSubjects [group "developers"] [group "admins"; group "developers"])
              [group "admins"; group "developers"]).
Proof.
  apply (proj2 C1_merge_twice [group "developers"] [group "admins"; group "developers"]).
  - unfold mergeSubjectsResult. reflexivity.
  - unfold mergeSubjectsResult. reflexivity.
Defined.

(** Scenarios C and D of the end-to-end tests. *)
Example merge_rules_existing_first :
  mergeRules [podsGet] [deploymentsCreate] = [podsGet; deploymentsCreate].
Proof. reflexivity. Qed.

Example merge_subjects_deduplicates :
  length (mergeSubjects [group "developers"] [group "admins"; group "developers"]) = 2%nat.
Proof. vm_compute. reflexivity. Qed.

(** A ClusterRole generated for namespace [dev] carries the namespace label. *)
Lemma C3_counterexample :
  existsb (writesClusterRoleLabelled NamespaceLabel "dev")
    (log (ApplyRBACForNamespace devNamespace clusterConfig emptyStore)) = true.
Proof. vm_compute. reflexivity. Qed.

Lemma C3_witness :
  mergeLabels None clusterConfig "dev" !! NamespaceLabel = Some "dev".
Proof.
  apply (proj1 (C3_namespace_label_on_all_kinds (W:=Store))). discriminate.
Defined.

Example template_cannot_override_owner_label :
  let labels :=
    mergeLabels (Some {[ OwnerLabel := "someone-else"; "custom" := "value" ]})
      clusterConfig "dev" in
  labels !! OwnerLabel = Some "namespace-rbac-operator"
  /\ labels !! ConfigLabel = Some "cluster-readers"
  /\ labels !! NamespaceLabel = Some "dev"
  /\ labels !! "custom" = Some "value".
Proof. vm_compute. done. Qed.

Lemma C4_witness :
  utils.NamespaceMatches (platformNamespace "e2e-dev-system") scenarioSelector
  = (false, None).
Proof.
  apply C4_exclusion_and_inclusion. left. simpl. apply list_elem_of_here.
Defined.

Example scenario_A_matches :
  utils.NamespaceMatches (platformNamespace "e2e-staging-app") scenarioSelector
  = (true, None).
Proof. vm_compute. reflexivity. Qed.

(** A not-found fetch error, which is no conflict, is not returned: the
    role is created and the call succeeds. *)
Lemma C5_counterexample :
  exists e,
    log (createOrUpdateRole newRole mergeConfig emptyStore)
    = [EvGet KRole (keyOf (roleMeta newRole)) (Some e); EvCreate (ORole newRole) None]
    /\ IsConflict (Some e) = false
    /\ result (createOrUpdateRole newRole mergeConfig emptyStore) = None.
Proof.
  exists (APIStatus StatusReasonNotFound "not found"). vm_compute. done.
Qed.

(** Against a cluster where every update loses to a concurrent writer the
    protocol gives up after three fetches and three updates. *)
Lemma C5_witness :
  (length (List.filter (isGet KRole)
             (log (createOrUpdateRole newRole mergeConfig
                     contendedStore))) <= 3)%nat
  /\ result (createOrUpdateRole newRole mergeConfig contendedStore)
     = Some (ErrorNew "failed to update role after 3 retries due to conflicts").
Proof.
  pose proof (C5_bounded_conflict_retry mergeConfig contendedStore)
    as (Hrole & _ & _ & _ & Hfacts & _).
  specialize (Hrole newRole). apply Hfacts in Hrole as (Hgets & _ & _ & Hexhausted).
  split; [exact Hgets|]. apply Hexhausted. vm_compute. reflexivity.
Defined.



(** The template tests of the repository. *)
Example template_namespace_name :
  ProcessTemplate "role-{{.Namespace.Name}}" testContext = ("role-test-ns", None).
Proof. vm_compute. reflexivity. Qed.

Example template_custom_variable :
  ProcessTemplate "{{.Namespace.Name}}-{{.CustomVars.env}}" testContext
  = ("test-ns-production", None).
Proof. vm_compute. reflexivity. Qed.

Example template_helper_functions :
  ProcessTemplate (getOrDefaultTemplate "existing") testContext = ("value", None)
  /\ ProcessTemplate (getOrDefaultTemplate "missing") testContext = ("default", None)
  /\ ProcessTemplate (hasKeyTemplate "existing") testContext = ("found", None)
  /\ ProcessTemplate (hasKeyTemplate "missing") testContext = ("notfound", None)
  /\ ProcessTemplate defaultTemplate testContext = ("prod", None).
Proof. vm_compute. done. Qed.

Example validate_unknown_field : ValidateTemplate "{{.Invalid}}" = None.
Proof. vm_compute. reflexivity. Qed.

Example validate_syntax_error :
  ValidateTemplate "{{.Namespace.Name" = Some (ErrorNew "template: unclosed action").
Proof. vm_compute. reflexivity. Qed.



(** The existing role keeps its single rule although the new one differs. *)
Lemma C8_witness :
  createOrUpdateRole newRole ignoreConfig roleStore
  = (None, roleStore,
     [EvGet KRole (keyOf (roleMeta newRole)) None;
      EvMetric (RecordConflictResolution "keep" "ignore" "role")]).
Proof.
  apply (proj1 (C8_ignore_leaves_existing_untouched ignoreConfig eq_refl)
           newRole existingRole roleStore roleStore).
  vm_compute. reflexivity.
Defined.

Example merge_strategy_appends_rules :
  storedRules (world (createOrUpdateRole newRole mergeConfig roleStore))
    (keyOf (roleMeta newRole))
  = [podsGet; deploymentsCreate].
Proof. vm_compute. reflexivity. Qed.

(** Applying the same role a second time under [merge] stores its rule twice. *)
Example merge_strategy_twice_duplicates_rules :
  storedRules
    (world (createOrUpdateRole newRole mergeConfig
              (world (createOrUpdateRole newRole mergeConfig roleStore))))
    (keyOf (roleMeta newRole))
  = [podsGet; deploymentsCreate; deploymentsCreate].
Proof. vm_compute. reflexivity. Qed.

(** The merge branch overwrites the caller's rules, so the pass after a
    conflict merges the existing rules into the already merged ones. *)
Example retry_after_conflict_merges_again :
  storedRules (world (createOrUpdateRole newRole mergeConfig conflictOnceStore))
    (keyOf (roleMeta newRole))
  = [podsGet; podsGet; deploymentsCreate].
Proof. vm_compute. reflexivity. Qed.

Lemma C9_witness :
  (utils.NamespaceMatches devNamespace emptyRequirement).1 = false.
Proof.
  apply C9_nil_metadata_map_never_matches. left. split; [by eexists | reflexivity].
Defined.

(** The declaration's role template reads a label the namespace lacks, so
    applying it fails; the reconcile still succeeds. *)
Lemma C10_witness :
  result (namespace.Reconcile devRequest brokenStore) = (emptyResult, None)
  /\ last (log (namespace.Reconcile devRequest brokenStore))
     = Some (EvHealth RecordReconcile).
Proof.
  destruct (C10_namespace_event_always_succeeds devRequest devNamespace [brokenConfig]
              brokenStore brokenStore brokenStore)
    as (Hres & Hlast & _).
  - vm_compute. reflexivity.
  - vm_compute. reflexivity.
  - by split.
Defined.

Example apply_failure_is_logged :
  existsb (isApplyFailure "broken") (log (namespace.Reconcile devRequest brokenStore))
  = true.
Proof. vm_compute. reflexivity. Qed.

End Examples.

(** ** The helpers of package utils *)

Section HelperProofs.
Import utils.

Lemma copyInto_lookup (source : option strmap) (result : strmap) (k : string) :
  copyInto source result !! k =
  match default ∅ source !! k with
  | Some v => Some v
  | None => result !! k
  end.
Proof.
  destruct source as [m|]; simpl; [|by rewrite lookup_empty].
  apply (map_fold_weak_ind
           (fun r m => r !! k = match m !! k with Some v => Some v | None => result !! k end)).
  - by rewrite lookup_empty.
  - intros i x m' r Hi IH. destruct (decide (i = k)) as [->|Hne].
    + by rewrite !lookup_insert_eq.
    + by rewrite !lookup_insert_ne.
Qed.

Lemma copyInto_empty (source : option strmap) :
  copyInto source ∅ = default ∅ source.
Proof.
  apply map_eq. intros k. rewrite copyInto_lookup, lookup_empty.
  by destruct (default ∅ source !! k).
Qed.

Lemma MergeMaps_lookup (map1 map2 : option strmap) (k : string) :
  MergeMaps map1 map2 !! k =
  match default ∅ map2 !! k with
  | Some v => Some v
  | None => default ∅ map1 !! k
  end.
Proof.
  unfold MergeMaps. rewrite copyInto_lookup, copyInto_empty. done.
Qed.

(** X1. MergeMaps and CopyMap.  In the merged map an entry of the second map
    is kept as it is, and a key the second map lacks has the value the
    first map gives it, if any, a nil map counting as empty; so merging
    a map with nil on either side, or with itself, gives its entries
    again.  CopyMap returns nil for nil and otherwise a map with exactly
    the entries of the original. *)
Theorem MergeMaps_second_wins_CopyMap_keeps (map1 map2 : option strmap) :
  (forall k,
     MergeMaps map1 map2 !! k =
     match default ∅ map2 !! k with
     | Some v => Some v
     | None => default ∅ map1 !! k
     end)
  /\ MergeMaps map1 None = default ∅ map1
  /\ MergeMaps None map1 = default ∅ map1
  /\ MergeMaps map1 map1 = default ∅ map1
  /\ CopyMap map1 = map1.
Proof.
  split; [apply MergeMaps_lookup|]. split; [|split; [|split]].
  - apply map_eq. intros k. rewrite MergeMaps_lookup. simpl.
    by rewrite lookup_empty.
  - apply map_eq. intros k. rewrite MergeMaps_lookup. simpl.
    rewrite lookup_empty. by destruct (default ∅ map1 !! k).
  - apply map_eq. intros k. rewrite MergeMaps_lookup.
    by destruct (default ∅ map1 !! k).
  - destruct map1 as [m|]; [|done]. unfold CopyMap.
    by rewrite copyInto_empty.
Qed.

Lemma hasAll_spec (target required : strmap) :
  hasAll target required = true <->
  forall k v, required !! k = Some v -> target !! k = Some v.
Proof.
  unfold hasAll. rewrite forallb_forall. split.
  - intros Hall k v Hk.
    specialize (Hall (k, v)). simpl in Hall.
    eapply bool_decide_eq_true_1, Hall, list_elem_of_In.
    by apply elem_of_map_to_list.
  - intros Hall [k v] Hin. simpl. apply bool_decide_eq_true_2, Hall.
    by apply elem_of_map_to_list, list_elem_of_In.
Qed.

(** X2. MapContainsAll holds exactly when every entry of the required map is
    an entry of the target map, a nil map counting as empty. *)
Theorem MapContainsAll_iff_entries (target required : option strmap) :
  MapContainsAll target required = true <->
  forall k v, default ∅ required !! k = Some v -> default ∅ target !! k = Some v.
Proof.
  unfold MapContainsAll. destruct required as [req|]; simpl.
  - destruct target as [tgt|]; simpl; [apply hasAll_spec|].
    rewrite Nat.eqb_eq, map_size_empty_iff. split.
    + intros -> k v. by rewrite lookup_empty.
    + intros Hall. apply map_empty. intros k.
      destruct (req !! k) as [v|] eqn:Hk; [|done].
      specialize (Hall k v Hk). by rewrite lookup_empty in Hall.
  - split; [|done]. intros _ k v. by rewrite lookup_empty.
Qed.

Lemma SliceContains_elem (slice : list string) (item : string) :
  SliceContains slice item = true <-> item ∈ slice.
Proof.
  induction slice as [|s rest IH]; simpl.
  - split; [done | by intros ?%elem_of_nil].
  - case_bool_decide as Hs.
    + subst. split; [intros _; apply list_elem_of_here | done].
    + rewrite IH. split; [by apply list_elem_of_further|].
      intros [?|?]%elem_of_cons; [congruence | done].
Qed.

Lemma removeLoop_filter (slice : list string) (item : string) : forall result,
  removeLoop slice item result = result ++ filter (fun s => s <> item) slice.
Proof.
  induction slice as [|s rest IH]; intros result; simpl.
  - by rewrite filter_nil, app_nil_r.
  - rewrite filter_cons. destruct (decide (s <> item)) as [Hs|Hs].
    + rewrite bool_decide_eq_true_2 by done. rewrite IH. by rewrite <- app_assoc.
    + rewrite bool_decide_eq_false_2 by done. apply IH.
Qed.

Lemma RemoveFromSlice_filter (slice : list string) (item : string) :
  RemoveFromSlice slice item = filter (fun s => s <> item) slice.
Proof. unfold RemoveFromSlice. by rewrite removeLoop_filter. Qed.

(** X3. SliceContains is membership.  RemoveFromSlice keeps the other items
    in their order and multiplicity and drops every occurrence of the
    item: afterwards the slice no longer contains it, it contains every
    other string exactly when it did before, and a slice without the item
    is returned as it was. *)
Theorem RemoveFromSlice_removes_item_only (slice : list string) (item : string) :
  (SliceContains slice item = true <-> item ∈ slice)
  /\ RemoveFromSlice slice item = filter (fun s => s <> item) slice
  /\ SliceContains (RemoveFromSlice slice item) item = false
  /\ (forall other, other <> item ->
        SliceContains (RemoveFromSlice slice item) other = SliceContains slice other)
  /\ (SliceContains slice item = false -> RemoveFromSlice slice item = slice).
Proof.
  split; [apply SliceContains_elem|]. split; [apply RemoveFromSlice_filter|].
  rewrite RemoveFromSlice_filter. split; [|split].
  - apply not_true_iff_false. rewrite SliceContains_elem, list_elem_of_filter.
    by intros [? _].
  - intros other Hne.
    apply eq_true_iff_eq. rewrite !SliceContains_elem, list_elem_of_filter.
    intuition congruence.
  - intros Hno. apply not_true_iff_false in Hno. rewrite SliceContains_elem in Hno.
    induction slice as [|s rest IH]; [done|].
    rewrite filter_cons. apply not_elem_of_cons in Hno as [Hne Hrest].
    rewrite decide_True by done. by rewrite IH.
Qed.

Lemma uniqueLoop_filter (n : nat) : forall slice seen result,
  (length slice <= n)%nat ->
  (forall item, default false (seen !! item) = true <-> item ∈ result) ->
  uniqueLoop slice seen result
  = result ++ uniqueLoop (filter (fun item => item ∉ result) slice) ∅ [].
Proof.
  induction n as [|n IH]; intros slice seen result Hlen Hseen.
  - destruct slice; [|simpl in Hlen; lia]. by rewrite filter_nil, app_nil_r.
  - destruct slice as [|item rest]; [by rewrite filter_nil, app_nil_r|].
    simpl in Hlen. simpl. rewrite filter_cons.
    destruct (default false (seen !! item)) eqn:Hitem; simpl.
    + apply Hseen in Hitem. rewrite decide_False by (by intros ?).
      apply IH; [lia | done].
    + assert (item ∉ result) as Hnot.
      { intros Hin. apply Hseen in Hin. congruence. }
      rewrite decide_True by done. simpl. rewrite lookup_empty. simpl.
      rewrite (IH rest (<[item := true]> seen) (result ++ [item])); [|lia|].
      2:{ intros x. rewrite elem_of_app, list_elem_of_singleton.
          destruct (decide (x = item)) as [->|Hne].
          - rewrite lookup_insert_eq. simpl. intuition congruence.
          - rewrite lookup_insert_ne by done. rewrite Hseen. intuition congruence. }
      rewrite (IH (filter (fun x => x ∉ result) rest) (<[item := true]> ∅) [item]).
      2:{ etrans; [apply length_filter|]. lia. }
      2:{ intros x. rewrite list_elem_of_singleton.
          destruct (decide (x = item)) as [->|Hne].
          - rewrite lookup_insert_eq. simpl. intuition congruence.
          - rewrite lookup_insert_ne, lookup_empty by done. simpl. intuition congruence. }
      rewrite <- app_assoc. simpl. do 3 f_equal.
      rewrite list_filter_filter. apply list_filter_iff.
      intros x. rewrite elem_of_app. intuition congruence.
Qed.

Lemma UniqueSlice_cons (item : string) (rest : list string) :
  UniqueSlice (item :: rest) = item :: UniqueSlice (RemoveFromSlice rest item).
Proof.
  unfold UniqueSlice. simpl. rewrite lookup_empty. simpl.
  rewrite (uniqueLoop_filter (length rest) rest (<[item := true]> ∅) [item]); [|done|].
  - simpl. f_equal. rewrite RemoveFromSlice_filter. f_equal.
    apply list_filter_iff. intros x. by rewrite list_elem_of_singleton.
  - intros x. rewrite list_elem_of_singleton.
    destruct (decide (x = item)) as [->|Hne].
    + rewrite lookup_insert_eq. simpl. intuition congruence.
    + rewrite lookup_insert_ne, lookup_empty by done. simpl. intuition congruence.
Qed.

Lemma UniqueSlice_elem_NoDup (n : nat) : forall slice,
  (length slice <= n)%nat ->
  NoDup (UniqueSlice slice) /\ forall item, item ∈ UniqueSlice slice <-> item ∈ slice.
Proof.
  induction n as [|n IH]; intros slice Hlen.
  - destruct slice; [|simpl in Hlen; lia]. split; [constructor | done].
  - destruct slice as [|x rest]; [split; [constructor | done]|].
    simpl in Hlen. rewrite UniqueSlice_cons.
    destruct (IH (RemoveFromSlice rest x)) as [Hnd Hin].
    { rewrite RemoveFromSlice_filter. etrans; [apply length_filter|]. lia. }
    split.
    + constructor; [|done]. rewrite Hin, RemoveFromSlice_filter, list_elem_of_filter.
      by intros [? _].
    + intros item. rewrite !elem_of_cons, Hin, RemoveFromSlice_filter, list_elem_of_filter.
      destruct (decide (item = x)); intuition congruence.
Qed.

Lemma UniqueSlice_NoDup_id (slice : list string) :
  NoDup slice -> UniqueSlice slice = slice.
Proof.
  induction 1 as [|x rest Hx Hnd IH]; [done|].
  rewrite UniqueSlice_cons, RemoveFromSlice_filter. f_equal.
  rewrite <- IH at 2. f_equal.
  clear IH Hnd. induction rest as [|y rest IH]; [done|].
  apply not_elem_of_cons in Hx as [Hne Hrest].
  rewrite filter_cons, decide_True by done. by rewrite IH.
Qed.

(** X4. UniqueSlice returns the distinct strings of the slice, each once, in
    the order of their first occurrence: the result has no duplicates and
    the same members as the input; the first item stays first and the
    rest is the result for the remaining items without it; a slice
    without duplicates is returned as it was, so applying the function
    twice changes nothing. *)
Theorem UniqueSlice_first_occurrences (slice : list string) :
  NoDup (UniqueSlice slice)
  /\ (forall item, item ∈ UniqueSlice slice <-> item ∈ slice)
  /\ (forall item rest,
        UniqueSlice (item :: rest) = item :: UniqueSlice (RemoveFromSlice rest item))
  /\ (NoDup slice -> UniqueSlice slice = slice)
  /\ UniqueSlice (UniqueSlice slice) = UniqueSlice slice.
Proof.
  destruct (UniqueSlice_elem_NoDup (length slice) slice (le_n _)) as [Hnd Hin].
  split; [done|]. split; [done|]. split; [apply UniqueSlice_cons|].
  split; [apply UniqueSlice_NoDup_id|]. by apply UniqueSlice_NoDup_id.
Qed.

End HelperProofs.

(** ** The selector, criterion by criterion *)

Section SelectorCriteria.
Import utils.
Context `{RegexpLib}.

Lemma not_excluded_iff (name : string) (l : list string) :
  existsb (fun x => bool_decide (name = x)) l = false <-> name ∉ l.
Proof.
  rewrite <- not_true_iff_false, existsb_name_elem. done.
Qed.

Lemma inclusion_passes_iff (name : string) (l : list string) :
  (0 <? length l)%nat && negb (existsb (fun x => bool_decide (name = x)) l) = false
  <-> l = [] \/ name ∈ l.
Proof.
  destruct l as [|x l]; simpl; [by split; [left|]|].
  rewrite negb_false_iff.
  change (bool_decide (name = x) || existsb (fun x => bool_decide (name = x)) l)
    with (existsb (fun x => bool_decide (name = x)) (x :: l)).
  rewrite existsb_name_elem. split; [by right | by intros [?|?]].
Qed.

Lemma requirement_passes_iff (required have : option strmap) :
  match required with
  | Some required =>
      match have with
      | None => false
      | Some have => hasAll have required
      end
  | None => true
  end = true
  <-> forall req, required = Some req ->
        exists hv, have = Some hv /\ forall k v, req !! k = Some v -> hv !! k = Some v.
Proof.
  destruct required as [req|]; [|by split].
  destruct have as [hv|].
  - rewrite hasAll_spec. split.
    + intros Hall ? [= <-]. by exists hv.
    + intros Hall. destruct (Hall req eq_refl) as (hv' & [= <-] & Hk). done.
  - split; [done|]. intros Hall. by destruct (Hall req eq_refl) as (? & ? & _).
Qed.

(** X5. NamespaceMatches answers (true, nil) exactly when all five criteria
    pass: the name is not excluded; the include list is empty or holds
    the name; a NameRegex that is set and not empty compiles and matches
    the name; when required annotations are set, the namespace has an
    annotation map holding each of them with the same value; and the same
    for required labels. *)
Theorem NamespaceMatches_true_iff_all_criteria ns selector :
  NamespaceMatches ns selector = (true, None) <->
  (Name (nsMeta ns) ∉ ExcludeNamespaces selector)
  /\ (IncludeNamespaces selector = []
      \/ Name (nsMeta ns) ∈ IncludeNamespaces selector)
  /\ (forall re, NameRegex selector = Some re -> re <> "" ->
        exists r, Compile re = inr r /\ reMatchString r (Name (nsMeta ns)) = true)
  /\ (forall required, selAnnotations selector = Some required ->
        exists have, Annotations (nsMeta ns) = Some have
                     /\ forall k v, required !! k = Some v -> have !! k = Some v)
  /\ (forall required, selLabels selector = Some required ->
        exists have, Labels (nsMeta ns) = Some have
                     /\ forall k v, required !! k = Some v -> have !! k = Some v).
Proof.
  rewrite <- not_excluded_iff, <- inclusion_passes_iff, <- !requirement_passes_iff.
  unfold NamespaceMatches, MatchString.
  destruct (existsb _ (ExcludeNamespaces selector)); [by split; [|intros [? _]]|].
  destruct ((0 <? length (IncludeNamespaces selector))%nat && _);
    [by split; [|intros (_ & ? & _)]|].
  destruct (NameRegex selector) as [re|].
  - case_bool_decide as Hre.
    + destruct (Compile re) as [e|r] eqn:Hc.
      { split; [done|]. intros (_ & _ & Hr & _).
        destruct (Hr re eq_refl Hre) as (r & ? & _). congruence. }
      destruct (reMatchString r (Name (nsMeta ns))) eqn:Hm.
      * destruct (match selAnnotations selector with Some _ => _ | None => _ end);
          simpl; [|by split; [|intros (_ & _ & _ & ? & _)]].
        destruct (match selLabels selector with Some _ => _ | None => _ end);
          simpl; [|by split; [|intros (_ & _ & _ & _ & ?)]].
        split; [|done]. intros _. repeat (split; [done|]). split; [|done].
        intros ? [= <-] _. by exists r.
      * split; [done|]. intros (_ & _ & Hr & _).
        destruct (Hr re eq_refl Hre) as (r' & ? & ?). congruence.
    + destruct (match selAnnotations selector with Some _ => _ | None => _ end);
        simpl; [|by split; [|intros (_ & _ & _ & ? & _)]].
      destruct (match selLabels selector with Some _ => _ | None => _ end);
        simpl; [|by split; [|intros (_ & _ & _ & _ & ?)]].
      split; [|done]. intros _. repeat (split; [done|]). split; [|done].
      intros ? [= <-] Hne. by destruct Hre.
  - destruct (match selAnnotations selector with Some _ => _ | None => _ end);
      simpl; [|by split; [|intros (_ & _ & _ & ? & _)]].
    destruct (match selLabels selector with Some _ => _ | None => _ end);
      simpl; [|by split; [|intros (_ & _ & _ & _ & ?)]].
    split; [|done]. intros _. repeat (split; [done|]). by split.
Qed.

(** X6. NamespaceMatches returns an error exactly when the name passes the
    exclude and include lists and the NameRegex is set, not empty and
    does not compile; the error is the one of the compilation and the
    answer beside it is false.  An excluded namespace, or one missing
    from a non-empty include list, never sees the error of a bad
    pattern. *)
Theorem NamespaceMatches_error_iff_bad_pattern ns selector matched e :
  NamespaceMatches ns selector = (matched, Some e) <->
  matched = false
  /\ (Name (nsMeta ns) ∉ ExcludeNamespaces selector)
  /\ (IncludeNamespaces selector = []
      \/ Name (nsMeta ns) ∈ IncludeNamespaces selector)
  /\ exists re, NameRegex selector = Some re /\ re <> "" /\ Compile re = inl e.
Proof.
  rewrite <- not_excluded_iff, <- inclusion_passes_iff.
  unfold NamespaceMatches, MatchString.
  destruct (existsb _ (ExcludeNamespaces selector)); [by split; [|intros (_ & ? & _)]|].
  destruct ((0 <? length (IncludeNamespaces selector))%nat && _);
    [by split; [|intros (_ & _ & ? & _)]|].
  assert (forall b1 b2 : bool,
            (if negb b1 then (false, None) else
               if negb b2 then (false, None) else (true, @None error))
            <> (matched, Some e)) as Hrest.
  { by intros [] []. }
  destruct (NameRegex selector) as [re|].
  - case_bool_decide as Hre.
    + destruct (Compile re) as [e'|r] eqn:Hc.
      * split.
        -- intros [= <- <-]. repeat (split; [done|]). by exists re.
        -- intros (-> & _ & _ & re' & [= <-] & _ & He). congruence.
      * destruct (reMatchString r (Name (nsMeta ns))).
        -- split; [by intros ?%Hrest|].
           intros (_ & _ & _ & re' & [= <-] & _ & He). congruence.
        -- split; [done|].
           intros (_ & _ & _ & re' & [= <-] & _ & He). congruence.
    + split; [by intros ?%Hrest|].
      intros (_ & _ & _ & re' & [= <-] & Hne & _). by destruct Hre.
  - split; [by intros ?%Hrest|]. by intros (_ & _ & _ & re' & ? & _).
Qed.

End SelectorCriteria.

(** ** The health checker *)

Section HealthProofs.
Import gotime.
Local Open Scope Z_scope.

Lemma Sub_over_five_minutes (t u : Time) :
  (5 * Minute <? Sub t u) = (5 * Minute <? t - u).
Proof.
  unfold Sub, minDuration, maxDuration, Minute, Second.
  change (2 ^ 63) with 9223372036854775808.
  repeat match goal with
         | |- context [if ?a <? ?b then _ else _] => destruct (Z.ltb_spec a b)
         end; [| |done];
    (destruct (Z.ltb_spec (5 * (60 * 1000000000)) (t - u));
     [apply Z.ltb_lt | apply Z.ltb_ge]; lia).
Qed.

Lemma Unix_floor (t : Time) :
  Unix t * Second <= t < Unix t * Second + Second.
Proof.
  unfold Unix, Second.
  pose proof (Z.mul_div_le t 1000000000).
  pose proof (Z.mul_succ_div_gt t 1000000000). lia.
Qed.

Lemma IsHealthy_run (now : Time) (c : health.Checker) :
  exists l,
    health.IsHealthy now c
    = (bool_decide (health.healthy c <> 0
                    /\ now - health.lastReconcile c * Second <= 5 * Minute), c, l).
Proof.
  unfold health.IsHealthy, bind, health.LoadHealthy, health.LoadLastReconcile, ret.
  case_bool_decide as Hh; simpl.
  - eexists. rewrite bool_decide_eq_false_2; [done | by intros [? _]].
  - rewrite Sub_over_five_minutes. unfold FromUnix.
    destruct (5 * Minute <? now - health.lastReconcile c * Second) eqn:Hlt; simpl.
    + apply Z.ltb_lt in Hlt. eexists.
      rewrite bool_decide_eq_false_2; [done | intros [_ ?]; lia].
    + apply Z.ltb_ge in Hlt. eexists. by rewrite bool_decide_eq_true_2.
Qed.

Lemma LivenessCheck_run (now : Time) (c : health.Checker) :
  world (health.LivenessCheck now c) = c
  /\ (result (health.LivenessCheck now c) = None
      <-> result (health.IsHealthy now c) = true).
Proof.
  unfold health.LivenessCheck, bind.
  destruct (IsHealthy_run now c) as [l ->]. unfold result, world. simpl.
  by destruct (bool_decide _).
Qed.

Lemma RecordReconcile_run (now : Time) (c : health.Checker) :
  health.RecordReconcile now c
  = (tt, {| health.ready := health.ready c; health.healthy := 1;
            health.lastReconcile := Unix now |},
     [EvMetric (SetOperatorHealth "health_checker" true)]).
Proof. done. Qed.

(** X7. After RecordReconcile, or SetHealthy(true), at instant t the checker
    is healthy at t' exactly while t' is at most five minutes after the
    start of the second that holds t, the stored time being cut to whole
    seconds.  So it is healthy whenever t' is at most 299 seconds after
    t, and unhealthy whenever t' is more than five minutes after t. *)
Theorem healthy_for_five_minutes_after_reconcile (t t' : Time) (c : health.Checker) :
  health.SetHealthy t true c = health.RecordReconcile t c
  /\ (result (health.IsHealthy t' (world (health.RecordReconcile t c))) = true
      <-> t' - Unix t * Second <= 5 * Minute)
  /\ (t' - t <= 299 * Second ->
      result (health.IsHealthy t' (world (health.RecordReconcile t c))) = true)
  /\ (5 * Minute < t' - t ->
      result (health.IsHealthy t' (world (health.RecordReconcile t c))) = false).
Proof.
  split; [done|].
  rewrite RecordReconcile_run. unfold world at 1 2 3. simpl.
  destruct (IsHealthy_run t'
              {| health.ready := health.ready c; health.healthy := 1;
                 health.lastReconcile := Unix t |}) as [l ->].
  unfold result. simpl. pose proof (Unix_floor t) as Hfloor.
  unfold Minute, Second in *.
  split; [|split].
  - rewrite bool_decide_eq_true. split; [by intros [_ ?] | by split].
  - intros Hle. apply bool_decide_eq_true_2. split; [done | lia].
  - intros Hlt. apply bool_decide_eq_false_2. intros [_ ?]. lia.
Qed.

(** X8. ReadinessCheck passes exactly when the ready flag is set and
    LivenessCheck passes at the same instant; neither check changes the
    checker.  A new checker passes the liveness check at the instant of
    its creation and fails the readiness check at every instant. *)
Theorem ReadinessCheck_iff_ready_and_live (now : Time) (c : health.Checker) :
  (result (health.ReadinessCheck now c) = None
   <-> health.ready c = 1 /\ result (health.LivenessCheck now c) = None)
  /\ world (health.ReadinessCheck now c) = c
  /\ world (health.LivenessCheck now c) = c
  /\ result (health.LivenessCheck now (health.NewChecker now)) = None
  /\ (forall created,
        result (health.ReadinessCheck now (health.NewChecker created))
        = Some (ErrorNew "operator not ready")).
Proof.
  destruct (LivenessCheck_run now c) as [Hw Hlive].
  split; [|split; [|split; [done|split]]].
  - rewrite Hlive. destruct (IsHealthy_run now c) as [l Hrun].
    unfold health.ReadinessCheck, health.IsReady, health.LoadReady, bind, ret.
    unfold result. simpl.
    destruct (bool_decide (health.ready c = 1)) eqn:Hr; simpl.
    2:{ apply bool_decide_eq_false in Hr. split; [done | by intros [? _]]. }
    apply bool_decide_eq_true in Hr.
    rewrite Hrun. simpl.
    destruct (bool_decide (_ /\ _)); simpl; (split; [done | by intros [_ ?]]).
  - destruct (IsHealthy_run now c) as [l Hrun].
    unfold health.ReadinessCheck, health.IsReady, health.LoadReady, bind, ret.
    unfold world. simpl.
    destruct (bool_decide (health.ready c = 1)); simpl; [|done].
    rewrite Hrun. simpl. by destruct (bool_decide (_ /\ _)).
  - apply LivenessCheck_run.
    destruct (IsHealthy_run now (health.NewChecker now)) as [l ->].
    unfold result. simpl. apply bool_decide_eq_true_2. split; [done|].
    pose proof (Unix_floor now). unfold Minute, Second in *. lia.
  - intros created. done.
Qed.

(** X9. After SetHealthy(false) the checker is unhealthy at every instant,
    whatever SetReady is told afterwards, and the time of the last
    reconcile is kept; the next RecordReconcile makes it healthy again
    at once. *)
Theorem unhealthy_until_next_reconcile (now t : Time) (b : bool) (c : health.Checker) :
  result (health.IsHealthy t (world (health.SetHealthy now false c))) = false
  /\ result (health.IsHealthy t
               (world (health.SetReady b (world (health.SetHealthy now false c)))))
     = false
  /\ health.lastReconcile (world (health.SetHealthy now false c))
     = health.lastReconcile c
  /\ result (health.IsHealthy t
               (world (health.RecordReconcile t
                         (world (health.SetHealthy now false c))))) = true.
Proof.
  split; [done|]. split; [by destruct b|]. split; [done|].
  rewrite RecordReconcile_run. unfold world at 1. simpl.
  match goal with
  | |- result (health.IsHealthy t ?c1) = true =>
      destruct (IsHealthy_run t c1) as [l ->]
  end.
  unfold result. simpl. apply bool_decide_eq_true_2. split; [done|].
  pose proof (Unix_floor t). unfold Minute, Second in *. lia.
Qed.

End HealthProofs.

(** ** The template engine on maps, subjects and contexts *)

Section EngineProofs.
Import texttemplate template rbac.
Context `{Lib}.

Lemma processEntries_ok entries ctx : forall result,
  (forall k v, (k, v) ∈ entries -> (ProcessTemplate v ctx).2 = None) ->
  processEntries entries ctx result
  = (Some (foldl (fun acc kv => <[kv.1 := (ProcessTemplate kv.2 ctx).1]> acc)
             result entries), None).
Proof.
  induction entries as [|[k v] rest IH]; intros result Hok; [done|].
  simpl. pose proof (Hok k v (list_elem_of_here _ _)) as Hv.
  destruct (ProcessTemplate v ctx) as [processed [e|]]; [done|].
  apply IH. intros k' v' Hin. apply (Hok k'). by apply list_elem_of_further.
Qed.

Lemma processEntries_error entries ctx : forall result r e,
  processEntries entries ctx result = (r, Some e) ->
  r = None
  /\ exists k v e', (k, v) ∈ entries
       /\ (ProcessTemplate v ctx).2 = Some e'
       /\ e = Errorf ("failed to process template for key " +:+ k +:+ ": ") e'.
Proof.
  induction entries as [|[k v] rest IH]; intros result r e; [done|].
  simpl. destruct (ProcessTemplate v ctx) as [processed [e'|]] eqn:Hv.
  - intros [= <- <-]. split; [done|]. exists k, v, e'.
    split; [apply list_elem_of_here|]. by rewrite Hv.
  - intros Hrest. destruct (IH _ _ _ Hrest) as (-> & k' & v' & e' & Hin & Hp & He).
    split; [done|]. exists k', v', e'. split; [by apply list_elem_of_further | done].
Qed.

Lemma processEntries_fails entries ctx : forall result,
  (exists k v e', (k, v) ∈ entries /\ (ProcessTemplate v ctx).2 = Some e') ->
  exists e, processEntries entries ctx result = (None, Some e).
Proof.
  induction entries as [|[k v] rest IH]; intros result (k' & v' & e' & Hin & Hp).
  { by apply elem_of_nil in Hin. }
  simpl. destruct (ProcessTemplate v ctx) as [processed [e|]] eqn:Hv; [by eexists|].
  apply IH. apply elem_of_cons in Hin as [[= -> ->]|Hin].
  - rewrite Hv in Hp. done.
  - by exists k', v', e'.
Qed.

Lemma rendered_lookup (f : string -> string) (l : list (string * string)) :
  forall (acc : strmap) k,
  NoDup l.*1 ->
  foldl (fun acc kv => <[kv.1 := f kv.2]> acc) acc l !! k
  = match (list_to_map l : strmap) !! k with
    | Some v => Some (f v)
    | None => acc !! k
    end.
Proof.
  induction l as [|[k' v'] rest IH]; intros acc k Hnd; [done|].
  apply NoDup_cons in Hnd as [Hk' Hnd]. simpl. rewrite IH by done.
  destruct (decide (k = k')) as [->|Hne].
  - rewrite lookup_insert_eq.
    rewrite (not_elem_of_list_to_map_1 _ _ Hk'). by rewrite lookup_insert_eq.
  - rewrite !lookup_insert_ne by done. done.
Qed.

Lemma rendered_entries (m : strmap) (f : string -> string) :
  foldl (fun acc kv => <[kv.1 := f kv.2]> acc) ∅ (map_to_list m) = f <$> m.
Proof.
  apply map_eq. intros k.
  rewrite rendered_lookup by apply NoDup_fst_map_to_list.
  rewrite list_to_map_to_list, lookup_fmap, lookup_empty.
  by destruct (m !! k).
Qed.

(** X10. ProcessMap renders every value of the map and keeps the keys: nil
    gives nil; when every value renders, the result is the map of the
    rendered values under the same keys; when some value fails to
    render, the result is nil with an error that names a key whose value
    failed and wraps its error, and nothing of the map is returned. *)
Theorem ProcessMap_renders_values_keeps_keys (m : strmap) ctx :
  ProcessMap None ctx = (None, None)
  /\ ((forall k v, m !! k = Some v -> (ProcessTemplate v ctx).2 = None) ->
      ProcessMap (Some m) ctx
      = (Some ((fun v => (ProcessTemplate v ctx).1) <$> m), None))
  /\ ((exists k v e', m !! k = Some v /\ (ProcessTemplate v ctx).2 = Some e') ->
      exists e, ProcessMap (Some m) ctx = (None, Some e))
  /\ (forall result e,
        ProcessMap (Some m) ctx = (result, Some e) ->
        result = None
        /\ exists k v e', m !! k = Some v
             /\ (ProcessTemplate v ctx).2 = Some e'
             /\ e = Errorf ("failed to process template for key " +:+ k +:+ ": ") e').
Proof.
  split; [done|]. unfold ProcessMap. split; [|split].
  - intros Hok. rewrite processEntries_ok.
    + by rewrite (rendered_entries m (fun v => (ProcessTemplate v ctx).1)).
    + intros k v Hin. apply (Hok k). by apply elem_of_map_to_list.
  - intros (k & v & e' & Hk & Hp). apply processEntries_fails.
    exists k, v, e'. split; [by apply elem_of_map_to_list | done].
  - intros result e Hrun.
    destruct (processEntries_error _ _ _ _ _ Hrun) as (-> & k & v & e' & Hin & Hp & He).
    split; [done|]. exists k, v, e'. split; [by apply elem_of_map_to_list | done].
Qed.

(** X11. processSubjects renders the subjects one by one, in order: on success
    the result has one subject per input subject, with the same kind and
    API group, the rendered name, and the rendered namespace, a subject
    without a namespace staying without one; on failure no subject is
    returned. *)
Theorem processSubjects_keeps_kind_and_order subjects ctx result err :
  processSubjects subjects ctx = (result, err) ->
  match err with
  | None =>
      Forall2 (fun subject processed =>
                 sKind processed = sKind subject
                 /\ sAPIGroup processed = sAPIGroup subject
                 /\ ProcessTemplate (sName subject) ctx = (sName processed, None)
                 /\ (sNamespace subject = "" -> sNamespace processed = "")
                 /\ (sNamespace subject <> "" ->
                     ProcessTemplate (sNamespace subject) ctx
                     = (sNamespace processed, None)))
        subjects result
  | Some _ => result = []
  end.
Proof.
  revert result err. induction subjects as [|s rest IH]; intros result err.
  { intros [= <- <-]. constructor. }
  simpl. destruct (ProcessTemplate (sName s) ctx) as [name [e|]] eqn:Hname.
  { by intros [= <- <-]. }
  case_bool_decide as Hns.
  - destruct (ProcessTemplate (sNamespace s) ctx) as [namespace [e|]] eqn:Hnamespace.
    { by intros [= <- <-]. }
    destruct (processSubjects rest ctx) as [result' [e|]] eqn:Hrest.
    { by intros [= <- <-]. }
    intros [= <- <-]. constructor; [|by apply (IH result' None)].
    simpl. by repeat split.
  - destruct (processSubjects rest ctx) as [result' [e|]] eqn:Hrest.
    { by intros [= <- <-]. }
    intros [= <- <-]. constructor; [|by apply (IH result' None)].
    simpl. repeat split; [done|]. intros ?. by destruct Hns.
Qed.

(** X12. BuildContext never hands a nil map to the templates and never an
    empty separator: labels, annotations and custom variables are the
    maps of the namespace and of the declaration, or empty maps, and the
    separator is the configured one or a dash. *)
Theorem BuildContext_fills_defaults ns config :
  ncLabels (tcNamespace (BuildContext ns config))
    = Some (default ∅ (Labels (nsMeta ns)))
  /\ ncAnnotations (tcNamespace (BuildContext ns config))
    = Some (default ∅ (Annotations (nsMeta ns)))
  /\ tcCustomVars (BuildContext ns config)
    = Some (default ∅ (specConfig (Spec config) ≫= TemplateVariables))
  /\ nSeparator (ccNaming (tcConfig (BuildContext ns config))) <> ""
  /\ ncName (tcNamespace (BuildContext ns config)) = Name (nsMeta ns)
  /\ crdName (tcCRD (BuildContext ns config)) = Name (cfgMeta config).
Proof.
  unfold BuildContext. simpl.
  split; [by destruct (Labels (nsMeta ns))|].
  split; [by destruct (Annotations (nsMeta ns))|].
  split.
  { destruct (specConfig (Spec config)) as [c|]; [|done]. simpl.
    by destruct (TemplateVariables c). }
  split; [|done].
  destruct (specConfig (Spec config)) as [c|]; [|done].
  destruct (Naming c) as [n|]; [|done]. simpl.
  by case_bool_decide.
Qed.

Lemma append_empty (s : string) : s +:+ "" = s.
Proof.
  induction s as [|c s IH]; [done|].
  change (String c (s +:+ "") = String c s). by rewrite IH.
Qed.

(** X13. Reading a label through the helper functions under the strict
    missing-key option: getOrDefault gives the value of the key, or the
    default when the key or the whole map is missing, and never fails;
    hasKey selects the branch by the presence of the key; but default
    cannot rescue a missing key, because the field is evaluated, and
    fails, before default is called. *)
Theorem helper_functions_on_label_map ctx (key d a b : string) :
  Execute funcMap mapError
    (TAction (CCall "getOrDefault"
                [AField ["Namespace"; "Labels"]; AString key; AString d]) TEnd)
    (contextValue ctx)
  = inr (default d (mapGet (ncLabels (tcNamespace ctx)) key))
  /\ Execute funcMap mapError
       (TIf (CCall "hasKey" [AField ["Namespace"; "Labels"]; AString key])
          (TText a TEnd) (TText b TEnd) TEnd)
       (contextValue ctx)
     = inr (match mapGet (ncLabels (tcNamespace ctx)) key with
            | Some _ => a
            | None => b
            end)
  /\ (mapGet (ncLabels (tcNamespace ctx)) key = None ->
      exists e,
        Execute funcMap mapError
          (TAction (CCall "default"
                      [AString d; AField ["Namespace"; "Labels"; key]]) TEnd)
          (contextValue ctx)
        = inl e).
Proof.
  split; [|split].
  - simpl. destruct (ncLabels (tcNamespace ctx)) as [m|]; simpl;
      [|by rewrite !append_empty].
    destruct (m !! key); simpl; by rewrite !append_empty.
  - simpl. destruct (ncLabels (tcNamespace ctx)) as [m|]; simpl;
      [|by rewrite !append_empty].
    destruct (m !! key); simpl; by rewrite !append_empty.
  - intros Hmissing. simpl. unfold mapGet in Hmissing.
    destruct (ncLabels (tcNamespace ctx)) as [m|]; simpl;
      [rewrite Hmissing|]; by eexists.
Qed.

End EngineProofs.

(** ** Subject merging, member by member *)

Section SubjectProofs.
Import rbac runs.

Lemma addSubjects_size l : forall m : gmap string Subject,
  (size (addSubjects m l) <= size m + length l)%nat.
Proof.
  induction l as [|s l IH] using rev_ind; intros m; [simpl; lia|].
  rewrite addSubjects_snoc, length_app. simpl.
  specialize (IH m). rewrite map_size_insert.
  destruct (addSubjects m l !! subjectKey s); simpl; lia.
Qed.

(** X14. mergeSubjects returns one subject per composite key: every subject
    of the result comes from one of the two lists; every subject of
    either list has its key represented in the result; where a new
    subject has the key of a result subject, the result subject is a new
    one; no two subjects of the result have the same key; and the result
    is no longer than both lists together. *)
Theorem mergeSubjects_one_subject_per_key existing new :
  (forall s, s ∈ mergeSubjects existing new -> s ∈ existing \/ s ∈ new)
  /\ (forall s, s ∈ existing ++ new ->
        exists s', s' ∈ mergeSubjects existing new /\ subjectKey s' = subjectKey s)
  /\ (forall s n, s ∈ mergeSubjects existing new -> n ∈ new ->
        subjectKey n = subjectKey s -> s ∈ new)
  /\ NoDup (subjectKey <$> mergeSubjects existing new)
  /\ (length (mergeSubjects existing new) <= length existing + length new)%nat.
Proof.
  unfold mergeSubjects. split; [|split; [|split; [|split]]].
  - intros s [k Hk]%elem_of_map_values. unfold mergeSubjectsMap in Hk.
    apply addSubjects_lookup_Some in Hk as [[? _]|Hk]; [by right|].
    apply addSubjects_lookup_Some in Hk as [[? _]|Hk]; [by left|].
    by rewrite lookup_empty in Hk.
  - intros s Hs. unfold mergeSubjectsMap.
    destruct (decide (subjectKey s ∈ subjectKey <$> new)) as [Hin|Hout].
    + apply list_elem_of_fmap in Hin as (n & Hkey & Hn).
      destruct (addSubjects_lookup_in new (subjectKey s)) as (s' & _ & Hk' & Hl);
        [by exists n|].
      exists s'. split; [|done]. apply elem_of_map_values. by eexists.
    + apply elem_of_app in Hs as [Hs|Hs].
      2:{ destruct Hout. apply list_elem_of_fmap. by exists s. }
      destruct (addSubjects_lookup_in existing (subjectKey s)) as (s' & _ & Hk' & Hl);
        [by exists s|].
      exists s'. split; [|done]. apply elem_of_map_values. exists (subjectKey s).
      rewrite addSubjects_lookup_other; [apply Hl|].
      intros n Hn Hkey. apply Hout. apply list_elem_of_fmap. by exists n.
  - intros s n [k Hk]%elem_of_map_values Hn Hkey.
    pose proof (mergeSubjectsMap_keyed existing new k s Hk) as Hks.
    destruct (addSubjects_lookup_in new k) as (s' & Hs' & _ & Hl).
    { exists n. split; [done | congruence]. }
    unfold mergeSubjectsMap in Hk. rewrite Hl in Hk. by injection Hk as <-.
  - assert (subjectKey <$> (map_to_list (mergeSubjectsMap existing new)).*2
            = (map_to_list (mergeSubjectsMap existing new)).*1) as ->;
      [|apply NoDup_fst_map_to_list].
    rewrite <- list_fmap_compose. apply Forall_fmap_ext_1, Forall_forall.
    intros [k s] Hks%elem_of_map_to_list. simpl.
    by apply (mergeSubjectsMap_keyed existing new).
  - rewrite length_fmap, length_map_to_list. unfold mergeSubjectsMap.
    etrans; [apply addSubjects_size|].
    pose proof (addSubjects_size existing ∅) as Hsize.
    rewrite map_size_empty in Hsize. lia.
Qed.

End SubjectProofs.

(** ** The manager: what is written, where, and after which answer *)

Section ManagerProofs.
Import rbac runs template.
Context {W : Type} `{Client W} `{texttemplate.Lib}.

Lemma cleanupEach_nothing (cleanup : string -> M W (option error))
    (resourceKind wrapPrefix : string) (names : list string) (w : W) :
  (forall name, cleanup name = ret None) ->
  cleanupEach cleanup resourceKind wrapPrefix names w
  = (None, w, map (fun _ => EvMetric (RecordCleanup resourceKind None)) names).
Proof.
  intros Hcleanup. induction names as [|name rest IH]; [done|].
  simpl. rewrite Hcleanup. unfold bind at 1. simpl. unfold bind at 1. simpl.
  by rewrite IH.
Qed.

Lemma CleanupRBACForNamespace_run namespaceName config (w : W) :
  CleanupRBACForNamespace namespaceName config w
  = (None, w,
     map (fun _ => EvMetric (RecordCleanup "clusterrole" None))
       (ClusterRoles (specTemplates (Spec config)))
     ++ map (fun _ => EvMetric (RecordCleanup "clusterrolebinding" None))
          (ClusterRoleBindings (specTemplates (Spec config)))).
Proof.
  unfold CleanupRBACForNamespace, bind.
  rewrite cleanupEach_nothing.
  2:{ intros name. unfold cleanupClusterRoleIfOrphaned.
      by destruct (cleanupDisabled config). }
  rewrite cleanupEach_nothing.
  2:{ intros name. unfold cleanupClusterRoleBindingIfOrphaned.
      by destruct (cleanupDisabled config). }
  unfold ret. simpl. by rewrite app_nil_r, !map_map.
Qed.

(** X15. CleanupRBACForNamespace removes nothing: whatever the cleanup
    setting of the declaration, it calls the cluster not once, leaves it
    as it was, returns no error, and only records one successful cleanup
    metric per ClusterRole template and per ClusterRoleBinding
    template. *)
Theorem CleanupRBACForNamespace_removes_nothing namespaceName config (w : W) :
  CleanupRBACForNamespace namespaceName config w
  = (None, w,
     map (fun _ => EvMetric (RecordCleanup "clusterrole" None))
       (ClusterRoles (specTemplates (Spec config)))
     ++ map (fun _ => EvMetric (RecordCleanup "clusterrolebinding" None))
          (ClusterRoleBindings (specTemplates (Spec config)))).
Proof. apply CleanupRBACForNamespace_run. Qed.

(** X16. An object that is not there is created as rendered, whatever the
    merge strategy of the declaration says, also [ignore] or a strategy
    that does not exist: after a not-found answer the only further call
    is one create of the given object, and its answer is returned. *)
Theorem absent_object_is_created_whatever_the_strategy config err :
  IsNotFound (Some err) = true ->
  (forall role (w w1 w2 : W) r,
     clGet KRole (keyOf (roleMeta role)) w = (inl err, w1) ->
     clCreate KRole role w1 = (r, w2) ->
     createOrUpdateRole role config w
     = (r, w2, [EvGet KRole (keyOf (roleMeta role)) (Some err); EvCreate (ORole role) r]))
  /\ (forall clusterRole (w w1 w2 : W) r,
        clGet KClusterRole (clusterKeyOf (crMeta clusterRole)) w = (inl err, w1) ->
        clCreate KClusterRole clusterRole w1 = (r, w2) ->
        createOrUpdateClusterRole clusterRole config w
        = (r, w2, [EvGet KClusterRole (clusterKeyOf (crMeta clusterRole)) (Some err);
                   EvCreate (OClusterRole clusterRole) r]))
  /\ (forall roleBinding (w w1 w2 : W) r,
        clGet KRoleBinding (keyOf (rbMeta roleBinding)) w = (inl err, w1) ->
        clCreate KRoleBinding roleBinding w1 = (r, w2) ->
        createOrUpdateRoleBinding roleBinding config w
        = (r, w2, [EvGet KRoleBinding (keyOf (rbMeta roleBinding)) (Some err);
                   EvCreate (ORoleBinding roleBinding) r]))
  /\ (forall clusterRoleBinding (w w1 w2 : W) r,
        clGet KClusterRoleBinding (clusterKeyOf (crbMeta clusterRoleBinding)) w
        = (inl err, w1) ->
        clCreate KClusterRoleBinding clusterRoleBinding w1 = (r, w2) ->
        createOrUpdateClusterRoleBinding clusterRoleBinding config w
        = (r, w2,
           [EvGet KClusterRoleBinding (clusterKeyOf (crbMeta clusterRoleBinding))
              (Some err);
            EvCreate (OClusterRoleBinding clusterRoleBinding) r])).
Proof.
  intros Hnf. simpl in Hnf. repeat split; intros ????? Hget Hcreate.
  - unfold createOrUpdateRole. simpl. unfold bind, Get, Create.
    rewrite Hget. simpl. rewrite Hnf. by rewrite Hcreate.
  - unfold createOrUpdateClusterRole, bind, Get, Create.
    rewrite Hget. simpl. rewrite Hnf. by rewrite Hcreate.
  - unfold createOrUpdateRoleBinding. simpl. unfold bind, Get, Create.
    rewrite Hget. simpl. rewrite Hnf. by rewrite Hcreate.
  - unfold createOrUpdateClusterRoleBinding, bind, Get, Create.
    rewrite Hget. simpl. rewrite Hnf. by rewrite Hcreate.
Qed.

(** X17. When a ClusterRole is already there, one pass decides by the merge
    strategy: [replace] updates it to the rendered rules, [merge] to the
    existing rules followed by the rendered ones, both under the
    resource version just read, and the answer of the update is
    returned without a second try; any strategy other than the three
    known ones is refused without a write. *)
Theorem existing_cluster_role_is_updated_by_strategy config clusterRole existing
    (w w1 : W) :
  clGet KClusterRole (clusterKeyOf (crMeta clusterRole)) w = (inr existing, w1) ->
  (effectiveMergeStrategy config = MergeStrategyReplace ->
   forall r w2,
     clUpdate KClusterRole
       {| crMeta := withResourceVersion (crMeta clusterRole)
                      (ResourceVersion (crMeta existing));
          crRules := crRules clusterRole |} w1 = (r, w2) ->
     result (createOrUpdateClusterRole clusterRole config w) = r
     /\ List.filter isWrite (log (createOrUpdateClusterRole clusterRole config w))
        = [EvUpdate (OClusterRole
                       {| crMeta := withResourceVersion (crMeta clusterRole)
                                      (ResourceVersion (crMeta existing));
                          crRules := crRules clusterRole |}) r])
  /\ (effectiveMergeStrategy config = MergeStrategyMerge ->
      forall r w2,
        clUpdate KClusterRole
          {| crMeta := withResourceVersion (crMeta clusterRole)
                         (ResourceVersion (crMeta existing));
             crRules := crRules existing ++ crRules clusterRole |} w1 = (r, w2) ->
        result (createOrUpdateClusterRole clusterRole config w) = r
        /\ List.filter isWrite (log (createOrUpdateClusterRole clusterRole config w))
           = [EvUpdate (OClusterRole
                          {| crMeta := withResourceVersion (crMeta clusterRole)
                                         (ResourceVersion (crMeta existing));
                             crRules := crRules existing ++ crRules clusterRole |}) r])
  /\ (effectiveMergeStrategy config <> MergeStrategyIgnore ->
      effectiveMergeStrategy config <> MergeStrategyReplace ->
      effectiveMergeStrategy config <> MergeStrategyMerge ->
      createOrUpdateClusterRole clusterRole config w
      = (Some (ErrorNew ("unknown merge strategy: " +:+ effectiveMergeStrategy config)),
         w1, [EvGet KClusterRole (clusterKeyOf (crMeta clusterRole)) None])).
Proof.
  intros Hget. split; [|split].
  - intros Hs r w2 Hupd.
    unfold createOrUpdateClusterRole, bind, Get, Update, metric, emit.
    rewrite Hget, Hs. simpl.
    unfold setClusterRoleRV. simpl. by rewrite Hupd.
  - intros Hs r w2 Hupd.
    unfold createOrUpdateClusterRole, bind, Get, Update, metric, emit.
    rewrite Hget, Hs. simpl.
    unfold setClusterRoleRV, setClusterRoleRules, mergeRules. simpl.
    by rewrite Hupd.
  - intros Hi Hr Hm.
    unfold createOrUpdateClusterRole, bind, Get.
    rewrite Hget. simpl.
    rewrite !bool_decide_eq_false_2 by done. done.
Qed.

(** X18. Under the merge strategy, when the update of a Role loses against a
    concurrent writer, the next pass merges into the rules that were
    already merged: the second update carries the rules read in the
    second pass, then the rules read in the first pass, then the
    rendered rules. *)
Theorem conflict_retry_merges_into_merged_rules config role existing1 existing2 e
    (w w1 w2 w3 : W) :
  effectiveMergeStrategy config = MergeStrategyMerge ->
  clGet KRole (keyOf (roleMeta role)) w = (inr existing1, w1) ->
  clUpdate KRole
    {| roleMeta := withResourceVersion (roleMeta role)
                     (ResourceVersion (roleMeta existing1));
       roleRules := roleRules existing1 ++ roleRules role |} w1 = (Some e, w2) ->
  IsConflict (Some e) = true ->
  clGet KRole (keyOf (roleMeta role)) w2 = (inr existing2, w3) ->
  exists r rest,
    List.filter isWrite (log (createOrUpdateRole role config w))
    = EvUpdate (ORole {| roleMeta := withResourceVersion (roleMeta role)
                                      (ResourceVersion (roleMeta existing1));
                         roleRules := roleRules existing1 ++ roleRules role |})
        (Some e)
      :: EvUpdate (ORole {| roleMeta := withResourceVersion (roleMeta role)
                                          (ResourceVersion (roleMeta existing2));
                            roleRules := roleRules existing2 ++ roleRules existing1
                                         ++ roleRules role |}) r
      :: rest.
Proof.
  intros Hs Hget1 Hupd1 Hc Hget2.
  unfold createOrUpdateRole. simpl.
  unfold bind at 1, Get at 1. rewrite Hget1. simpl. rewrite Hs. simpl.
  unfold bind at 1, metric at 1, emit at 1. simpl.
  unfold bind at 1, Update at 1, setRoleRV, setRoleRules, mergeRules. simpl.
  rewrite Hupd1. simpl. simpl in Hc. rewrite Hc. simpl.
  unfold bind at 1, Get at 1. simpl. unfold keyOf in *. simpl. rewrite Hget2. simpl.
  unfold bind at 1, metric at 1, emit at 1. simpl.
  unfold bind at 1, Update at 1. simpl.
  match goal with
  | |- context [clUpdate KRole ?o w3] => destruct (clUpdate KRole o w3) as [r w4]
  end.
  simpl.
  match goal with
  | |- context [(if ?b then ?x else ?y) w4] => destruct ((if b then x else y) w4) as [[res w5] l5]
  end.
  exists r, (List.filter isWrite l5). unfold log. simpl. done.
Qed.

Lemma createOrUpdateRoleLoop_scope config nsName attempts : forall role,
  builtFor nsName (ORole role) ->
  logAll (writesBuiltFor nsName) (createOrUpdateRoleLoop attempts role config).
Proof.
  induction attempts as [|n IH]; intros role Hrole; simpl.
  - apply logAll_ret.
  - repeat logAll_step;
      try logAll_write Hrole;
      try (apply IH; exact Hrole).
Qed.

Lemma createOrUpdateRoleBindingLoop_scope config nsName attempts : forall roleBinding,
  builtFor nsName (ORoleBinding roleBinding) ->
  logAll (writesBuiltFor nsName)
    (createOrUpdateRoleBindingLoop attempts roleBinding config).
Proof.
  induction attempts as [|n IH]; intros roleBinding Hrb; simpl.
  - apply logAll_ret.
  - repeat logAll_step;
      try logAll_write Hrb;
      try (apply IH; exact Hrb).
Qed.

Lemma createOrUpdateClusterRole_scope config nsName clusterRole :
  builtFor nsName (OClusterRole clusterRole) ->
  logAll (writesBuiltFor nsName) (createOrUpdateClusterRole clusterRole config).
Proof.
  intros Hcr. unfold createOrUpdateClusterRole.
  repeat logAll_step;
    try logAll_write Hcr.
Qed.

Lemma createOrUpdateClusterRoleBinding_scope config nsName clusterRoleBinding :
  builtFor nsName (OClusterRoleBinding clusterRoleBinding) ->
  logAll (writesBuiltFor nsName)
    (createOrUpdateClusterRoleBinding clusterRoleBinding config).
Proof.
  intros Hcrb. unfold createOrUpdateClusterRoleBinding.
  repeat logAll_step;
    try logAll_write Hcrb.
Qed.

Lemma SetControllerReference_newMeta owner name namespace labels annotations meta :
  SetControllerReference owner (newMeta name namespace labels annotations) = inr meta ->
  Namespace_ meta = namespace
  /\ OwnerReferences meta = [namespaceOwner (Name (nsMeta owner))].
Proof.
  unfold SetControllerReference. destruct clGVKForNamespace; [done|].
  simpl. by intros [= <-].
Qed.

Lemma applyRole_scope ns config tmpl ctx :
  logAll (writesBuiltFor (Name (nsMeta ns))) (applyRole ns config tmpl ctx).
Proof.
  unfold applyRole.
  destruct (ProcessTemplate (rtName tmpl) ctx) as [name err1].
  destruct (ProcessMap (rtLabels tmpl) ctx) as [labels err2].
  destruct (ProcessMap (rtAnnotations tmpl) ctx) as [annotations err3].
  destruct (SetControllerReference ns _) as [e|meta] eqn:Hset.
  - repeat logAll_step.
  - apply SetControllerReference_newMeta in Hset.
    repeat logAll_step.
    by apply createOrUpdateRoleLoop_scope.
Qed.

Lemma applyClusterRole_scope ns config tmpl ctx :
  logAll (writesBuiltFor (Name (nsMeta ns))) (applyClusterRole ns config tmpl ctx).
Proof.
  unfold applyClusterRole.
  destruct (ProcessTemplate (crtName tmpl) ctx) as [name err1].
  destruct (ProcessMap (crtLabels tmpl) ctx) as [labels err2].
  destruct (ProcessMap (crtAnnotations tmpl) ctx) as [annotations err3].
  repeat logAll_step.
  by apply createOrUpdateClusterRole_scope.
Qed.

Lemma applyRoleBinding_scope ns config tmpl ctx :
  logAll (writesBuiltFor (Name (nsMeta ns))) (applyRoleBinding ns config tmpl ctx).
Proof.
  unfold applyRoleBinding.
  destruct (ProcessTemplate (rbtName tmpl) ctx) as [name err1].
  destruct (ProcessMap (rbtLabels tmpl) ctx) as [labels err2].
  destruct (ProcessMap (rbtAnnotations tmpl) ctx) as [annotations err3].
  destruct (ProcessTemplate (rrName (rbtRoleRef tmpl)) ctx) as [roleRefName err4].
  destruct (processSubjects (rbtSubjects tmpl) ctx) as [subjects err5].
  destruct (SetControllerReference ns _) as [e|meta] eqn:Hset.
  - repeat logAll_step.
  - apply SetControllerReference_newMeta in Hset.
    repeat logAll_step.
    by apply createOrUpdateRoleBindingLoop_scope.
Qed.

Lemma applyClusterRoleBinding_scope ns config tmpl ctx :
  logAll (writesBuiltFor (Name (nsMeta ns)))
    (applyClusterRoleBinding ns config tmpl ctx).
Proof.
  unfold applyClusterRoleBinding.
  destruct (ProcessTemplate (crbtName tmpl) ctx) as [name err1].
  destruct (ProcessMap (crbtLabels tmpl) ctx) as [labels err2].
  destruct (ProcessMap (crbtAnnotations tmpl) ctx) as [annotations err3].
  destruct (ProcessTemplate (rrName (crbtRoleRef tmpl)) ctx) as [roleRefName err4].
  destruct (processSubjects (crbtSubjects tmpl) ctx) as [subjects err5].
  repeat logAll_step.
  by apply createOrUpdateClusterRoleBinding_scope.
Qed.

(** X19. Whatever ApplyRBACForNamespace creates or updates is a Role or
    RoleBinding inside the namespace, with the namespace as its
    controlling owner, or a ClusterRole or ClusterRoleBinding outside
    every namespace and without any owner reference; it never writes a
    namespace or a declaration. *)
Theorem ApplyRBACForNamespace_writes_in_scope ns config (w : W) :
  Forall (writesBuiltFor (Name (nsMeta ns))) (log (ApplyRBACForNamespace ns config w)).
Proof.
  revert w. change (logAll (writesBuiltFor (Name (nsMeta ns)))
                      (ApplyRBACForNamespace ns config)).
  unfold ApplyRBACForNamespace.
  apply logAll_bind; [apply applyEach_logAll; intros; apply applyRole_scope|].
  intros [e|]; [apply logAll_ret|].
  apply logAll_bind; [apply applyEach_logAll; intros; apply applyClusterRole_scope|].
  intros [e|]; [apply logAll_ret|].
  apply logAll_bind; [apply applyEach_logAll; intros; apply applyRoleBinding_scope|].
  intros [e|]; [apply logAll_ret|].
  apply logAll_bind;
    [apply applyEach_logAll; intros; apply applyClusterRoleBinding_scope|].
  intros [e|]; apply logAll_ret.
Qed.

End ManagerProofs.

(** ** The declaration reconciler, path by path *)

Section ConditionInvariants.
Import namespacerbacconfig runs.
Context {W : Type} `{Client W} `{texttemplate.Lib} `{RegexpLib}.

Lemma findCondition_Some conds ty : forall i c,
  findCondition conds ty = Some (i, c) ->
  conds !! i = Some c /\ condType c = ty.
Proof.
  induction conds as [|c0 rest IH]; intros i c; [done|]. simpl.
  case_bool_decide as Hty.
  - by intros [= <- <-].
  - destruct (findCondition rest ty) as [[j c']|]; [|done].
    intros [= <- <-]. by apply IH.
Qed.

Lemma findCondition_None conds ty :
  findCondition conds ty = None -> ty ∉ condType <$> conds.
Proof.
  induction conds as [|c0 rest IH]; simpl; [intros _; apply not_elem_of_nil|].
  case_bool_decide as Hty; [done|].
  destruct (findCondition rest ty) as [[j c']|]; [done|].
  intros _. apply not_elem_of_cons. split; [congruence | by apply IH].
Qed.

(** What setCondition returns, whatever the clock says: the conditions
    with the first one of the type replaced, or with a new one added at
    the end. *)
Lemma setCondition_conditions config ty status reason message (w : W) :
  exists t,
    Conditions (Status (result (setCondition config ty status reason message w)))
    = (let cond := {| condType := ty; condStatus := status; LastTransitionTime := t;
                      condReason := reason; condMessage := message |} in
       match findCondition (Conditions (Status config)) ty with
       | Some (i, existing) => <[i := cond]> (Conditions (Status config))
       | None => Conditions (Status config) ++ [cond]
       end)
    /\ (forall i existing,
          findCondition (Conditions (Status config)) ty = Some (i, existing) ->
          condStatus existing = status -> t = LastTransitionTime existing)
    /\ AppliedNamespaces (Status (result (setCondition config ty status reason message w)))
       = AppliedNamespaces (Status config)
    /\ ObservedGeneration (Status (result (setCondition config ty status reason message w)))
       = ObservedGeneration (Status config).
Proof.
  unfold setCondition, bind, Now. destruct (clNow w) as [now w1].
  destruct (findCondition (Conditions (Status config)) ty) as [[i existing]|] eqn:Hfind.
  - case_bool_decide as Hst.
    + destruct (clNow w1) as [t w2]. exists t. unfold result. simpl.
      split; [done|]. split; [|done]. intros ?? [= <- <-] ?. done.
    + exists (LastTransitionTime existing). unfold result. simpl.
      split; [done|]. split; [|done]. by intros ?? [= <- <-] ?.
  - exists now. unfold result. simpl. split; [done|]. by split.
Qed.

(** X20. setCondition keeps one condition per type: the condition of the
    given type afterwards has the given status, reason and message, at
    the position of the old one if there was one; its transition time is
    the old one when the status did not change; conditions of other
    types stay; the list grows by one only when the type was new; and a
    list without two conditions of one type stays so. *)
Theorem setCondition_keeps_one_condition_per_type config ty status reason message
    (w : W) :
  let before := Conditions (Status config) in
  let after :=
    Conditions (Status (result (setCondition config ty status reason message w))) in
  (exists i c,
     findCondition after ty = Some (i, c)
     /\ condStatus c = status /\ condReason c = reason /\ condMessage c = message
     /\ forall j old,
          findCondition before ty = Some (j, old) ->
          i = j /\ (condStatus old = status ->
                    LastTransitionTime c = LastTransitionTime old))
  /\ (forall c, c ∈ before -> condType c <> ty -> c ∈ after)
  /\ length after = match findCondition before ty with
                    | Some _ => length before
                    | None => S (length before)
                    end
  /\ (NoDup (condType <$> before) -> NoDup (condType <$> after)).
Proof.
  intros before after. subst before after.
  destruct (setCondition_conditions config ty status reason message w)
    as (t & -> & Htime & _).
  simpl.
  destruct (findCondition (Conditions (Status config)) ty) as [[i existing]|] eqn:Hfind.
  - destruct (findCondition_Some _ _ _ _ Hfind) as [Hi Hty].
    split; [|split; [|split]].
    + eexists i, _. split; [by eapply findCondition_insert_same|].
      do 3 (split; [done|]).
      intros j old [= <- <-]. split; [done|]. intros Hst. simpl. by eapply Htime.
    + intros c Hc Hne. apply list_elem_of_lookup in Hc as [j Hj].
      apply list_elem_of_lookup. exists j.
      rewrite list_lookup_insert_ne; [done|]. intros <-. congruence.
    + by rewrite length_insert.
    + intros Hnd. rewrite list_fmap_insert. simpl.
      rewrite list_insert_id; [done|]. by rewrite list_lookup_fmap, Hi, <- Hty.
  - split; [|split; [|split]].
    + eexists _, _. split; [by apply findCondition_snoc_same|].
      do 3 (split; [done|]). done.
    + intros c Hc _. apply elem_of_app. by left.
    + rewrite length_app. simpl. lia.
    + intros Hnd. rewrite fmap_app. simpl. apply NoDup_app. split; [done|].
      split; [|apply NoDup_singleton].
      intros ty' Hin ->%list_elem_of_singleton.
      by apply findCondition_None in Hfind.
Qed.

End ConditionInvariants.

Section DeclarationPaths.
Import namespacerbacconfig runs.
Context {W : Type} `{Client W} `{texttemplate.Lib} `{RegexpLib}.

(** Reconcile after a successful fetch: the fetch, then the body, then
    the deferred metrics, which neither write nor list namespaces and
    end with the reconciliation metric carrying the error variable. *)
Lemma Reconcile_fetched req config (w w1 : W) :
  clGet KConfig req w = (inr config, w1) ->
  exists deferred,
    Forall quiet deferred
    /\ log (Reconcile req w)
       = EvGet KConfig req None :: log (reconcileFetched config w1) ++ deferred
    /\ result (Reconcile req w) = (result (reconcileFetched config w1)).1
    /\ last deferred
       = Some (EvMetric (RecordReconciliation (Name (cfgMeta config))
                           "NamespaceRBACConfig"
                           (result (reconcileFetched config w1)).2)).
Proof.
  intros Hget.
  assert (Get KConfig req w = (inr config, w1, [EvGet KConfig req None])) as Eget.
  { unfold Get. by rewrite Hget. }
  unfold Reconcile. rewrite (bind_run _ _ _ _ _ _ Eget).
  destruct (reconcileFetched config w1) as [[res w2] l2] eqn:Efetched.
  rewrite (bind_run _ _ _ _ _ _ Efetched). simpl.
  pose proof (reconcileDeferred_quiet config res.2 w2) as Qd.
  assert (last (log (reconcileDeferred config res.2 w2))
          = Some (EvMetric (RecordReconciliation (Name (cfgMeta config))
                              "NamespaceRBACConfig" res.2))) as Hlast.
  { unfold reconcileDeferred, bind, List, metric, emit, ret, log.
    destruct (clList KConfig w2) as [[e|items] w3]; done. }
  destruct (reconcileDeferred config res.2 w2) as [[[] w3] l3] eqn:Edef.
  rewrite (bind_run _ _ _ _ _ _ Edef).
  exists l3. unfold log, result, world, ret in *. simpl in *.
  split; [done|]. split; [by rewrite app_nil_r|]. done.
Qed.

(** X21. When the declaration cannot be fetched, Reconcile writes nothing: a
    not-found answer is taken as a deleted declaration and ends the pass
    without error and without touching health or metrics; any other
    error is returned as it is, after the operator was marked unhealthy
    and the failed reconciliation was recorded. *)
Theorem Reconcile_fetch_failure_writes_nothing req err (w w1 : W) :
  clGet KConfig req w = (inl err, w1) ->
  world (Reconcile req w) = w1
  /\ List.filter isWrite (log (Reconcile req w)) = []
  /\ (IsNotFound (Some err) = true ->
      result (Reconcile req w) = (emptyResult, None)
      /\ log (Reconcile req w)
         = [EvGet KConfig req (Some err);
            EvLogInfo
              "NamespaceRBACConfig resource not found. Ignoring since object must be deleted"
              ""])
  /\ (IsNotFound (Some err) = false ->
      result (Reconcile req w) = (emptyResult, Some err)
      /\ log (Reconcile req w)
         = [EvGet KConfig req (Some err);
            EvLogError "Failed to get NamespaceRBACConfig" "" err;
            EvHealth (SetHealthy false);
            EvMetric (SetOperatorHealth "reconciler" false);
            EvMetric (RecordReconciliation (nnName req) "NamespaceRBACConfig"
                        (Some err))]).
Proof.
  intros Hget.
  assert (Get KConfig req w = (inl err, w1, [EvGet KConfig req (Some err)])) as Eget.
  { unfold Get. by rewrite Hget. }
  unfold Reconcile. rewrite (bind_run _ _ _ _ _ _ Eget).
  destruct (IsNotFound (Some err)); unfold result, world, log; simpl;
    (split; [done|]); (split; [done|]); by split.
Qed.

(** X22. The first pass over a declaration that is not being deleted and
    does not carry the finalizer only adds it: the one write is an
    update of the declaration with the finalizer appended to its
    finalizers, nothing is validated, no namespace is listed, no status
    is written; after a successful update the pass asks for a requeue,
    after a failed one it returns the error. *)
Theorem Reconcile_first_adds_the_finalizer req config (w w1 : W) :
  clGet KConfig req w = (inr config, w1) ->
  DeletionTimestamp (cfgMeta config) = None ->
  ContainsFinalizer config FinalizerName = false ->
  exists err,
    List.filter isWrite (log (Reconcile req w))
    = [EvUpdate
         (OConfig (withMeta config
                     (withFinalizers (cfgMeta config)
                        (Finalizers (cfgMeta config) ++ [FinalizerName]))))
         err]
    /\ List.filter (isListOf KNamespace) (log (Reconcile req w)) = []
    /\ result (Reconcile req w)
       = (match err with
          | None => {| Requeue := true; RequeueAfter := 0 |}
          | Some _ => emptyResult
          end, err).
Proof.
  intros Hget Hdel Hfin.
  destruct (Reconcile_fetched req config w w1 Hget) as (deferred & Qd & -> & -> & _).
  destruct (quiet_filters _ Qd) as [Fd1 Fd2].
  unfold reconcileFetched. rewrite Hdel. simpl. rewrite Hfin. simpl.
  unfold AddFinalizer. rewrite Hfin.
  unfold bind, Update.
  match goal with
  | |- context [clUpdate KConfig ?c w1] => destruct (clUpdate KConfig c w1) as [err w2]
  end.
  exists err. destruct err as [e|]; unfold log, result; simpl;
    rewrite ?List.filter_app, ?Fd1, ?Fd2; done.
Qed.

Lemma cleanupNamespaces_run config names (w : W) :
  exists l, cleanupNamespaces config names w = (tt, w, l) /\ Forall quiet l.
Proof.
  induction names as [|name rest (l & IH & Ql)]; [by exists []|].
  simpl. unfold bind, logInfo, emit.
  rewrite CleanupRBACForNamespace_run. simpl. rewrite IH.
  eexists. split; [reflexivity|].
  apply Forall_cons. split; [done|].
  rewrite ?app_nil_r. apply Forall_app. split; [|done].
  apply Forall_app. split; apply Forall_forall; intros e Hin;
    apply list_elem_of_In, in_map_iff in Hin as (? & <- & _); done.
Qed.

Lemma cleanupRBAC_run config (w : W) :
  exists l, cleanupRBAC config w = (None, w, l) /\ Forall quiet l.
Proof.
  unfold cleanupRBAC.
  destruct (cleanupNamespaces_run config (AppliedNamespaces (Status config)) w)
    as (l & E & Ql).
  rewrite (bind_run _ _ _ _ _ _ E). exists (l ++ []).
  split; [done|]. by rewrite app_nil_r.
Qed.

Lemma handleDeletion_run config (w : W) :
  ContainsFinalizer config FinalizerName = true ->
  exists before err after,
    Forall quiet before /\ Forall quiet after
    /\ log (handleDeletion config w)
       = before ++ EvUpdate (OConfig (RemoveFinalizer config FinalizerName)) err :: after
    /\ result (handleDeletion config w) = (emptyResult, err).
Proof.
  intros Hfin. unfold handleDeletion. rewrite Hfin.
  rewrite (bind_run (logInfo _ _) _ w tt w [_] eq_refl).
  destruct (cleanupRBAC_run config w) as (lc & Ec & Qc).
  rewrite (bind_run _ _ _ _ _ _ Ec).
  destruct (clUpdate KConfig (RemoveFinalizer config FinalizerName) w) as [err w2] eqn:Hupd.
  assert (Update KConfig (RemoveFinalizer config FinalizerName) w
          = (err, w2, [EvUpdate (OConfig (RemoveFinalizer config FinalizerName)) err]))
    as Eu.
  { unfold Update. by rewrite Hupd. }
  rewrite (bind_run _ _ _ _ _ _ Eu).
  exists (EvLogInfo "Cleaning up RBAC resources for deleted NamespaceRBACConfig" "" :: lc),
    err.
  destruct err as [e|]; unfold log, result, world, ret, logError, emit; simpl.
  - exists [EvLogError "Failed to remove finalizer" "" e].
    split; [by constructor|]. split; [by repeat constructor|].
    split; [|done]. by rewrite <- ?app_assoc.
  - exists []. split; [by constructor|]. split; [constructor|].
    split; [|done]. by rewrite <- ?app_assoc.
Qed.

(** X23. Deleting a declaration deletes nothing else: when the fetched
    declaration carries a deletion timestamp, the pass lists no
    namespace and never asks to be run again after a delay; with the
    finalizer present its one write is an update of the declaration
    with the finalizer removed and the other finalizers kept in order,
    whose error, if any, is returned; without the finalizer it writes
    nothing at all. *)
Theorem Reconcile_deletion_only_drops_the_finalizer req config t (w w1 : W) :
  clGet KConfig req w = (inr config, w1) ->
  DeletionTimestamp (cfgMeta config) = Some t ->
  List.filter (isListOf KNamespace) (log (Reconcile req w)) = []
  /\ RequeueAfter (result (Reconcile req w)).1 = 0%nat
  /\ (ContainsFinalizer config FinalizerName = false ->
      List.filter isWrite (log (Reconcile req w)) = []
      /\ result (Reconcile req w) = (emptyResult, None))
  /\ (ContainsFinalizer config FinalizerName = true ->
      exists err,
        List.filter isWrite (log (Reconcile req w))
        = [EvUpdate
             (OConfig (withMeta config
                         (withFinalizers (cfgMeta config)
                            (filter (fun f => f <> FinalizerName)
                               (Finalizers (cfgMeta config))))))
             err]
        /\ result (Reconcile req w) = (emptyResult, err)).
Proof.
  intros Hget Hdel.
  destruct (Reconcile_fetched req config w w1 Hget) as (deferred & Qd & -> & -> & _).
  destruct (quiet_filters _ Qd) as [Fd1 Fd2].
  unfold reconcileFetched. rewrite Hdel. simpl.
  destruct (ContainsFinalizer config FinalizerName) eqn:Hfin.
  - destruct (handleDeletion_run config w1 Hfin)
      as (before & err & after & Qb & Qa & Hlog & Hres).
    destruct (quiet_filters _ Qb) as [Fb1 Fb2].
    destruct (quiet_filters _ Qa) as [Fa1 Fa2].
    destruct (handleDeletion config w1) as [[r w2] l2] eqn:Ehd.
    rewrite (bind_run _ _ _ _ _ _ Ehd).
    unfold log, result, world, ret in *. simpl in *. subst l2 r.
    rewrite ?app_nil_r, !List.filter_app. simpl. rewrite ?List.filter_app.
    rewrite Fb1, Fb2, Fa1, Fa2, Fd1, Fd2. simpl.
    split; [done|]. split; [done|]. split; [done|]. intros _. by exists err.
  - unfold handleDeletion. rewrite Hfin.
    unfold bind, ret, log, result. simpl. rewrite Fd1, Fd2.
    split; [done|]. split; [done|]. by split.
Qed.

End DeclarationPaths.

Section DeclarationOutcome.
Import namespacerbacconfig runs.
Context {W : Type} `{Client W} `{texttemplate.Lib} `{RegexpLib}.

Lemma NamespaceMatches_error_false ns selector matched e :
  utils.NamespaceMatches ns selector = (matched, Some e) -> matched = false.
Proof.
  unfold utils.NamespaceMatches, MatchString.
  destruct (existsb _ (ExcludeNamespaces selector)); [intros ?; congruence|].
  destruct ((0 <? length (IncludeNamespaces selector))%nat && _);
    [intros ?; congruence|].
  assert (forall b1 b2 : bool,
            (if negb b1 then (false, None) else
               if negb b2 then (false, None) else (true, @None error))
            = (matched, Some e) -> matched = false) as Hrest.
  { by intros [] []. }
  destruct (NameRegex selector) as [re|]; [|apply Hrest].
  case_bool_decide; [|apply Hrest].
  destruct (Compile re) as [e'|r]; [intros ?; congruence|].
  destruct (reMatchString r (Name (nsMeta ns))); [apply Hrest | intros ?; congruence].
Qed.

(** X24. Once validateConfig has accepted a declaration, matching a namespace
    against its selector cannot fail any more, whatever the namespace:
    the pattern that NamespaceMatches compiles is the one validateConfig
    has compiled. *)
Theorem validated_selector_never_fails_to_match config :
  validateConfig config = None ->
  forall ns, (utils.NamespaceMatches ns (specSelector (Spec config))).2 = None.
Proof.
  intros Hvalid ns.
  destruct (utils.NamespaceMatches ns (specSelector (Spec config)))
    as [matched [e|]] eqn:Hm; [|done].
  exfalso. revert Hvalid Hm.
  unfold validateConfig, utils.NamespaceMatches, MatchString.
  destruct (existsb _ (ExcludeNamespaces _)); [done|].
  destruct ((0 <? length (IncludeNamespaces _))%nat && _); [done|].
  assert (forall b1 b2 : bool,
            (if negb b1 then (false, None) else
               if negb b2 then (false, None) else (true, @None error))
            <> (matched, Some e)) as Hrest.
  { by intros [] []. }
  destruct (NameRegex (specSelector (Spec config))) as [re|];
    [|by intros _ ?%Hrest].
  destruct (Compile re) as [e'|r]; [done|]. intros _.
  case_bool_decide; [|by intros ?%Hrest].
  destruct (reMatchString r (Name (nsMeta ns))); [by intros ?%Hrest | done].
Qed.

(** X25. validateConfig looks at two things only: it accepts a declaration
    exactly when the NameRegex, if set, compiles, and at least one of the
    four template lists is not empty.  A pattern that does not compile
    is reported first, wrapped as an invalid nameRegex; the templates
    themselves, their names, labels and rules, are never inspected. *)
Theorem validateConfig_accepts_iff_pattern_and_some_template config :
  (validateConfig config = None <->
   (forall re, NameRegex (specSelector (Spec config)) = Some re ->
      exists r, Compile re = inr r)
   /\ (Roles (specTemplates (Spec config)) <> []
       \/ ClusterRoles (specTemplates (Spec config)) <> []
       \/ RoleBindings (specTemplates (Spec config)) <> []
       \/ ClusterRoleBindings (specTemplates (Spec config)) <> []))
  /\ (forall re e,
        NameRegex (specSelector (Spec config)) = Some re ->
        Compile re = inl e ->
        validateConfig config = Some (Errorf "invalid nameRegex: " e)).
Proof.
  unfold validateConfig. split.
  - destruct (NameRegex (specSelector (Spec config))) as [re|];
      [destruct (Compile re) as [e|r] eqn:Hc|].
    + split; [done|]. intros [Hre _]. destruct (Hre re eq_refl) as [r Hr]. congruence.
    + destruct (Roles _), (ClusterRoles _), (RoleBindings _), (ClusterRoleBindings _);
        simpl.
      all: split;
        [ intros Hnone; split;
          [ intros ? [= <-]; by exists r
          | first [ discriminate Hnone | left; discriminate | right; left; discriminate
                  | right; right; left; discriminate
                  | right; right; right; discriminate ] ]
        | intros [_ Hsome];
          first [ reflexivity | destruct Hsome as [?|[?|[?|?]]]; congruence ] ].
    + destruct (Roles _), (ClusterRoles _), (RoleBindings _), (ClusterRoleBindings _);
        simpl.
      all: split;
        [ intros Hnone; split;
          [ intros ? [=]
          | first [ discriminate Hnone | left; discriminate | right; left; discriminate
                  | right; right; left; discriminate
                  | right; right; right; discriminate ] ]
        | intros [_ Hsome];
          first [ reflexivity | destruct Hsome as [?|[?|[?|?]]]; congruence ] ].
  - intros re e -> ->. done.
Qed.








End DeclarationOutcome.

(** ** From namespace events to declarations *)

Section NamespaceEvents.
Import namespacerbacconfig runs.
Context {W : Type} `{Client W} `{texttemplate.Lib} `{RegexpLib}.

Lemma mapConfigs_run namespace items : forall requests (w : W),
  exists l,
    mapConfigs namespace items requests w
    = (requests
       ++ map (fun config => {| nnNamespace := Namespace_ (cfgMeta config);
                                nnName := Name (cfgMeta config) |})
            (List.filter
               (fun config =>
                  (utils.NamespaceMatches namespace (specSelector (Spec config))).1)
               items),
       w, l)
    /\ Forall quiet l.
Proof.
  induction items as [|config rest IH]; intros requests w.
  { exists []. simpl. by rewrite app_nil_r. }
  simpl.
  destruct (utils.NamespaceMatches namespace (specSelector (Spec config)))
    as [matched [e|]] eqn:Hm.
  - apply NamespaceMatches_error_false in Hm as ->. simpl.
    destruct (IH requests w) as (l & E & Ql).
    unfold bind, logError, emit. rewrite E. eexists. split; [reflexivity|].
    by apply Forall_cons.
  - destruct matched; simpl.
    + destruct (IH (requests ++ [{| nnNamespace := Namespace_ (cfgMeta config);
                                    nnName := Name (cfgMeta config) |}]) w)
        as (l & E & Ql).
      rewrite E. exists l. by rewrite <- app_assoc.
    + apply IH.
Qed.

(** X28. mapNamespaceToConfigs asks for a reconcile of exactly the listed
    declarations whose selector matches the namespace of the event, in
    the order of the list, each under its own name and namespace; a
    declaration whose selector cannot be evaluated is left out.  It
    reads the declarations once and writes nothing; for an object that
    is not a namespace it does not even read, and when the list call
    fails it asks for nothing. *)
Theorem mapNamespaceToConfigs_enqueues_the_matching_declarations obj (w : W) :
  List.filter isWrite (log (mapNamespaceToConfigs obj w)) = []
  /\ (kindOf obj <> KNamespace -> mapNamespaceToConfigs obj w = ([], w, []))
  /\ (forall namespace err w1,
        obj = ONamespace namespace ->
        clList KConfig w = (inl err, w1) ->
        result (mapNamespaceToConfigs obj w) = []
        /\ world (mapNamespaceToConfigs obj w) = w1)
  /\ (forall namespace items w1,
        obj = ONamespace namespace ->
        clList KConfig w = (inr items, w1) ->
        result (mapNamespaceToConfigs obj w)
        = map (fun config => {| nnNamespace := Namespace_ (cfgMeta config);
                                nnName := Name (cfgMeta config) |})
            (List.filter
               (fun config =>
                  (utils.NamespaceMatches namespace (specSelector (Spec config))).1)
               items)
        /\ world (mapNamespaceToConfigs obj w) = w1).
Proof.
  split; [|split; [|split]].
  - destruct obj; try done. unfold mapNamespaceToConfigs, bind, List.
    destruct (clList KConfig w) as [[err|items] w1]; [done|].
    destruct (mapConfigs_run n items [] w1) as (l & -> & Ql).
    destruct (quiet_filters _ Ql) as [Fl _]. unfold log. simpl. done.
  - by destruct obj.
  - intros namespace err w1 -> Hlist. unfold mapNamespaceToConfigs, bind, List.
    by rewrite Hlist.
  - intros namespace items w1 -> Hlist. unfold mapNamespaceToConfigs, bind, List.
    rewrite Hlist. by destruct (mapConfigs_run namespace items [] w1) as (l & -> & _).
Qed.

End NamespaceEvents.

(** ** The namespace reconciler, path by path *)

Section NamespacePaths.
Import namespace runs.
Context {W : Type} `{Client W} `{texttemplate.Lib} `{RegexpLib}.

Lemma cleanupConfigs_run namespaceName items (w : W) :
  exists l, cleanupConfigs namespaceName items w = (tt, w, l) /\ Forall quiet l.
Proof.
  induction items as [|config rest (l & IH & Ql)]; [by exists []|].
  simpl. unfold bind, logInfo, emit.
  rewrite CleanupRBACForNamespace_run. simpl. rewrite IH.
  eexists. split; [reflexivity|].
  apply Forall_cons. split; [done|].
  rewrite ?app_nil_r. apply Forall_app. split; [|done].
  apply Forall_app. split; apply Forall_forall; intros e Hin;
    apply list_elem_of_In, in_map_iff in Hin as (? & <- & _); done.
Qed.

Lemma handleNamespaceDeletion_run namespaceName (w : W) :
  exists l,
    Forall quiet l
    /\ handleNamespaceDeletion namespaceName w
       = ((emptyResult, errOf (clList KConfig w).1), (clList KConfig w).2,
          l ++ [EvHealth (match (clList KConfig w).1 with
                          | inl _ => SetHealthy false
                          | inr _ => RecordReconcile
                          end)]).
Proof.
  unfold handleNamespaceDeletion, bind, logInfo, logError, health, emit, List, ret.
  destruct (clList KConfig w) as [[err|items] w1]; simpl.
  - eexists [_; _; _]. split; [|reflexivity]. by repeat constructor.
  - destruct (cleanupConfigs_run namespaceName items w1) as (l & -> & Ql).
    exists (EvLogInfo "Processing namespace deletion event" ""
            :: EvList KConfig None :: l).
    split; [by repeat constructor|]. done.
Qed.

(** X29. A namespace that is gone triggers no write: when the fetch answers
    not-found, the pass reads the declarations once, changes nothing in
    the cluster, and returns the error of that list call, if any; its
    last act is to tell the health checker, of a reconcile after a
    successful list and of bad health after a failed one. *)
Theorem deleted_namespace_triggers_no_write req err (w w1 : W) :
  clGet KNamespace req w = (inl err, w1) ->
  IsNotFound (Some err) = true ->
  List.filter isWrite (log (Reconcile req w)) = []
  /\ world (Reconcile req w) = (clList KConfig w1).2
  /\ result (Reconcile req w) = (emptyResult, errOf (clList KConfig w1).1)
  /\ last (log (Reconcile req w))
     = Some (EvHealth (match (clList KConfig w1).1 with
                       | inl _ => SetHealthy false
                       | inr _ => RecordReconcile
                       end)).
Proof.
  intros Hget Hnf.
  assert (Get KNamespace req w = (inl err, w1, [EvGet KNamespace req (Some err)])) as Eget.
  { unfold Get. by rewrite Hget. }
  unfold Reconcile. rewrite (bind_run _ _ _ _ _ _ Eget). rewrite Hnf.
  rewrite (bind_run (logInfo _ _) _ w1 tt w1 [_] eq_refl).
  destruct (handleNamespaceDeletion_run (nnName req) w1) as (l & Ql & ->).
  destruct (quiet_filters _ Ql) as [Fl _].
  unfold result, world, log. simpl.
  split.
  { rewrite List.filter_app, Fl. by destruct (clList KConfig w1) as [[?|?] ?]. }
  split; [done|]. split; [done|].
  by rewrite (app_comm_cons _ _ (EvLogInfo _ _)), last_snoc.
Qed.

Lemma handleNamespaceCreateOrUpdate_run namespace (w : W) :
  result (handleNamespaceCreateOrUpdate namespace w)
  = (emptyResult, errOf (clList KConfig w).1)
  /\ last (log (handleNamespaceCreateOrUpdate namespace w))
     = Some (EvHealth (match (clList KConfig w).1 with
                       | inl _ => SetHealthy false
                       | inr _ => RecordReconcile
                       end)).
Proof.
  unfold handleNamespaceCreateOrUpdate, bind, logInfo, logError, health, emit, List, ret.
  destruct (clList KConfig w) as [[err|items] w1]; simpl; [done|].
  destruct (applyConfigs namespace items w1) as [[[] w2] l2].
  unfold result, log. simpl. split; [done|].
  by rewrite !app_comm_cons, last_snoc.
Qed.

(** X30. The namespace reconciler returns an error only when the fetch of the
    namespace fails with something other than not-found, or when the
    declarations cannot be listed, and it returns that very error; no
    failure to match, apply or clean up reaches its result.  Its last
    act always agrees with the result: it tells the health checker of a
    reconcile when it returns no error and of bad health when it
    returns one. *)
Theorem namespace_Reconcile_fails_only_on_fetch_or_list req (w : W) :
  result (Reconcile req w)
  = (emptyResult,
     match (clGet KNamespace req w).1 with
     | inl err =>
         if IsNotFound (Some err)
         then errOf (clList KConfig (clGet KNamespace req w).2).1
         else Some err
     | inr _ => errOf (clList KConfig (clGet KNamespace req w).2).1
     end)
  /\ last (log (Reconcile req w))
     = Some (EvHealth (match (result (Reconcile req w)).2 with
                       | None => RecordReconcile
                       | Some _ => SetHealthy false
                       end)).
Proof.
  destruct (clGet KNamespace req w) as [[err|namespace] w1] eqn:Hget.
  - assert (Get KNamespace req w = (inl err, w1, [EvGet KNamespace req (Some err)]))
      as Eget.
    { unfold Get. by rewrite Hget. }
    unfold Reconcile. rewrite !(bind_run _ _ _ _ _ _ Eget).
    cbn [fst snd]. destruct (IsNotFound (Some err)) eqn:Hnf.
    + rewrite !(bind_run (logInfo _ _) _ w1 tt w1 [_] eq_refl).
      destruct (handleNamespaceDeletion_run (nnName req) w1) as (l & Ql & ->).
      unfold result, log. simpl.
      split; [done|].
      rewrite (app_comm_cons _ _ (EvLogInfo _ _)), last_snoc.
      by destruct (clList KConfig w1) as [[?|?] ?].
    + by unfold result, log.
  - assert (Get KNamespace req w = (inr namespace, w1, [EvGet KNamespace req None]))
      as Eget.
    { unfold Get. by rewrite Hget. }
    unfold Reconcile. rewrite !(bind_run _ _ _ _ _ _ Eget).
    destruct (handleNamespaceCreateOrUpdate_run namespace w1) as [Hres Hlast].
    unfold result at 1 3, log at 1. simpl.
    destruct (handleNamespaceCreateOrUpdate namespace w1) as [[r w2] l2].
    unfold result, log in *. simpl in *. subst r. split; [done|].
    destruct l2 as [|e l2] using rev_ind; [done|].
    rewrite last_snoc in Hlast. rewrite app_comm_cons, last_snoc, Hlast.
    by destruct (clList KConfig w1) as [[?|?] ?].
Qed.

End NamespacePaths.

(** ** The further properties on concrete inputs *)

Section FurtherExamples.
Import testing samples template texttemplate rbac runs.

Lemma validated_selector_witness :
  (utils.NamespaceMatches devNamespace (specSelector (Spec readyConfig))).2 = None.
Proof.
  apply validated_selector_never_fails_to_match. vm_compute. reflexivity.
Defined.

(** Without validation the bad pattern does come back as an error. *)
Example unvalidated_selector_fails_to_match :
  exists e, utils.NamespaceMatches devNamespace badRegexSelector = (false, Some e).
Proof. eexists. vm_compute. reflexivity. Qed.

Lemma healthy_window_witness :
  result (health.IsHealthy after299s
            (world (health.RecordReconcile reconciledAt (health.NewChecker 0%Z))))
  = true
  /\ result (health.IsHealthy after301s
               (world (health.RecordReconcile reconciledAt (health.NewChecker 0%Z))))
     = false.
Proof.
  pose proof (healthy_for_five_minutes_after_reconcile reconciledAt after299s
                (health.NewChecker 0%Z)) as (_ & _ & Hfresh & _).
  pose proof (healthy_for_five_minutes_after_reconcile reconciledAt after301s
                (health.NewChecker 0%Z)) as (_ & _ & _ & Hstale).
  split; [apply Hfresh | apply Hstale]; vm_compute; congruence.
Defined.

(** Between 299 and 300 seconds the answer depends on the fraction of
    the second that was cut off: here 299.6 seconds have passed and the
    checker already reports unhealthy. *)
Example unhealthy_before_five_minutes :
  (after299s6 - reconciledAt < 5 * gotime.Minute)%Z
  /\ result (health.IsHealthy after299s6
               (world (health.RecordReconcile reconciledAt (health.NewChecker 0%Z))))
     = false.
Proof. split; vm_compute; reflexivity. Qed.

Lemma processSubjects_witness :
  Forall2 (fun subject processed =>
             sKind processed = sKind subject
             /\ sAPIGroup processed = sAPIGroup subject
             /\ ProcessTemplate (sName subject) testContext = (sName processed, None)
             /\ (sNamespace subject = "" -> sNamespace processed = "")
             /\ (sNamespace subject <> "" ->
                 ProcessTemplate (sNamespace subject) testContext
                 = (sNamespace processed, None)))
    templatedSubjects
    [group "test-ns-admins"; serviceAccount "deployer" "test-ns"].
Proof.
  apply (processSubjects_keeps_kind_and_order templatedSubjects testContext
           [group "test-ns-admins"; serviceAccount "deployer" "test-ns"] None).
  vm_compute. reflexivity.
Defined.

Lemma absent_object_witness :
  createOrUpdateRole newRole ignoreConfig emptyStore
  = (None, (clCreate KRole newRole emptyStore).2,
     [EvGet KRole (keyOf (roleMeta newRole)) (Some notFound);
      EvCreate (ORole newRole) None]).
Proof.
  apply (proj1 (absent_object_is_created_whatever_the_strategy ignoreConfig notFound
                  eq_refl) newRole emptyStore emptyStore).
  - reflexivity.
  - reflexivity.
Defined.

Lemma existing_cluster_role_witness :
  result (createOrUpdateClusterRole newClusterRole replaceConfig clusterRoleStore) = None
  /\ List.filter isWrite
       (log (createOrUpdateClusterRole newClusterRole replaceConfig clusterRoleStore))
     = [EvUpdate (OClusterRole
                    {| crMeta := withResourceVersion (crMeta newClusterRole) "7";
                       crRules := [deploymentsCreate] |}) None].
Proof.
  assert (clGet KClusterRole (clusterKeyOf (crMeta newClusterRole)) clusterRoleStore
          = (inr existingClusterRole, clusterRoleStore)) as Hget.
  { vm_compute. reflexivity. }
  apply (proj1 (existing_cluster_role_is_updated_by_strategy replaceConfig
                  newClusterRole existingClusterRole clusterRoleStore clusterRoleStore
                  Hget) eq_refl None
           (clUpdate KClusterRole
              {| crMeta := withResourceVersion (crMeta newClusterRole) "7";
                 crRules := [deploymentsCreate] |} clusterRoleStore).2).
  vm_compute. reflexivity.
Defined.

Lemma conflict_retry_witness :
  exists r rest,
    List.filter isWrite (log (createOrUpdateRole newRole mergeConfig conflictOnceStore))
    = EvUpdate (ORole {| roleMeta := withResourceVersion (roleMeta newRole) "1";
                         roleRules := [podsGet; deploymentsCreate] |})
        (Some lostUpdate)
      :: EvUpdate (ORole {| roleMeta := withResourceVersion (roleMeta newRole) "1";
                            roleRules := [podsGet; podsGet; deploymentsCreate] |}) r
      :: rest.
Proof.
  apply (conflict_retry_merges_into_merged_rules mergeConfig newRole
           existingRole existingRole lostUpdate
           conflictOnceStore conflictOnceStore roleStore roleStore);
    vm_compute; reflexivity.
Defined.

Lemma fetch_failure_witness :
  result (namespacerbacconfig.Reconcile goneRequest emptyStore) = (emptyResult, None)
  /\ log (namespacerbacconfig.Reconcile goneRequest emptyStore)
     = [EvGet KConfig goneRequest (Some notFound);
        EvLogInfo
          "NamespaceRBACConfig resource not found. Ignoring since object must be deleted"
          ""].
Proof.
  apply (Reconcile_fetch_failure_writes_nothing goneRequest notFound emptyStore emptyStore);
    vm_compute; reflexivity.
Defined.

Lemma first_pass_witness :
  exists err,
    List.filter isWrite (log (namespacerbacconfig.Reconcile badRegexRequest
                                freshBadRegexStore))
    = [EvUpdate
         (OConfig (namespacerbacconfig.withMeta freshBadRegexConfig
                     (withFinalizers (cfgMeta freshBadRegexConfig)
                        [namespacerbacconfig.FinalizerName])))
         err]
    /\ List.filter (isListOf KNamespace)
         (log (namespacerbacconfig.Reconcile badRegexRequest freshBadRegexStore)) = []
    /\ result (namespacerbacconfig.Reconcile badRegexRequest freshBadRegexStore)
       = (match err with
          | None => {| Requeue := true; RequeueAfter := 0 |}
          | Some _ => emptyResult
          end, err).
Proof.
  apply (Reconcile_first_adds_the_finalizer badRegexRequest freshBadRegexConfig
           freshBadRegexStore freshBadRegexStore); vm_compute; reflexivity.
Defined.

Lemma deletion_witness :
  exists err,
    List.filter isWrite (log (namespacerbacconfig.Reconcile readyRequest deletedStore))
    = [EvUpdate
         (OConfig (namespacerbacconfig.withMeta deletedConfig
                     (withFinalizers (cfgMeta deletedConfig) ["example.com/audit"])))
         err]
    /\ result (namespacerbacconfig.Reconcile readyRequest deletedStore)
       = (emptyResult, err).
Proof.
  assert (clGet KConfig readyRequest deletedStore = (inr deletedConfig, deletedStore))
    as Hget.
  { vm_compute. reflexivity. }
  apply (proj2 (proj2 (proj2
           (Reconcile_deletion_only_drops_the_finalizer readyRequest deletedConfig 5%nat
              deletedStore deletedStore Hget eq_refl)))).
  vm_compute. reflexivity.
Defined.


Lemma deleted_namespace_witness :
  List.filter isWrite (log (namespace.Reconcile goneRequest readyStore)) = []
  /\ world (namespace.Reconcile goneRequest readyStore)
     = (clList KConfig readyStore).2
  /\ result (namespace.Reconcile goneRequest readyStore)
     = (emptyResult, errOf (clList KConfig readyStore).1)
  /\ last (log (namespace.Reconcile goneRequest readyStore))
     = Some (EvHealth (match (clList KConfig readyStore).1 with
                       | inl _ => SetHealthy false
                       | inr _ => RecordReconcile
                       end)).
Proof.
  apply (deleted_namespace_triggers_no_write goneRequest notFound readyStore readyStore);
    vm_compute; reflexivity.
Defined.

Lemma RemoveFromSlice_witness :
  utils.RemoveFromSlice ["dev"; "staging"] "prod" = ["dev"; "staging"].
Proof.
  apply (proj2 (proj2 (proj2 (proj2
           (RemoveFromSlice_removes_item_only ["dev"; "staging"] "prod"))))).
  reflexivity.
Defined.

Example remove_and_unique :
  utils.RemoveFromSlice ["a"; "b"; "a"; "c"] "a" = ["b"; "c"]
  /\ utils.UniqueSlice ["a"; "b"; "a"; "c"; "b"] = ["a"; "b"; "c"]
  /\ utils.UniqueSlice [] = [].
Proof. vm_compute. done. Qed.

Lemma UniqueSlice_witness :
  utils.UniqueSlice ["dev"; "staging"] = ["dev"; "staging"].
Proof.
  apply (proj1 (proj2 (proj2 (proj2
           (UniqueSlice_first_occurrences ["dev"; "staging"]))))).
  apply NoDup_cons. split; [|apply NoDup_singleton].
  intros Hin. apply list_elem_of_singleton in Hin. discriminate.
Defined.

(** MapContainsAll accepts an empty requirement on a nil map, where
    NamespaceMatches refuses it. *)
Example MapContainsAll_and_the_selector_differ_on_nil :
  utils.MapContainsAll None (Some ∅) = true
  /\ utils.NamespaceMatches devNamespace emptyRequirement = (false, None).
Proof. vm_compute. done. Qed.

Lemma ProcessMap_witness :
  ProcessMap (Some {[ "team" := "{{.Namespace.Name}}" ]}) testContext
  = (Some ((fun v => (ProcessTemplate v testContext).1)
             <$> ({[ "team" := "{{.Namespace.Name}}" ]} : strmap)), None).
Proof.
  apply (proj1 (proj2 (ProcessMap_renders_values_keeps_keys
                         {[ "team" := "{{.Namespace.Name}}" ]} testContext))).
  intros k v [<- <-]%lookup_singleton_Some. vm_compute. reflexivity.
Defined.

Lemma helper_functions_witness :
  exists e,
    Execute funcMap mapError
      (TAction (CCall "default"
                  [AString "fallback"; AField ["Namespace"; "Labels"; "team"]]) TEnd)
      (contextValue testContext)
    = inl e.
Proof.
  apply (proj2 (proj2 (helper_functions_on_label_map testContext "team" "fallback"
                         "" ""))).
  vm_compute. reflexivity.
Defined.

Lemma validateConfig_witness : namespacerbacconfig.validateConfig readyConfig = None.
Proof.
  apply (proj2 (proj1 (validateConfig_accepts_iff_pattern_and_some_template
                         readyConfig))).
  split.
  - intros re [= <-]. eexists. vm_compute. reflexivity.
  - right. left. discriminate.
Defined.


Lemma mapNamespaceToConfigs_witness :
  result (namespacerbacconfig.mapNamespaceToConfigs
            (ONamespace (platformNamespace "e2e-staging-app")) readyStore)
  = [readyRequest]
  /\ world (namespacerbacconfig.mapNamespaceToConfigs
              (ONamespace (platformNamespace "e2e-staging-app")) readyStore)
     = readyStore.
Proof.
  assert (clList KConfig readyStore = (inr [readyConfig], readyStore)) as Hlist.
  { vm_compute. reflexivity. }
  destruct (proj2 (proj2 (proj2
              (mapNamespaceToConfigs_enqueues_the_matching_declarations
                 (ONamespace (platformNamespace "e2e-staging-app")) readyStore)))
              (platformNamespace "e2e-staging-app") [readyConfig] readyStore
              eq_refl Hlist) as [Hres Hworld].
  split; [|exact Hworld].
  rewrite Hres. vm_compute. reflexivity.
Defined.

End FurtherExamples.
